(** * lcdprocjs: a shallow embedding of the LCDproc client and its properties

    The development follows [src/lcdprocjs.js] and has three parts.

    The embedding:
    - [JS]: the part of the JavaScript runtime the client relies on
      (primitive values, string and number conversions, [Math.round],
      string splitting);
    - plain objects with their key order, and the registries;
    - the serializer functions [quoteString] and [flattenObj];
    - the object model: one [Client], its [Screen] objects and their
      [Widget] objects live in a store addressed by references, as the
      JavaScript objects do, and every observable effect (socket traffic and
      emitted events) is appended to a chronological trace;
    - the methods of [Client], [Screen] and the widget classes, written in a
      small state and exception monad over that store.

    The vocabulary of the properties: traces, ids, sequences of calls, the
    invariants of the store, and worlds to run examples in.

    The properties, with the lemmas on what each method does; and further
    properties of the same code: the opening of a session, how chunks and
    lines are read, what holds of the store in every state, what the
    factory methods and the setters send, what [delete] leaves behind,
    and all that the client ever does to the outside. *)

From Stdlib Require Import ZArith NArith String Ascii List Bool Lia Sorted.
From Stdlib Require Import Floats.PrimFloat Floats.FloatOps Floats.SpecFloat.
From Stdlib Require Import Floats.FloatAxioms.
From stdpp Require Import gmap strings list pretty.

Local Open Scope string_scope.

(** ** The JavaScript runtime *)

Module JS.

(** Primitive values.  Numbers are IEEE-754 binary64, as in the language.
    Strings are sequences of 8-bit code units: the LCDproc protocol is
    ASCII. *)
Inductive jsval :=
| JUndefined
| JNull
| JBool (b : bool)
| JNumber (n : float)
| JString (s : string).

(** *** Strings *)

(** White space and line terminators in the 8-bit range
    (TAB, LF, VT, FF, CR, SP, NBSP). *)
Definition is_space (c : ascii) : bool :=
  match N_of_ascii c with
  | 9 | 10 | 11 | 12 | 13 | 32 | 160 => true
  | _ => false
  end%N.

Fixpoint trimStart (s : string) : string :=
  match s with
  | String c r => if is_space c then trimStart r else s
  | EmptyString => EmptyString
  end.

Fixpoint trimEnd (s : string) : string :=
  match s with
  | String c r =>
      match trimEnd r with
      | EmptyString => if is_space c then EmptyString else String c EmptyString
      | r' => String c r'
      end
  | EmptyString => EmptyString
  end.

(** [String.prototype.trim] *)
Definition trim (s : string) : string := trimEnd (trimStart s).

(** [s.split(sep)] for a one-character separator: never empty, and
    [split_on sep ""] is the one-element array holding the empty string. *)
Fixpoint split_on (sep : ascii) (s : string) : list string :=
  match s with
  | EmptyString => [EmptyString]
  | String c r =>
      if Ascii.eqb c sep then EmptyString :: split_on sep r
      else match split_on sep r with
           | x :: xs => String c x :: xs
           | [] => [String c EmptyString]
           end
  end.

(** [s.indexOf(t) == 0] *)
Definition indexOf_is_0 (t s : string) : bool :=
  match index 0 t s with
  | Some 0 => true
  | _ => false
  end.

(** [s.substring(a, b)] for [a <= b] and [s.substring(a)] *)
Definition substring2 (a b : nat) (s : string) : string := substring a (b - a) s.
Definition substring1 (a : nat) (s : string) : string :=
  substring a (String.length s - a) s.

Fixpoint zeros (n : nat) : string :=
  match n with
  | O => ""
  | S n' => String "0" (zeros n')
  end.

(** *** Numbers *)

Local Open Scope Z_scope.

(** The binary64 value nearest to [m * 2^e] (ties to even). *)
Definition nearest (m e : Z) : float :=
  SF2Prim (binary_normalize prec emax m e false).

(** The binary64 value nearest to the rational [p / q], for [0 <= p] and
    [0 < q]: a quotient of more than 64 bits with a sticky last bit rounds as
    the exact rational does. *)
Definition nearest_ratio (p q : Z) : float :=
  let k := Z.max 0 (64 + Z.log2 q - Z.log2 p) in
  let n := p * 2 ^ k in
  let sticky := if n mod q =? 0 then 0 else 1 in
  nearest (2 * (n / q) + sticky) (- k - 1).

(** The binary64 value nearest to [m * 10^e], for [0 <= m]. *)
Definition nearest_dec (m e : Z) : float :=
  if 0 <=? e then nearest (m * 10 ^ e) 0 else nearest_ratio m (10 ^ (- e)).

Definition digit_val (base : Z) (c : ascii) : option Z :=
  let n := Z.of_N (N_of_ascii c) in
  let v := if (48 <=? n) && (n <=? 57) then n - 48
           else if (97 <=? n) && (n <=? 122) then n - 87
           else if (65 <=? n) && (n <=? 90) then n - 55
           else base in
  if v <? base then Some v else None.

(** The value of a string of digits in [base], most significant first. *)
Fixpoint digits_val (base : Z) (acc : Z) (s : string) : option Z :=
  match s with
  | EmptyString => Some acc
  | String c r =>
      match digit_val base c with
      | Some d => digits_val base (acc * base + d) r
      | None => None
      end
  end.

(** The longest prefix of decimal digits, and the rest. *)
Fixpoint span_digits (s : string) : string * string :=
  match s with
  | String c r =>
      match digit_val 10 c with
      | Some _ => let (d, t) := span_digits r in (String c d, t)
      | None => (EmptyString, s)
      end
  | EmptyString => (EmptyString, EmptyString)
  end.

(** [ExponentPart], when the whole of [s] is one: [e] or [E], an optional
    sign, one or more digits.  The empty string is the absent exponent. *)
Definition exponent_part (s : string) : option Z :=
  match s with
  | EmptyString => Some 0
  | String c r =>
      if Ascii.eqb c "e" || Ascii.eqb c "E" then
        let (neg, ds) :=
          match r with
          | String "-" r' => (true, r')
          | String "+" r' => (false, r')
          | _ => (false, r)
          end in
        match ds with
        | EmptyString => None
        | _ => match digits_val 10 0 ds with
               | Some v => Some (if neg then - v else v)
               | None => None
               end
        end
      else None
  end.

(** [StrUnsignedDecimalLiteral] *)
Definition unsigned_decimal (s : string) : option float :=
  if String.eqb s "Infinity" then Some infinity else
  let (ip, r1) := span_digits s in
  let (fp, r2) :=
    match r1 with
    | String "." r => span_digits r
    | _ => (EmptyString, r1)
    end in
  match ip +:+ fp, exponent_part r2, digits_val 10 0 (ip +:+ fp) with
  | String _ _, Some ex, Some m =>
      Some (nearest_dec m (ex - Z.of_nat (String.length fp)))
  | _, _, _ => None
  end.

(** [StringToNumber]: the value of a [StringNumericLiteral], or NaN. *)
Definition StringToNumber (s : string) : float :=
  let t := trim s in
  let radix (base : Z) (ds : string) : float :=
    match ds with
    | EmptyString => nan
    | _ => match digits_val base 0 ds with
           | Some v => nearest v 0
           | None => nan
           end
    end in
  match t with
  | EmptyString => zero
  | String "0" (String "x" ds) | String "0" (String "X" ds) => radix 16 ds
  | String "0" (String "o" ds) | String "0" (String "O" ds) => radix 8 ds
  | String "0" (String "b" ds) | String "0" (String "B" ds) => radix 2 ds
  | String "-" r =>
      match unsigned_decimal r with Some f => opp f | None => nan end
  | String "+" r =>
      match unsigned_decimal r with Some f => f | None => nan end
  | _ =>
      match unsigned_decimal t with Some f => f | None => nan end
  end.

(** [ToNumber] on primitive values (unary [+], the operands of [-] and [*]) *)
Definition ToNumber (v : jsval) : float :=
  match v with
  | JUndefined => nan
  | JNull => zero
  | JBool b => if b then one else zero
  | JNumber n => n
  | JString s => StringToNumber s
  end.

(** [Math.round]: the nearest integral value, ties towards +Infinity; the
    sign of a zero result is the sign of the argument. *)
Definition Math_round (x : float) : float :=
  let two52 := 4503599627370496%float in
  let a := abs x in
  if is_nan x || (two52 <=? a)%float then x else
  let r := (a + two52 - two52)%float in
  let f := if (a <? r)%float then (r - 1)%float else r in
  let frac := (a - f)%float in
  if get_sign x
  then if (0.5 <? frac)%float then opp (f + 1)%float else opp f
  else if (0.5 <=? frac)%float then (f + 1)%float else f.

(** The decimal digits and the decimal exponent [n] of the shortest decimal
    that rounds to [m * 2^e]: the digits [ds] read as an integer [s] of [k]
    digits with [s * 10^(n-k)] rounding to the number, [k] least, and [s]
    nearest to the number among those.  [m] and [e] are the mantissa and
    exponent of a finite non-zero binary64 in canonical form. *)
Section Shortest.
Variables (m : positive) (e : Z).

Let boundary : bool := (Z.pos m =? 2 ^ 52) && (-1074 <? e).
Let sh : Z := e - 2.
Let up : Z := 2 ^ Z.max 0 sh.
Let den : Z := 2 ^ Z.max 0 (- sh).
(* value, lower and upper rounding limits, all over [den] *)
Let v : Z := 4 * Z.pos m * up.
Let lo : Z := (4 * Z.pos m - (if boundary then 1 else 2)) * up.
Let hi : Z := (4 * Z.pos m + 2) * up.
Let closed : bool := Z.even (Z.pos m).

(* [v / den < 10^n] *)
Definition below_pow10 (n : Z) : bool :=
  if 0 <=? n then v <? 10 ^ n * den else v * 10 ^ (- n) <? den.

Fixpoint first_pow10_above (fuel : nat) (n : Z) : Z :=
  match fuel with
  | O => n
  | S fuel' => if below_pow10 n then n else first_pow10_above fuel' (n + 1)
  end.

(* the number of integral decimal digits: [10^(n0-1) <= v/den < 10^n0] *)
Definition n0 : Z :=
  first_pow10_above 8 ((Z.log2 v - Z.log2 den - 1) * 30103 / 100000 - 2).

(* the candidates with [k] digits *)
Definition candidate (k : Z) : option Z :=
  let t := n0 - k in
  let scale := 10 ^ Z.abs t in
  let '(vv, l, h, unit) :=
    if 0 <=? t then (v, lo, hi, scale * den)
    else (v * scale, lo * scale, hi * scale, den) in
  let c1 := vv / unit in
  let c2 := c1 + 1 in
  let ok c := if closed then (l <=? c * unit) && (c * unit <=? h)
              else (l <? c * unit) && (c * unit <? h) in
  let d1 := vv - c1 * unit in
  let d2 := c2 * unit - vv in
  if ok c1 && (negb (ok c2) || (d1 <? d2) || ((d1 =? d2) && Z.even c1))
  then Some c1
  else if ok c2 then Some c2 else None.

Fixpoint shortest_from (fuel : nat) (k : Z) : Z * Z :=
  match fuel with
  | O => (0, k)
  | S fuel' =>
      match candidate k with
      | Some c => (c, k)
      | None => shortest_from fuel' (k + 1)
      end
  end.

Definition shortest : string * Z :=
  let (c, k) := shortest_from 17 1 in
  if c =? 10 ^ k then ("1", n0 + 1) else (pretty c, n0).
End Shortest.

(** [Number::toString] in radix 10 *)
Definition Number_toString (x : float) : string :=
  match Prim2SF x with
  | S754_nan => "NaN"
  | S754_zero _ => "0"
  | S754_infinity s => if s then "-Infinity" else "Infinity"
  | S754_finite s m e =>
      let (ds, n) := shortest m e in
      let k := Z.of_nat (String.length ds) in
      let body :=
        if (k <=? n) && (n <=? 21) then ds +:+ zeros (Z.to_nat (n - k))
        else if (0 <? n) && (n <=? 21) then
          substring2 0 (Z.to_nat n) ds +:+ "." +:+ substring1 (Z.to_nat n) ds
        else if (-6 <? n) && (n <=? 0) then
          "0." +:+ zeros (Z.to_nat (- n)) +:+ ds
        else
          let ex := (if n - 1 <? 0 then "-" else "+") +:+ pretty (Z.abs (n - 1)) in
          if k =? 1 then ds +:+ "e" +:+ ex
          else substring2 0 1 ds +:+ "." +:+ substring1 1 ds +:+ "e" +:+ ex in
      (if s then "-" else "") +:+ body
  end.

Local Close Scope Z_scope.

(** [ToString] on primitive values (string concatenation with [+]) *)
Definition ToString (v : jsval) : string :=
  match v with
  | JUndefined => "undefined"
  | JNull => "null"
  | JBool b => if b then "true" else "false"
  | JNumber n => Number_toString n
  | JString s => s
  end.

(** [Array.prototype.join]: [undefined] and [null] elements are rendered
    empty. *)
Definition join_item (v : jsval) : string :=
  match v with
  | JUndefined | JNull => ""
  | _ => ToString v
  end.

Fixpoint join (sep : string) (l : list jsval) : string :=
  match l with
  | [] => ""
  | [x] => join_item x
  | x :: r => join_item x +:+ sep +:+ join sep r
  end.

End JS.

Import JS.
Local Open Scope list_scope.

(** ** Plain objects

    A configuration object is the list of its own enumerable properties in
    creation order, each key at most once.  Enumeration ([Object.keys], on
    which lodash's [_.forOwn] and [_.assign] rest) does not follow creation
    order for every key: the keys that are array indices come first, in
    ascending numeric order, and the other keys follow in creation order. *)

Definition obj := list (string * jsval).

(** An array index is the canonical decimal spelling of an integer below
    [2^32 - 1]. *)
Definition array_index (k : string) : option N :=
  match k with
  | EmptyString => None
  | String "0" (String _ _) => None
  | _ => match digits_val 10 0 k with
         | Some v => if (v <? 4294967295)%Z then Some (Z.to_N v) else None
         | None => None
         end
  end.

Fixpoint insert_index (i : N) (p : string * jsval) (l : list (N * (string * jsval)))
  : list (N * (string * jsval)) :=
  match l with
  | [] => [(i, p)]
  | (j, q) :: r => if (i <? j)%N then (i, p) :: l else (j, q) :: insert_index i p r
  end.

Definition index_step (acc : list (N * (string * jsval))) (p : string * jsval)
  : list (N * (string * jsval)) :=
  match array_index (fst p) with
  | Some i => insert_index i p acc
  | None => acc
  end.

Definition indexed_entries (o : obj) : list (N * (string * jsval)) :=
  fold_left index_step o [].

Definition named_entries (o : obj) : obj :=
  List.filter (fun p => match array_index (fst p) with Some _ => false | None => true end) o.

(** The own properties in enumeration order. *)
Definition own_entries (o : obj) : obj := map snd (indexed_entries o) ++ named_entries o.

(** [o[k]] on an own property, [undefined] when there is none *)
Fixpoint obj_get (o : obj) (k : string) : jsval :=
  match o with
  | [] => JUndefined
  | (k', v) :: r => if String.eqb k' k then v else obj_get r k
  end.

(** [o[k] = v]: an existing property keeps its place, a new one is created
    last. *)
Fixpoint obj_set (o : obj) (k : string) (v : jsval) : obj :=
  match o with
  | [] => [(k, v)]
  | (k', v') :: r => if String.eqb k' k then (k', v) :: r else (k', v') :: obj_set r k v
  end.

(** [_.assign(dst, src)] *)
Definition assign (dst src : obj) : obj :=
  fold_left (fun d p => obj_set d (fst p) (snd p)) (own_entries src) dst.

(** [_.isEmpty] on a plain object; an omitted ([undefined]) configuration is
    empty as well and is modelled by the empty object. *)
Definition isEmpty (o : obj) : bool :=
  match o with
  | [] => true
  | _ => false
  end.

(** The registries [screens] and [widgets] are plain objects used as maps
    from ids to objects; their key order is never observed.  A property read
    [o[k]] also finds what [Object.prototype] provides. *)
Definition Object_prototype_keys : list string :=
  [ "constructor"; "__defineGetter__"; "__defineSetter__"; "hasOwnProperty";
    "__lookupGetter__"; "__lookupSetter__"; "isPrototypeOf";
    "propertyIsEnumerable"; "toString"; "valueOf"; "__proto__";
    "toLocaleString" ].

Inductive property (A : Type) :=
| Own (a : A)     (* an own property *)
| Inherited       (* a member of [Object.prototype]: defined, no screen or widget *)
| Absent.         (* [undefined] *)
Arguments Own {A} a.
Arguments Inherited {A}.
Arguments Absent {A}.

Definition get_property {A} (o : gmap string A) (k : string) : property A :=
  match o !! k with
  | Some a => Own a
  | None => if bool_decide (k ∈ Object_prototype_keys) then Inherited else Absent
  end.

(** ** Serializer *)

(** [quoteString(str)]: ["{" + str + "}"] *)
Definition quoteString (str : jsval) : jsval :=
  JString ("{" +:+ ToString str +:+ "}").

(** [flattenObj(obj, donotdashkeys)] *)
Definition flattenObj (o : obj) (donotdashkeys : bool) : list jsval :=
  fold_left (fun out p =>
               (out ++ [JString ((if donotdashkeys then "" else "-") +:+ fst p)])
                 ++ [snd p])
            (own_entries o) [].

(** ** The object store *)

(** A reference to an object is its address in the store. *)
Abbreviation ref := nat (only parsing).

Record Dim := { width : float; height : float }.

(** [lcdprocConfig] *)
Record LcdprocConfig := {
  version : jsval;
  protocol : jsval;
  size : Dim;
  cellsize : Dim
}.

(** The counters [screenCnt] and [widgetCnt] are natural numbers: a
    JavaScript number counts exactly up to [2^53], which no run reaches. *)
Record Client := {
  client_config : obj;
  lcdprocConfig : LcdprocConfig;
  screens : gmap string ref;
  screenCnt : N
}.

Record Screen := {
  screenId : string;
  screen_config : obj;
  widgets : gmap string ref;
  widgetCnt : N
}.

(** The class of a widget object (its prototype). *)
Inductive WidgetClass :=
| GenericWidget | TitleWidget | StringWidget | HorizontalBarWidget
| VerticalBarWidget | IconWidget | BigNumberWidget.

Record Widget := {
  widget_class : WidgetClass;
  widget_screen : ref;
  widgetId : string;
  widgetType : jsval;
  params : option (list jsval)
}.

Inductive emitter := OnClient | OnScreen (r : ref).

(** What the outside observes, in order: the calls on the socket and the
    events emitted to listeners. *)
Inductive effect :=
| SocketConnect (port host : jsval)
| SocketWrite (data : string)
| SocketEnd
| SocketDestroy
| Emit (target : emitter) (event : string).

(** One client with every [Screen] and [Widget] object constructed so far.
    Objects are addressed by their position in the store and are never
    reclaimed: a handle returned to the caller stays valid after [delete]. *)
Record World := {
  client : Client;
  screen_heap : list Screen;
  widget_heap : list Widget;
  trace : list effect
}.

(** ** The monad of methods *)

Inductive exn := TypeError | RangeError.

Inductive outcome (A : Type) :=
| Return (a : A) (w : World)
| Throw (e : exn) (w : World).
Arguments Return {A} a w.
Arguments Throw {A} e w.

(** [None] is a dangling reference, which no handle obtained from the
    methods below is. *)
Definition M (A : Type) := World -> option (outcome A).

Definition ret {A} (a : A) : M A := fun w => Some (Return a w).

Definition bind {A B} (m : M A) (k : A -> M B) : M B :=
  fun w => match m w with
           | Some (Return a w') => k a w'
           | Some (Throw e w') => Some (Throw e w')
           | None => None
           end.

Global Instance M_ret : MRet M := @ret.
Global Instance M_bind : MBind M := fun A B k m => bind m k.

Definition throw {A} (e : exn) : M A := fun w => Some (Throw e w).
Definition dangling {A} : M A := fun _ => None.

Definition get_client : M Client := fun w => Some (Return (client w) w).

Definition update (f : World -> World) : M unit := fun w => Some (Return tt (f w)).

Definition modify_client (f : Client -> Client) : M unit :=
  update (fun w => {| client := f (client w); screen_heap := screen_heap w;
                      widget_heap := widget_heap w; trace := trace w |}).

Definition get_screen (r : ref) : M Screen :=
  fun w => match screen_heap w !! r with
           | Some s => Some (Return s w)
           | None => None
           end.

Definition modify_screen (r : ref) (f : Screen -> Screen) : M unit :=
  s ← get_screen r;
  update (fun w => {| client := client w; screen_heap := <[r := f s]> (screen_heap w);
                      widget_heap := widget_heap w; trace := trace w |}).

(** [new Screen]: the new object gets the next address. *)
Definition alloc_screen (s : Screen) : M ref :=
  fun w => Some (Return (length (screen_heap w))
                        {| client := client w; screen_heap := screen_heap w ++ [s];
                           widget_heap := widget_heap w; trace := trace w |}).

Definition get_widget (r : ref) : M Widget :=
  fun w => match widget_heap w !! r with
           | Some x => Some (Return x w)
           | None => None
           end.

Definition modify_widget (r : ref) (f : Widget -> Widget) : M unit :=
  x ← get_widget r;
  update (fun w => {| client := client w; screen_heap := screen_heap w;
                      widget_heap := <[r := f x]> (widget_heap w); trace := trace w |}).

Definition alloc_widget (x : Widget) : M ref :=
  fun w => Some (Return (length (widget_heap w))
                        {| client := client w; screen_heap := screen_heap w;
                           widget_heap := widget_heap w ++ [x]; trace := trace w |}).

Definition perform (e : effect) : M unit :=
  update (fun w => {| client := client w; screen_heap := screen_heap w;
                      widget_heap := widget_heap w; trace := trace w ++ [e] |}).

Fixpoint forEach_from {A} (i : nat) (f : A -> nat -> M unit) (l : list A) : M unit :=
  match l with
  | [] => ret tt
  | x :: r => f x i;; forEach_from (S i) f r
  end.

(** [l.forEach(function(value, i) {...})] *)
Definition forEach {A} (f : A -> nat -> M unit) (l : list A) : M unit :=
  forEach_from 0 f l.

(** [a[i]] on an array of strings *)
Definition array_get (a : list string) (i : nat) : jsval :=
  match a !! i with
  | Some s => JString s
  | None => JUndefined
  end.

(** [a[i]] on an array of values *)
Definition params_get (a : list jsval) (i : nat) : jsval :=
  match a !! i with
  | Some v => v
  | None => JUndefined
  end.

Definition LF : string := String "010" EmptyString.

(** ** Client *)

Definition default_config : obj :=
  [ ("host", JString "localhost"); ("port", JNumber 13666); ("name", JString "lcdprocjs") ].

(** [new Client(config)] *)
Definition Client_new (config : obj) : World :=
  {| client := {| client_config := assign default_config config;
                  lcdprocConfig := {| version := JNumber 0; protocol := JNumber 0;
                                      size := {| width := 0; height := 0 |};
                                      cellsize := {| width := 0; height := 0 |} |};
                  screens := ∅;
                  screenCnt := 0 |};
     screen_heap := [];
     widget_heap := [];
     trace := [] |}.

(** An argument of [_write]: an array or anything else. *)
Inductive arg :=
| Scalar (v : jsval)
| Array (a : list jsval).

Coercion JString : string >-> jsval.
Coercion Scalar : jsval >-> arg.

(** [Client.prototype._write] *)
Definition Client_write (args : list arg) : M unit :=
  let out := fold_left (fun out a => match a with
                                     | Array l => out ++ l
                                     | Scalar v => out ++ [v]
                                     end) args [] in
  let o := join " " out in
  perform (SocketWrite (o +:+ LF)).

Definition set_lcdprocConfig (f : LcdprocConfig -> LcdprocConfig) : M unit :=
  modify_client (fun c => {| client_config := client_config c;
                             lcdprocConfig := f (lcdprocConfig c);
                             screens := screens c; screenCnt := screenCnt c |}).

Definition set_version (v : jsval) (c : LcdprocConfig) : LcdprocConfig :=
  {| version := v; protocol := protocol c; size := size c; cellsize := cellsize c |}.
Definition set_protocol (v : jsval) (c : LcdprocConfig) : LcdprocConfig :=
  {| version := version c; protocol := v; size := size c; cellsize := cellsize c |}.
Definition set_size (f : Dim -> Dim) (c : LcdprocConfig) : LcdprocConfig :=
  {| version := version c; protocol := protocol c; size := f (size c); cellsize := cellsize c |}.
Definition set_cellsize (f : Dim -> Dim) (c : LcdprocConfig) : LcdprocConfig :=
  {| version := version c; protocol := protocol c; size := size c; cellsize := f (cellsize c) |}.
Definition set_width (x : float) (d : Dim) : Dim := {| width := x; height := height d |}.
Definition set_height (x : float) (d : Dim) : Dim := {| width := width d; height := x |}.

(** The body of [params.forEach] in the [connect] branch of the data
    handler. *)
Definition connect_param (params : list string) (value : string) (i : nat) : M unit :=
  if String.eqb value "LCDproc" then
    set_lcdprocConfig (set_version (array_get params (i + 1)))
  else if String.eqb value "protocol" then
    set_lcdprocConfig (set_protocol (array_get params (i + 1)))
  else if String.eqb value "wid" then
    set_lcdprocConfig (set_size (set_width (ToNumber (array_get params (i + 1)))))
  else if String.eqb value "hgt" then
    set_lcdprocConfig (set_size (set_height (ToNumber (array_get params (i + 1)))))
  else if String.eqb value "cellwid" then
    set_lcdprocConfig (set_cellsize (set_width (ToNumber (array_get params (i + 1)))))
  else if String.eqb value "cellhgt" then
    set_lcdprocConfig (set_cellsize (set_height (ToNumber (array_get params (i + 1)))))
  else ret tt.

(** The body of [data.split("\n").forEach] in the data handler.  A screen
    found in the registry emits; a key that only [Object.prototype] answers
    is not [undefined] and has no [emit], so the call throws. *)
Definition on_message (msg : string) (_ : nat) : M unit :=
  if String.eqb msg "success" then ret tt else
  let m := substring2 0 6 msg in
  if String.eqb m "listen" then
    c ← get_client;
    match get_property (screens c) (substring1 7 msg) with
    | Own r => perform (Emit (OnScreen r) "shown")
    | Inherited => throw TypeError
    | Absent => ret tt
    end
  else if String.eqb m "ignore" then
    c ← get_client;
    match get_property (screens c) (substring1 7 msg) with
    | Own r => perform (Emit (OnScreen r) "hidden")
    | Inherited => throw TypeError
    | Absent => ret tt
    end
  else ret tt.

(** The listener of the socket's [data] event, as [connect] installs it. *)
Definition socket_on_data (buf : string) : M unit :=
  let data := trim buf in
  if indexOf_is_0 "connect" data then
    let params := split_on " " data in
    forEach (connect_param params) params;;
    c ← get_client;
    Client_write [Scalar "client_set"; Scalar "-name";
                  Scalar (quoteString (obj_get (client_config c) "name"))];;
    perform (Emit OnClient "ready")
  else
    forEach on_message (split_on "010" data).

(** The listeners of the socket's [connect] and [error] events. *)
Definition socket_on_connect : M unit := Client_write [Scalar "hello"].
Definition socket_on_error : M unit := perform SocketDestroy.

(** [Client.prototype.connect]: installs the three listeners above and opens
    the socket. *)
Definition Client_connect : M unit :=
  c ← get_client;
  perform (SocketConnect (obj_get (client_config c) "port")
                         (obj_get (client_config c) "host")).

(** [Client.prototype.close] *)
Definition Client_close : M unit := perform SocketEnd.

(** [Client.prototype._unrefScreen] *)
Definition Client_unrefScreen (id : string) : M unit :=
  modify_client (fun c => {| client_config := client_config c;
                             lcdprocConfig := lcdprocConfig c;
                             screens := delete id (screens c);
                             screenCnt := screenCnt c |}).

(** [Client.prototype._newScreenId] *)
Definition Client_newScreenId : M string :=
  c ← get_client;
  modify_client (fun c => {| client_config := client_config c;
                             lcdprocConfig := lcdprocConfig c;
                             screens := screens c;
                             screenCnt := screenCnt c + 1 |});;
  ret (ToString (obj_get (client_config c) "name") +:+ "_s" +:+ pretty (screenCnt c)).

(** ** Screen *)

(** [Screen.prototype.setConfig] *)
Definition Screen_setConfig (this : ref) (config : obj) : M unit :=
  if isEmpty config then ret tt else
  modify_screen this (fun s => {| screenId := screenId s;
                                  screen_config := assign (screen_config s) config;
                                  widgets := widgets s; widgetCnt := widgetCnt s |});;
  s ← get_screen this;
  Client_write [Scalar "screen_set"; Scalar (screenId s); Array (flattenObj config false)].

(** [new Screen(client, screenId, config)] *)
Definition Screen_new (screenId : string) (config : obj) : M ref :=
  this ← alloc_screen {| screenId := screenId; screen_config := [];
                          widgets := ∅; widgetCnt := 0 |};
  Client_write [Scalar "screen_add"; Scalar screenId];;
  Screen_setConfig this config;;
  ret this.

(** [Client.prototype.addScreen] *)
Definition Client_addScreen (config : obj) : M ref :=
  id ← Client_newScreenId;
  s ← Screen_new id config;
  modify_client (fun c => {| client_config := client_config c;
                             lcdprocConfig := lcdprocConfig c;
                             screens := <[id := s]> (screens c);
                             screenCnt := screenCnt c |});;
  ret s.

(** [Screen.prototype.delete] *)
Definition Screen_delete (this : ref) : M unit :=
  s ← get_screen this;
  Client_write [Scalar "screen_del"; Scalar (screenId s)];;
  Client_unrefScreen (screenId s).

(** [Screen.prototype._newWidgetId] *)
Definition Screen_newWidgetId (this : ref) : M string :=
  s ← get_screen this;
  modify_screen this (fun s => {| screenId := screenId s; screen_config := screen_config s;
                                  widgets := widgets s; widgetCnt := widgetCnt s + 1 |});;
  ret (screenId s +:+ "_w" +:+ pretty (widgetCnt s)).

(** [Screen.prototype._unrefWidget] *)
Definition Screen_unrefWidget (this : ref) (id : string) : M unit :=
  modify_screen this (fun s => {| screenId := screenId s; screen_config := screen_config s;
                                  widgets := delete id (widgets s);
                                  widgetCnt := widgetCnt s |}).

(** [this.widgets[id] = w] *)
Definition Screen_setWidget (this : ref) (id : string) (w : ref) : M unit :=
  modify_screen this (fun s => {| screenId := screenId s; screen_config := screen_config s;
                                  widgets := <[id := w]> (widgets s);
                                  widgetCnt := widgetCnt s |}).

(** ** Widget *)

(** [new Widget(screen, widgetId, widgetType)], for the class [cls] *)
Definition Widget_new (cls : WidgetClass) (screen : ref) (widgetId : string)
    (widgetType : jsval) : M ref :=
  this ← alloc_widget {| widget_class := cls; widget_screen := screen; widgetId := widgetId;
                          widgetType := widgetType; params := None |};
  s ← get_screen screen;
  Client_write [Scalar "widget_add"; Scalar (screenId s); Scalar widgetId; Scalar widgetType];;
  ret this.

(** The argument as an array length: an integer from 0 to [2^32 - 1]. *)
Definition array_length (n : float) : option nat :=
  match Prim2SF n with
  | S754_zero _ => Some 0
  | S754_finite false m e =>
      if (0 <=? e)%Z then
        if (e <? 32)%Z && (Z.pos m * 2 ^ e <? 4294967296)%Z
        then Some (Z.to_nat (Z.pos m * 2 ^ e)) else None
      else if (Z.pos m mod 2 ^ (- e) =? 0)%Z && (Z.pos m / 2 ^ (- e) <? 4294967296)%Z
           then Some (Z.to_nat (Z.pos m / 2 ^ (- e))) else None
  | _ => None
  end.

(** [Array.apply(null, arguments)]: the array of the arguments, except that
    a single number is taken as the length of a new array without elements
    (each reads as [undefined] and joins as the empty string), and is
    refused with a [RangeError] when it is no array length. *)
Definition Array_apply (arguments : list jsval) : M (list jsval) :=
  match arguments with
  | [v] =>
      match v with
      | JNumber n =>
          match array_length n with
          | Some len => ret (replicate len JUndefined)
          | None => throw RangeError
          end
      | _ => ret arguments
      end
  | _ => ret arguments
  end.

Definition set_params (p : list jsval) (x : Widget) : Widget :=
  {| widget_class := widget_class x; widget_screen := widget_screen x;
     widgetId := widgetId x; widgetType := widgetType x; params := Some p |}.

(** [Widget.prototype.setParams] *)
Definition Widget_setParams (this : ref) (arguments : list jsval) : M unit :=
  p ← Array_apply arguments;
  modify_widget this (set_params p);;
  x ← get_widget this;
  s ← get_screen (widget_screen x);
  Client_write [Scalar "widget_set"; Scalar (screenId s); Scalar (widgetId x); Array p].

(** [Widget.prototype.delete] *)
Definition Widget_delete (this : ref) : M unit :=
  x ← get_widget this;
  s ← get_screen (widget_screen x);
  Client_write [Scalar "widget_del"; Scalar (screenId s); Scalar (widgetId x)];;
  Screen_unrefWidget (widget_screen x) (widgetId x).

(** [Screen.prototype.addWidget] and the numbered factory methods
    [addString], [addHorizontalBar], [addVerticalBar], [addIcon] and
    [addBigNumber] share one body. *)
Definition Screen_add (cls : WidgetClass) (widgetType : jsval) (this : ref) : M ref :=
  id ← Screen_newWidgetId this;
  w ← Widget_new cls this id widgetType;
  Screen_setWidget this id w;;
  ret w.

Definition Screen_addWidget (this : ref) (type : jsval) : M ref :=
  Screen_add GenericWidget type this.
Definition Screen_addString : ref -> M ref := Screen_add StringWidget "string".
Definition Screen_addHorizontalBar : ref -> M ref := Screen_add HorizontalBarWidget "hbar".
Definition Screen_addVerticalBar : ref -> M ref := Screen_add VerticalBarWidget "vbar".
Definition Screen_addIcon : ref -> M ref := Screen_add IconWidget "icon".
Definition Screen_addBigNumber : ref -> M ref := Screen_add BigNumberWidget "num".

(** [Screen.prototype.addTitle] *)
Definition Screen_addTitle (this : ref) : M ref :=
  s ← get_screen this;
  let id := screenId s +:+ "_wTITLE" in
  match get_property (widgets s) id with
  | Absent =>
      w ← Widget_new TitleWidget this id "title";
      Screen_setWidget this id w;;
      ret w
  | Own w => ret w
  | Inherited => dangling   (* no member of [Object.prototype] ends in [_wTITLE] *)
  end.

(** ** The widget classes *)

(** [TitleWidget.prototype.setTitle] *)
Definition TitleWidget_setTitle (this : ref) (text : jsval) : M unit :=
  Widget_setParams this [quoteString text].

(** [StringWidget.prototype.set] *)
Definition StringWidget_set (this : ref) (x y text : jsval) : M unit :=
  Widget_setParams this [x; y; quoteString text].

(** [StringWidget.prototype.setPos], which is also
    [HorizontalBarWidget.prototype.setPos] and
    [VerticalBarWidget.prototype.setPos] *)
Definition StringWidget_setPos (this : ref) (x y : jsval) : M unit :=
  w ← get_widget this;
  match params w with
  | None => Widget_setParams this [x; y; JNumber 0]
  | Some p => Widget_setParams this [x; y; params_get p 2]
  end.

(** [StringWidget.prototype.setText] *)
Definition StringWidget_setText (this : ref) (text : jsval) : M unit :=
  w ← get_widget this;
  match params w with
  | None => StringWidget_set this (JNumber 1) (JNumber 1) text
  | Some p => StringWidget_set this (params_get p 0) (params_get p 1) text
  end.

(** [HorizontalBarWidget.prototype.set] *)
Definition HorizontalBarWidget_set (this : ref) (x y percent : jsval) : M unit :=
  c ← get_client;
  Widget_setParams this
    [x; y;
     JNumber (Math_round ((width (size (lcdprocConfig c)) - ToNumber x + 1) *
                          width (cellsize (lcdprocConfig c)) * ToNumber percent))].

(** [VerticalBarWidget.prototype.set] *)
Definition VerticalBarWidget_set (this : ref) (x y percent : jsval) : M unit :=
  c ← get_client;
  Widget_setParams this
    [x; y;
     JNumber (Math_round (ToNumber y * height (cellsize (lcdprocConfig c)) *
                          ToNumber percent))].

Definition HorizontalBarWidget_setPos := StringWidget_setPos.
Definition VerticalBarWidget_setPos := StringWidget_setPos.

(** [HorizontalBarWidget.prototype.setValue], which is also
    [VerticalBarWidget.prototype.setValue]: [this.set] is the method of the
    receiver's class. *)
Definition setValue (set : ref -> jsval -> jsval -> jsval -> M unit)
    (this : ref) (percent : jsval) : M unit :=
  w ← get_widget this;
  match params w with
  | None => set this (JNumber 1) (JNumber 1) percent
  | Some p => set this (params_get p 0) (params_get p 1) percent
  end.

Definition HorizontalBarWidget_setValue := setValue HorizontalBarWidget_set.
Definition VerticalBarWidget_setValue := setValue VerticalBarWidget_set.

(** [IconWidget.prototype.set] *)
Definition IconWidget_set (this : ref) (x y iconname : jsval) : M unit :=
  Widget_setParams this [x; y; iconname].

(** [IconWidget.prototype.setIcon] *)
Definition IconWidget_setIcon (this : ref) (iconname : jsval) : M unit :=
  w ← get_widget this;
  match params w with
  | None => IconWidget_set this (JNumber 1) (JNumber 1) iconname
  | Some p => IconWidget_set this (params_get p 0) (params_get p 1) iconname
  end.

(** [BigNumberWidget.prototype.set] *)
Definition BigNumberWidget_set (this : ref) (x number : jsval) : M unit :=
  Widget_setParams this [x; number].

(** * The vocabulary of the properties *)

Arguments join : simpl never.

(** The world in which a method call ends. *)
Definition outcome_world {A} (o : outcome A) : World :=
  match o with
  | Return _ w => w
  | Throw _ w => w
  end.

(** The line [_write] sends for the token sequence [out]. *)
Definition wire (out : list jsval) : effect := SocketWrite (join " " out +:+ LF).

(** The world after [widget_set] has been sent for the widget [this], an
    object [x] of the screen [s], with the parameters [p]: the parameters
    are cached in the widget and the command is on the wire. *)
Definition sent (w : World) (this : ref) (x : Widget) (s : Screen) (p : list jsval) : World :=
  {| client := client w;
     screen_heap := screen_heap w;
     widget_heap := <[this := set_params p x]> (widget_heap w);
     trace := trace w ++ [wire ([JString "widget_set"; JString (screenId s);
                                 JString (widgetId x)] ++ p)] |}.

(** ** The handshake *)

(** The number of [ready] events in a trace. *)
Definition ready_count (t : list effect) : nat :=
  length (List.filter (fun e => match e with
                                | Emit OnClient ev => String.eqb ev "ready"
                                | _ => false
                                end) t).

(** The world [w] with the capabilities [cfg]. *)
Definition with_lcdprocConfig (cfg : LcdprocConfig) (w : World) : World :=
  {| client := {| client_config := client_config (client w);
                  lcdprocConfig := cfg;
                  screens := screens (client w);
                  screenCnt := screenCnt (client w) |};
     screen_heap := screen_heap w;
     widget_heap := widget_heap w;
     trace := trace w |}.

(** What one round of the [switch] does to [lcdprocConfig], and what the
    whole [forEach] does from position [i] on. *)
Definition connect_switch (params : list string) (value : string) (i : nat)
    (c : LcdprocConfig) : LcdprocConfig :=
  if String.eqb value "LCDproc" then set_version (array_get params (i + 1)) c
  else if String.eqb value "protocol" then set_protocol (array_get params (i + 1)) c
  else if String.eqb value "wid" then
    set_size (set_width (ToNumber (array_get params (i + 1)))) c
  else if String.eqb value "hgt" then
    set_size (set_height (ToNumber (array_get params (i + 1)))) c
  else if String.eqb value "cellwid" then
    set_cellsize (set_width (ToNumber (array_get params (i + 1)))) c
  else if String.eqb value "cellhgt" then
    set_cellsize (set_height (ToNumber (array_get params (i + 1)))) c
  else c.

Fixpoint connect_fold (params : list string) (i : nat) (l : list string)
    (c : LcdprocConfig) : LcdprocConfig :=
  match l with
  | [] => c
  | value :: r => connect_fold params (S i) r (connect_switch params value i c)
  end.

(** ** Widget parameters *)

(** A world to run examples in: the handshake of a 20 by 4 display with
    cells of 5 by 8 is done, and one screen holds a string widget (0), a
    horizontal bar (1), a vertical bar (2) and an icon (3), none of them
    set so far. *)
Definition demo_world : World :=
  Eval vm_compute in
    match (socket_on_connect;;
           socket_on_data "connect LCDproc 0.5.7 protocol 0.3 wid 20 hgt 4 cellwid 5 cellhgt 8";;
           s ← Client_addScreen [];
           Screen_addString s;;
           Screen_addHorizontalBar s;;
           Screen_addVerticalBar s;;
           Screen_addIcon s) (Client_new []) with
    | Some o => outcome_world o
    | None => Client_new []
    end.

(** Its screen, and its widgets as constructed. *)
Definition demo_screen : Screen :=
  Eval vm_compute in match screen_heap demo_world !! 0 with
                     | Some s => s
                     | None => {| screenId := ""; screen_config := [];
                                  widgets := ∅; widgetCnt := 0 |}
                     end.

Definition demo_widget (cls : WidgetClass) (n : string) (type : string) : Widget :=
  {| widget_class := cls; widget_screen := 0; widgetId := "lcdprocjs_s0_w" +:+ n;
     widgetType := JString type; params := None |}.

(** The cached parameters of the widget [this] once [m] has run in [w]. *)
Definition params_after (m : M unit) (w : World) (this : ref) : option (list jsval) :=
  match m w with
  | Some o => match widget_heap (outcome_world o) !! this with
              | Some x => params x
              | None => None
              end
  | None => None
  end.

(** The position a partial update of the widget [x] takes: the cached one,
    or [(1,1)]. *)
Definition cached_x (x : Widget) : jsval :=
  match params x with Some p => params_get p 0 | None => JNumber 1 end.
Definition cached_y (x : Widget) : jsval :=
  match params x with Some p => params_get p 1 | None => JNumber 1 end.

(** ** Objects and the serializer *)

(** The key of the property [p] is an array index. *)
Definition is_index (p : string * jsval) : bool :=
  match array_index (fst p) with Some _ => true | None => false end.

(** The two tokens [flattenObj] pushes for the property [p]. *)
Definition pair_tokens (donotdashkeys : bool) (p : string * jsval) : list jsval :=
  [JString ((if donotdashkeys then "" else "-") +:+ fst p); snd p].

(** The screen [s] with the stored configuration [c]. *)
Definition with_config (c : obj) (s : Screen) : Screen :=
  {| screenId := screenId s; screen_config := c;
     widgets := widgets s; widgetCnt := widgetCnt s |}.

(** ** Chunks *)

(** A chunk takes the [connect] branch of the data handler. *)
Definition is_connect (chunk : string) : bool := indexOf_is_0 "connect" (trim chunk).

(** The chunks handled one after the other, as the socket delivers them; an
    exception that leaves the handler is not caught, and ends the run. *)
Definition deliver (chunks : list string) : M unit :=
  forEach (fun chunk _ => socket_on_data chunk) chunks.

(** An event emitted by a screen. *)
Definition is_screen_event (e : effect) : Prop :=
  exists r ev, e = Emit (OnScreen r) ev.

(** The step from [w] to [w'] emitted screen events and did nothing else. *)
Definition screen_events_only (w w' : World) : Prop :=
  client w' = client w /\ screen_heap w' = screen_heap w /\ widget_heap w' = widget_heap w
  /\ exists evs, trace w' = trace w ++ evs /\ Forall is_screen_event evs.

(** Two handshake answers, and a client that got both. *)
Definition handshake_line : string :=
  "connect LCDproc 0.5.7 protocol 0.3 wid 20 hgt 4 cellwid 5 cellhgt 8".
Definition second_line : string :=
  "connect LCDproc 0.5.8 protocol 0.4 wid 16 hgt 2 cellwid 6 cellhgt 9".

Definition after_two_connects : World :=
  Eval vm_compute in
    match deliver [handshake_line; "success"; second_line] (Client_new []) with
    | Some o => outcome_world o
    | None => Client_new []
    end.

(** ** Identifiers *)

(** The client's name as it enters the ids, and the three forms of id. *)
Definition client_name (w : World) : string :=
  ToString (obj_get (client_config (client w)) "name").
Definition screen_id (name : string) (n : N) : string := name +:+ "_s" +:+ pretty n.
Definition widget_id (screenId : string) (n : N) : string := screenId +:+ "_w" +:+ pretty n.
Definition title_id (screenId : string) : string := screenId +:+ "_wTITLE".

(** A string of decimal digits. *)
Fixpoint digits_only (s : string) : bool :=
  match s with
  | EmptyString => true
  | String c r => match digit_val 10 c with Some _ => digits_only r | None => false end
  end.

(** [t] begins [s]; [t] occurs in [s]. *)
Fixpoint starts_with (t s : string) : bool :=
  match t, s with
  | EmptyString, _ => true
  | String c t', String d s' => Ascii.eqb c d && starts_with t' s'
  | String _ _, EmptyString => false
  end.

Fixpoint has_infix (t s : string) : bool :=
  starts_with t s ||
  match s with
  | String _ r => has_infix t r
  | EmptyString => false
  end.

(** ** What the factory methods construct *)

(** The screen [addScreen] constructs and the widget a factory method
    constructs; a screen with one more registry entry, and with its counter
    advanced. *)
Definition new_screen (id : string) (config : obj) : Screen :=
  {| screenId := id; screen_config := assign [] config; widgets := ∅; widgetCnt := 0 |}.

Definition new_widget (cls : WidgetClass) (screen : ref) (id : string) (type : jsval)
  : Widget :=
  {| widget_class := cls; widget_screen := screen; widgetId := id;
     widgetType := type; params := None |}.

Definition with_widget (id : string) (x : ref) (s : Screen) : Screen :=
  {| screenId := screenId s; screen_config := screen_config s;
     widgets := <[id := x]> (widgets s); widgetCnt := widgetCnt s |}.

Definition bump (s : Screen) : Screen :=
  {| screenId := screenId s; screen_config := screen_config s;
     widgets := widgets s; widgetCnt := widgetCnt s + 1 |}.

(** The world after a widget has been constructed for the screen [this] and
    entered in its registry, the screen being [s] by then. *)
Definition widget_added (w : World) (this : ref) (s : Screen) (x : Widget) : World :=
  {| client := client w;
     screen_heap := <[this := with_widget (widgetId x) (length (widget_heap w)) s]>
                      (screen_heap w);
     widget_heap := widget_heap w ++ [x];
     trace := trace w ++ [wire [JString "widget_add"; JString (screenId s);
                                JString (widgetId x); widgetType x]] |}.

(** ** Every later state *)

(** The calls a program can make on the client, its screens and its
    widgets, and the events the socket can deliver.  A method is given any
    widget handle, also one of another class: that only adds runs. *)
Inductive call :=
| CallConnect | CallClose | CallAddScreen (config : obj)
| EventConnect | EventData (chunk : string) | EventError
| CallSetConfig (s : ref) (config : obj) | CallDeleteScreen (s : ref)
| CallAddWidget (s : ref) (type : jsval) | CallAddTitle (s : ref) | CallAddString (s : ref)
| CallAddHorizontalBar (s : ref) | CallAddVerticalBar (s : ref) | CallAddIcon (s : ref)
| CallAddBigNumber (s : ref)
| CallSetParams (x : ref) (arguments : list jsval) | CallDeleteWidget (x : ref)
| CallSetTitle (x : ref) (text : jsval)
| CallStringSet (x : ref) (a b text : jsval)
| CallSetPos (x : ref) (a b : jsval)
| CallSetText (x : ref) (text : jsval)
| CallHorizontalBarSet (x : ref) (a b percent : jsval)
| CallHorizontalBarSetValue (x : ref) (percent : jsval)
| CallVerticalBarSet (x : ref) (a b percent : jsval)
| CallVerticalBarSetValue (x : ref) (percent : jsval)
| CallIconSet (x : ref) (a b iconname : jsval)
| CallSetIcon (x : ref) (iconname : jsval)
| CallBigNumberSet (x : ref) (a number : jsval).

(** A call whose result is dropped. *)
Definition void {A} (m : M A) : M unit := m;; ret tt.

Definition do_call (c : call) : M unit :=
  match c with
  | CallConnect => Client_connect
  | CallClose => Client_close
  | CallAddScreen config => void (Client_addScreen config)
  | EventConnect => socket_on_connect
  | EventData chunk => socket_on_data chunk
  | EventError => socket_on_error
  | CallSetConfig s config => Screen_setConfig s config
  | CallDeleteScreen s => Screen_delete s
  | CallAddWidget s type => void (Screen_addWidget s type)
  | CallAddTitle s => void (Screen_addTitle s)
  | CallAddString s => void (Screen_addString s)
  | CallAddHorizontalBar s => void (Screen_addHorizontalBar s)
  | CallAddVerticalBar s => void (Screen_addVerticalBar s)
  | CallAddIcon s => void (Screen_addIcon s)
  | CallAddBigNumber s => void (Screen_addBigNumber s)
  | CallSetParams x arguments => Widget_setParams x arguments
  | CallDeleteWidget x => Widget_delete x
  | CallSetTitle x text => TitleWidget_setTitle x text
  | CallStringSet x a b text => StringWidget_set x a b text
  | CallSetPos x a b => StringWidget_setPos x a b
  | CallSetText x text => StringWidget_setText x text
  | CallHorizontalBarSet x a b percent => HorizontalBarWidget_set x a b percent
  | CallHorizontalBarSetValue x percent => HorizontalBarWidget_setValue x percent
  | CallVerticalBarSet x a b percent => VerticalBarWidget_set x a b percent
  | CallVerticalBarSetValue x percent => VerticalBarWidget_setValue x percent
  | CallIconSet x a b iconname => IconWidget_set x a b iconname
  | CallSetIcon x iconname => IconWidget_setIcon x iconname
  | CallBigNumberSet x a number => BigNumberWidget_set x a number
  end.

(** One call or event, whether it returns or throws. *)
Definition step (w w' : World) : Prop :=
  exists c o, do_call c w = Some o /\ w' = outcome_world o.

(** [P] holds after [m], returned or thrown, when it holds before. *)
Definition preserves {A} (P : World -> Prop) (m : M A) : Prop :=
  forall w o, P w -> m w = Some o -> P (outcome_world o).

(** What holds in every state the client goes through: the name is fixed
    and every screen ever constructed has an id generated from a counter
    value that is used up; and, once the screen numbered [k] is deleted
    ([gone = Some k]), its id is in the registry no more. *)
Definition generated (name : string) (id : string) (w : World) : Prop :=
  exists j, (j < screenCnt (client w))%N /\ id = screen_id name j.

Definition inv (name : string) (gone : option N) (w : World) : Prop :=
  client_name w = name
  /\ (forall r s, screen_heap w !! r = Some s -> generated name (screenId s) w)
  /\ (forall k, gone = Some k ->
        (k < screenCnt (client w))%N /\ screens (client w) !! screen_id name k = None).

(** A new client with one screen. *)
Definition one_screen : World :=
  Eval vm_compute in
    match do_call (CallAddScreen []) (Client_new []) with
    | Some o => outcome_world o
    | None => Client_new []
    end.

(** ** Sequences of factory calls *)

(** The factory methods of a screen; all but [addTitle] take a number. *)
Inductive factory :=
| FWidget (type : jsval) | FString | FHorizontalBar | FVerticalBar | FIcon | FBigNumber
| FTitle.

Definition is_numbered (f : factory) : bool :=
  match f with
  | FTitle => false
  | _ => true
  end.

Definition do_factory (f : factory) (s : ref) : M ref :=
  match f with
  | FWidget type => Screen_addWidget s type
  | FString => Screen_addString s
  | FHorizontalBar => Screen_addHorizontalBar s
  | FVerticalBar => Screen_addVerticalBar s
  | FIcon => Screen_addIcon s
  | FBigNumber => Screen_addBigNumber s
  | FTitle => Screen_addTitle s
  end.

(** [addScreen], or a factory method on the screen at [s]. *)
Inductive add :=
| AddScreen (config : obj)
| AddTo (s : ref) (f : factory).

Definition do_add (a : add) : M ref :=
  match a with
  | AddScreen config => Client_addScreen config
  | AddTo s f => do_factory f s
  end.

(** The calls made in order; the handles they return. *)
Fixpoint do_adds (l : list add) : M (list ref) :=
  match l with
  | [] => ret []
  | a :: r => x ← do_add a; xs ← do_adds r; ret (x :: xs)
  end.

(** The class and the protocol type of the widget a factory constructs. *)
Definition factory_class (f : factory) : WidgetClass :=
  match f with
  | FWidget _ => GenericWidget | FString => StringWidget
  | FHorizontalBar => HorizontalBarWidget | FVerticalBar => VerticalBarWidget
  | FIcon => IconWidget | FBigNumber => BigNumberWidget | FTitle => TitleWidget
  end.

Definition factory_type (f : factory) : jsval :=
  match f with
  | FWidget type => type | FString => JString "string" | FHorizontalBar => JString "hbar"
  | FVerticalBar => JString "vbar" | FIcon => JString "icon" | FBigNumber => JString "num"
  | FTitle => JString "title"
  end.

(** The ids of the widgets returned by the numbered calls among [fs], in
    call order, as read in the world [w]. *)
Fixpoint numbered_ids (w : World) (fs : list factory) (xs : list ref)
  : list (option string) :=
  match fs, xs with
  | f :: fs', x :: xs' =>
      (if is_numbered f then [widgetId <$> (widget_heap w !! x)] else [])
        ++ numbered_ids w fs' xs'
  | _, _ => []
  end.

(** The [n] ids numbered from [from] on. *)
Definition counted (sid : string) (from : N) (n : nat) : list (option string) :=
  (fun k => Some (widget_id sid (from + N.of_nat k))) <$> seq 0 n.

(** The widget is a title widget. *)
Definition is_title (x : Widget) : bool :=
  match widget_class x with
  | TitleWidget => true
  | _ => false
  end.

(** The numbered widgets ever constructed for the screen at [r], oldest
    first. *)
Definition numbered (w : World) (r : ref) : list Widget :=
  List.filter (fun x => Nat.eqb (widget_screen x) r && negb (is_title x)) (widget_heap w).

(** What holds of the store after any number of factory calls on a new
    client. *)
Record ids_inv (name : string) (w : World) : Prop := {
  inv_name : client_name w = name;
  inv_screenCnt : screenCnt (client w) = N.of_nat (length (screen_heap w));
  inv_screenId : forall r s,
    screen_heap w !! r = Some s -> screenId s = screen_id name (N.of_nat r);
  inv_widgetCnt : forall r s,
    screen_heap w !! r = Some s -> widgetCnt s = N.of_nat (length (numbered w r));
  inv_widgetId : forall r s,
    screen_heap w !! r = Some s ->
    widgetId <$> numbered w r =
      (fun k => widget_id (screenId s) (N.of_nat k)) <$> seq 0 (length (numbered w r));
  inv_title : forall r s x,
    screen_heap w !! r = Some s ->
    widgets s !! title_id (screenId s) = Some x ->
    exists wd, widget_heap w !! x = Some wd /\ widgetId wd = title_id (screenId s)
               /\ widget_class wd = TitleWidget /\ widget_screen wd = r;
  inv_owner : forall x wd,
    widget_heap w !! x = Some wd -> widget_screen wd < length (screen_heap w)
}.

(** A run over two screens, with [addTitle] called twice on the first. *)
Definition example_adds : list add :=
  [ AddScreen []; AddTo 0 FString; AddTo 0 FTitle;
    AddScreen [("priority", JString "info")]; AddTo 1 FIcon; AddTo 0 FTitle;
    AddTo 0 FHorizontalBar ].

Definition example_run : list ref * World :=
  Eval vm_compute in
    match do_adds example_adds (Client_new []) with
    | Some (Return xs w) => (xs, w)
    | _ => ([], Client_new [])
    end.

(** ** Chunks and lines *)

(** Every character of [s] is white space. *)
Fixpoint all_space (s : string) : bool :=
  match s with
  | EmptyString => true
  | String c r => is_space c && all_space r
  end.

(** [c] occurs in [s]. *)
Fixpoint has_char (c : ascii) (s : string) : bool :=
  match s with
  | EmptyString => false
  | String d r => Ascii.eqb d c || has_char c r
  end.

(** The lines [ls] with a line feed between each two. *)
Fixpoint join_lines (ls : list string) : string :=
  match ls with
  | [] => ""
  | [l] => l
  | l :: r => l +:+ LF +:+ join_lines r
  end.

(** The first and the last character of [l] are no white space. *)
Definition starts_plain (l : string) : bool :=
  match l with
  | String c _ => negb (is_space c)
  | EmptyString => false
  end.

Fixpoint ends_plain (l : string) : bool :=
  match l with
  | EmptyString => false
  | String c EmptyString => negb (is_space c)
  | String _ r => ends_plain r
  end.

(** A message as the server sends it, the line feed after it apart: no
    white space at either end, no line feed in it, and not beginning with
    [connect]. *)
Definition message_line (l : string) : bool :=
  starts_plain l && ends_plain l && negb (has_char "010" l)
  && negb (indexOf_is_0 "connect" l).

(** The position of the last occurrence of [key] in [l], the positions
    counted from [i] on. *)
Fixpoint last_index_from (key : string) (i : nat) (l : list string) : option nat :=
  match l with
  | [] => None
  | v :: r =>
      match last_index_from key (S i) r with
      | Some j => Some j
      | None => if String.eqb v key then Some i else None
      end
  end.

(** The token that follows the last occurrence of [key] in [params]
    ([undefined] when [key] is the last token), if [key] occurs. *)
Definition after_last (key : string) (params : list string) : option jsval :=
  (fun j => array_get params (j + 1)) <$> last_index_from key 0 params.

(** ** The text on the wire *)


(** The text of the tokens [p] on a line, each after a blank; [undefined]
    and [null] have no text. *)
Fixpoint tokens_text (p : list jsval) : string :=
  match p with
  | [] => ""
  | v :: r => " " +:+ join_item v +:+ tokens_text r
  end.

(** ** The store in every state *)

(** The registries hold live objects under their own ids: an entry of
    [client.screens] is a screen with that id, an entry of a screen's
    [widgets] is a widget of that screen with that id. *)
Record reg_inv (w : World) : Prop := {
  reg_screens : forall id r,
    screens (client w) !! id = Some r ->
    exists s, screen_heap w !! r = Some s /\ screenId s = id;
  reg_widgets : forall r s id x,
    screen_heap w !! r = Some s -> widgets s !! id = Some x ->
    exists wd, widget_heap w !! x = Some wd /\ widgetId wd = id /\ widget_screen wd = r
}.

(** What holds of the store in every state of a client named [name]. *)
Definition store_inv (name : string) (w : World) : Prop := ids_inv name w /\ reg_inv w.

(** A screen and a widget that kept what the ids rest on; the screen may
    have lost registry entries. *)
Definition screen_kept (s s' : Screen) : Prop :=
  screenId s' = screenId s /\ widgetCnt s' = widgetCnt s /\ widgets s' ⊆ widgets s.

Definition widget_kept (x x' : Widget) : Prop :=
  widget_class x' = widget_class x /\ widget_screen x' = widget_screen x
  /\ widgetId x' = widgetId x.

(** A step that constructed no object and registered none. *)
Record kept (w w' : World) : Prop := {
  kept_name : client_name w' = client_name w;
  kept_screenCnt : screenCnt (client w') = screenCnt (client w);
  kept_screens : screens (client w') ⊆ screens (client w);
  kept_screen_heap : Forall2 screen_kept (screen_heap w) (screen_heap w');
  kept_widget_heap : Forall2 widget_kept (widget_heap w) (widget_heap w')
}.

(** The world after [target] has emitted [event]. *)
Definition emitted (w : World) (target : emitter) (event : string) : World :=
  {| client := client w; screen_heap := screen_heap w; widget_heap := widget_heap w;
     trace := trace w ++ [Emit target event] |}.

(** One call or event other than [delete] on the screen at [r]. *)
Definition step_keeping (r : ref) (w w' : World) : Prop :=
  exists c o, c <> CallDeleteScreen r /\ do_call c w = Some o /\ w' = outcome_world o.

(** The screen [s] without the registry entry [id]. *)
Definition without_widget (id : string) (s : Screen) : Screen :=
  {| screenId := screenId s; screen_config := screen_config s;
     widgets := delete id (widgets s); widgetCnt := widgetCnt s |}.


(** The screen at [r] and the widget at [x] in a world that has them. *)
Definition the_screen (w : World) (r : ref) : Screen :=
  default {| screenId := ""; screen_config := []; widgets := ∅; widgetCnt := 0 |}
          (screen_heap w !! r).

Definition the_widget (w : World) (x : ref) : Widget :=
  default {| widget_class := GenericWidget; widget_screen := 0; widgetId := "";
             widgetType := JUndefined; params := None |}
          (widget_heap w !! x).

(** ** Exceptions *)

(** The exceptions of [m] are all in [E]. *)
Definition only_throws {A} (E : exn -> Prop) (m : M A) : Prop :=
  forall w e w', m w = Some (Throw e w') -> E e.

(** ** Numbers *)

(** A number that is a zero, of either sign; a number that is neither an
    infinity nor NaN. *)
Definition is_zero_number (x : float) : bool :=
  match Prim2SF x with
  | S754_zero _ => true
  | _ => false
  end.

Definition is_finite_number (x : float) : bool :=
  match Prim2SF x with
  | S754_zero _ | S754_finite _ _ _ => true
  | _ => false
  end.

(** ** More worlds to run examples in *)

(** A run in which a screen is added and deleted, and the same with one
    more screen added. *)
Definition add_delete : World :=
  Eval vm_compute in
    match (do_call (CallAddScreen []);; do_call (CallDeleteScreen 0)) (Client_new []) with
    | Some o => outcome_world o
    | None => Client_new []
    end.

Definition add_delete_add : World :=
  Eval vm_compute in
    match do_call (CallAddScreen []) add_delete with
    | Some o => outcome_world o
    | None => Client_new []
    end.

(** ... and then the first screen is deleted once more and a chunk arrives. *)
Definition add_delete_add_later : World :=
  Eval vm_compute in
    match (do_call (CallDeleteScreen 0);; do_call (EventData "success")) add_delete_add with
    | Some o => outcome_world o
    | None => Client_new []
    end.

(** A screen with a title widget that is set, a string widget and a big
    number. *)
Definition titled_world : World :=
  Eval vm_compute in
    match (s ← Client_addScreen [];
           t ← Screen_addTitle s;
           Screen_addString s;;
           Screen_addBigNumber s;;
           TitleWidget_setTitle t (JString "Clock")) (Client_new []) with
    | Some o => outcome_world o
    | None => Client_new []
    end.

(** A new client on which only a screen with a horizontal and a vertical
    bar has been made: the handshake has not taken place. *)
Definition early_bars : World :=
  Eval vm_compute in
    match (s ← Client_addScreen [];
           Screen_addHorizontalBar s;;
           Screen_addVerticalBar s) (Client_new []) with
    | Some o => outcome_world o
    | None => Client_new []
    end.

(** ** All that the client does to the outside *)

(** The event [e] is [shown] or [hidden], emitted by a screen of the registry
    of [w]. *)
Definition notification (w : World) (e : effect) : Prop :=
  exists id r, screens (client w) !! id = Some r
               /\ (e = Emit (OnScreen r) "shown" \/ e = Emit (OnScreen r) "hidden").

(** The commands of the protocol the client sends. *)
Definition commands : list string :=
  [ "hello"; "client_set"; "screen_add"; "screen_set"; "screen_del";
    "widget_add"; "widget_set"; "widget_del" ].

(** [s] ends with a line feed. *)
Fixpoint ends_with_LF (s : string) : bool :=
  match s with
  | EmptyString => false
  | String c EmptyString => Ascii.eqb c "010"
  | String _ r => ends_with_LF r
  end.

(** A line of one of the commands: the command word, then a blank and the
    rest or nothing more, and a line feed at the end. *)
Definition command_line (s : string) : bool :=
  existsb (fun cmd => starts_with (cmd +:+ " ") s || String.eqb s (cmd +:+ LF)) commands
  && ends_with_LF s.

(** What the client is expected to do to the outside: to open, end and
    destroy the socket, to write command lines, to emit [ready] and to make
    screens emit [shown] and [hidden]. *)
Definition expected (e : effect) : bool :=
  match e with
  | SocketConnect _ _ | SocketEnd | SocketDestroy => true
  | SocketWrite data => command_line data
  | Emit OnClient event => String.eqb event "ready"
  | Emit (OnScreen _) event => String.eqb event "shown" || String.eqb event "hidden"
  end.

(** The tokens of an argument of [_write]. *)
Definition arg_tokens (a : arg) : list jsval :=
  match a with
  | Scalar v => [v]
  | Array l => l
  end.

(** * Properties *)

(** ** Sending parameters *)

Section SetParams.
Variables (w : World) (this : ref) (x : Widget) (s : Screen).
Hypothesis Hx : widget_heap w !! this = Some x.
Hypothesis Hs : screen_heap w !! widget_screen x = Some s.

Lemma get_widget_run : get_widget this w = Some (Return x w).
Proof. unfold get_widget. now rewrite Hx. Qed.

(** [setParams] with any arguments but a single number *)
Lemma Widget_setParams_run (p : list jsval) :
  Array_apply p = ret p ->
  Widget_setParams this p w = Some (Return tt (sent w this x s p)).
Proof.
  intros Hp. unfold Widget_setParams. rewrite Hp.
  unfold mbind, M_bind, bind, ret, modify_widget, mbind, M_bind, bind,
    get_widget, get_screen, update, Client_write, perform. cbn.
  rewrite Hx. cbn.
  rewrite (list_lookup_insert_eq _ _ _ (lookup_lt_Some _ _ _ Hx)).
  cbn. rewrite Hs. reflexivity.
Qed.

Lemma Widget_setParams_3 (a b c : jsval) :
  Widget_setParams this [a; b; c] w = Some (Return tt (sent w this x s [a; b; c])).
Proof. apply Widget_setParams_run. reflexivity. Qed.
End SetParams.

(** ** The handshake *)

Lemma with_lcdprocConfig_id w : with_lcdprocConfig (lcdprocConfig (client w)) w = w.
Proof. destruct w as [[] ? ? ?]. reflexivity. Qed.

Lemma connect_param_run params value i w :
  connect_param params value i w =
    Some (Return tt (with_lcdprocConfig
                       (connect_switch params value i (lcdprocConfig (client w))) w)).
Proof.
  unfold connect_param, connect_switch.
  repeat (case (String.eqb value _); [reflexivity|]).
  unfold ret. now rewrite with_lcdprocConfig_id.
Qed.

Lemma forEach_connect_run params l : forall i w,
  forEach_from i (connect_param params) l w =
    Some (Return tt (with_lcdprocConfig
                       (connect_fold params i l (lcdprocConfig (client w))) w)).
Proof.
  induction l as [|value r IH]; intros i w; cbn [forEach_from connect_fold].
  - unfold ret. now rewrite with_lcdprocConfig_id.
  - unfold mbind, M_bind, bind. rewrite connect_param_run, IH. reflexivity.
Qed.

(** The [connect] branch of the data handler. *)
Lemma socket_on_data_connect buf w :
  indexOf_is_0 "connect" (trim buf) = true ->
  socket_on_data buf w =
    Some (Return tt
      {| client :=
           {| client_config := client_config (client w);
              lcdprocConfig :=
                connect_fold (split_on " " (trim buf)) 0 (split_on " " (trim buf))
                             (lcdprocConfig (client w));
              screens := screens (client w);
              screenCnt := screenCnt (client w) |};
         screen_heap := screen_heap w;
         widget_heap := widget_heap w;
         trace := trace w ++
                  [wire [JString "client_set"; JString "-name";
                         quoteString (obj_get (client_config (client w)) "name")];
                   Emit OnClient "ready"] |}).
Proof.
  intros H. unfold socket_on_data. rewrite H.
  unfold forEach, mbind, M_bind, bind. rewrite forEach_connect_run.
  unfold get_client, Client_write, perform, update, with_lcdprocConfig, wire.
  cbn -[join quoteString]. now rewrite <- app_assoc.
Qed.

(** C1. Whatever the state of the client, the data handler run on the line
    [connect LCDproc 0.5.7 protocol 0.3 wid 20 hgt 4 cellwid 5 cellhgt 8]
    returns normally and leaves the capabilities at exactly version "0.5.7",
    protocol version "0.3", size 20 by 4 and cell size 5 by 8; it touches
    nothing else of the store, and it appends to the trace exactly the line
    [client_set -name {<name>}] followed by one [ready] event, so that the
    command is on the wire when the handler returns, before any later chunk
    is looked at.  A new client has all capabilities at zero, and with the
    default name its whole trace after the line is that command and that
    one event. *)
Theorem connect_line_handshake (w : World) :
  let line := "connect LCDproc 0.5.7 protocol 0.3 wid 20 hgt 4 cellwid 5 cellhgt 8" in
  let w' :=
    {| client :=
         {| client_config := client_config (client w);
            lcdprocConfig :=
              {| version := JString "0.5.7"; protocol := JString "0.3";
                 size := {| width := 20; height := 4 |};
                 cellsize := {| width := 5; height := 8 |} |};
            screens := screens (client w);
            screenCnt := screenCnt (client w) |};
       screen_heap := screen_heap w;
       widget_heap := widget_heap w;
       trace := trace w ++
                [wire [JString "client_set"; JString "-name";
                       quoteString (obj_get (client_config (client w)) "name")];
                 Emit OnClient "ready"] |} in
  socket_on_data line w = Some (Return tt w')
  /\ ready_count (trace w') = S (ready_count (trace w))
  /\ lcdprocConfig (client (Client_new [])) =
       {| version := JNumber 0; protocol := JNumber 0;
          size := {| width := 0; height := 0 |};
          cellsize := {| width := 0; height := 0 |} |}
  /\ socket_on_data line (Client_new []) =
       Some (Return tt
         {| client :=
              {| client_config := default_config;
                 lcdprocConfig :=
                   {| version := JString "0.5.7"; protocol := JString "0.3";
                      size := {| width := 20; height := 4 |};
                      cellsize := {| width := 5; height := 8 |} |};
                 screens := ∅;
                 screenCnt := 0 |};
            screen_heap := [];
            widget_heap := [];
            trace := [SocketWrite ("client_set -name {lcdprocjs}" +:+ LF);
                      Emit OnClient "ready"] |}).
Proof.
  intros line w'. split; [|split; [|split]].
  - rewrite socket_on_data_connect by reflexivity.
    assert (E : forall c, connect_fold (split_on " " (trim line)) 0
                            (split_on " " (trim line)) c =
                          {| version := JString "0.5.7"; protocol := JString "0.3";
                             size := {| width := 20; height := 4 |};
                             cellsize := {| width := 5; height := 8 |} |})
      by (intros c; vm_compute; reflexivity).
    now rewrite E.
  - subst w'. cbn [trace]. unfold ready_count.
    rewrite List.filter_app, length_app. cbn. lia.
  - reflexivity.
  - vm_compute. reflexivity.
Qed.

(** ** Widget parameters *)

Section PartialUpdates.
Variables (w : World) (this : ref) (x : Widget) (s : Screen).
Hypothesis Hx : widget_heap w !! this = Some x.
Hypothesis Hs : screen_heap w !! widget_screen x = Some s.

Lemma HorizontalBarWidget_set_run (a b percent : jsval) :
  HorizontalBarWidget_set this a b percent w =
    Some (Return tt (sent w this x s
      [a; b; JNumber (Math_round ((width (size (lcdprocConfig (client w))) - ToNumber a + 1)
                                  * width (cellsize (lcdprocConfig (client w)))
                                  * ToNumber percent))])).
Proof. unfold HorizontalBarWidget_set. apply (Widget_setParams_3 w this x s Hx Hs). Qed.

Lemma VerticalBarWidget_set_run (a b percent : jsval) :
  VerticalBarWidget_set this a b percent w =
    Some (Return tt (sent w this x s
      [a; b; JNumber (Math_round (ToNumber b * height (cellsize (lcdprocConfig (client w)))
                                  * ToNumber percent))])).
Proof. unfold VerticalBarWidget_set. apply (Widget_setParams_3 w this x s Hx Hs). Qed.

Lemma StringWidget_set_run (a b text : jsval) :
  StringWidget_set this a b text w =
    Some (Return tt (sent w this x s [a; b; quoteString text])).
Proof. apply (Widget_setParams_3 w this x s Hx Hs). Qed.

Lemma IconWidget_set_run (a b iconname : jsval) :
  IconWidget_set this a b iconname w = Some (Return tt (sent w this x s [a; b; iconname])).
Proof. apply (Widget_setParams_3 w this x s Hx Hs). Qed.

(** The four partial updates, by whether parameters are cached. *)
Lemma StringWidget_setPos_run (a b : jsval) :
  StringWidget_setPos this a b w =
    Some (Return tt (sent w this x s
      [a; b; match params x with Some p => params_get p 2 | None => JNumber 0 end])).
Proof.
  unfold StringWidget_setPos, mbind, M_bind, bind.
  rewrite (get_widget_run w this x Hx).
  destruct (params x); apply (Widget_setParams_3 w this x s Hx Hs).
Qed.

Lemma StringWidget_setText_run (text : jsval) :
  StringWidget_setText this text w =
  StringWidget_set this (cached_x x) (cached_y x) text w.
Proof.
  unfold StringWidget_setText, cached_x, cached_y, mbind, M_bind, bind.
  rewrite (get_widget_run w this x Hx). now destruct (params x).
Qed.

Lemma setValue_run set (percent : jsval) :
  setValue set this percent w = set this (cached_x x) (cached_y x) percent w.
Proof.
  unfold setValue, cached_x, cached_y, mbind, M_bind, bind.
  rewrite (get_widget_run w this x Hx). now destruct (params x).
Qed.

Lemma IconWidget_setIcon_run (iconname : jsval) :
  IconWidget_setIcon this iconname w =
  IconWidget_set this (cached_x x) (cached_y x) iconname w.
Proof.
  unfold IconWidget_setIcon, cached_x, cached_y, mbind, M_bind, bind.
  rewrite (get_widget_run w this x Hx). now destruct (params x).
Qed.
End PartialUpdates.



(** C5. A [StringWidget] without cached parameters: [setPos(x,y)] caches and
    sends [x, y, 0] ([setPos(3,4)] sends [3,4,0]) and [setText(text)] sends
    [1, 1, {text}] ([setText("hi")] sends [1,1,{hi}]).  After
    [set(x0,y0,text0)], [setPos(x,y)] sends the last text as third
    parameter, [x, y, {text0}], and [setText(text)] sends the last position,
    [x0, y0, {text}]. *)
Theorem string_widget_partial_updates (w : World) (this : ref) (str : Widget) (s : Screen)
    (x y text x0 y0 text0 : jsval) :
  widget_heap w !! this = Some str ->
  screen_heap w !! widget_screen str = Some s ->
  (params str = None ->
     StringWidget_setPos this x y w =
       Some (Return tt (sent w this str s [x; y; JNumber 0]))
     /\ StringWidget_setPos this (JNumber 3) (JNumber 4) w =
       Some (Return tt (sent w this str s [JNumber 3; JNumber 4; JNumber 0]))
     /\ StringWidget_setText this text w =
       Some (Return tt (sent w this str s [JNumber 1; JNumber 1; quoteString text]))
     /\ StringWidget_setText this (JString "hi") w =
       Some (Return tt (sent w this str s [JNumber 1; JNumber 1; JString "{hi}"])))
  /\ (let w1 := sent w this str s [x0; y0; quoteString text0] in
      StringWidget_set this x0 y0 text0 w = Some (Return tt w1)
      /\ StringWidget_setPos this x y w1 =
           Some (Return tt (sent w1 this str s [x; y; quoteString text0]))
      /\ StringWidget_setText this text w1 =
           Some (Return tt (sent w1 this str s [x0; y0; quoteString text]))).
Proof.
  intros Hx Hs. split.
  - intros Hp.
    rewrite !(StringWidget_setPos_run w this str s Hx Hs),
            !(StringWidget_setText_run w this str Hx),
            !(StringWidget_set_run w this str s Hx Hs).
    unfold cached_x, cached_y. rewrite Hp. repeat split.
  - intros w1.
    assert (Hx1 : widget_heap w1 !! this =
                  Some (set_params [x0; y0; quoteString text0] str)).
    { apply list_lookup_insert_eq. eapply lookup_lt_Some, Hx. }
    assert (Hs1 : screen_heap w1 !! widget_screen
                    (set_params [x0; y0; quoteString text0] str) = Some s) by exact Hs.
    split; [|split].
    + apply StringWidget_set_run; assumption.
    + rewrite (StringWidget_setPos_run w1 this _ s Hx1 Hs1). reflexivity.
    + rewrite (StringWidget_setText_run w1 this _ Hx1),
              (StringWidget_set_run w1 this _ s Hx1 Hs1). reflexivity.
Qed.

Lemma string_widget_partial_updates_witness :
  StringWidget_setPos 0 (JNumber 3) (JNumber 4) demo_world =
    Some (Return tt (sent demo_world 0 (demo_widget StringWidget "0" "string") demo_screen
                       [JNumber 3; JNumber 4; JNumber 0]))
  /\ StringWidget_setText 0 (JString "hi") demo_world =
    Some (Return tt (sent demo_world 0 (demo_widget StringWidget "0" "string") demo_screen
                       [JNumber 1; JNumber 1; JString "{hi}"])).
Proof.
  split;
    apply (string_widget_partial_updates demo_world 0
             (demo_widget StringWidget "0" "string") demo_screen
             (JNumber 3) (JNumber 4) (JString "hi") (JNumber 1) (JNumber 1) (JString ""));
    reflexivity.
Defined.

(** C4, as the code has it.  With parameters [p] cached in the widget:
    [setPos(x,y)], one function for string widgets and both bars, sends
    [x, y, p[2]], the cached third parameter as it is, which for a bar is
    the length sent last and is not computed anew for the new position;
    [setText(text)] sends [p[0], p[1], {text}]; [setValue(percent)] is
    [set(p[0], p[1], percent)] of the bar's own class, so its length is the
    one the full-set formula gives for the cached position and the new
    value; [setIcon(iconname)] sends [p[0], p[1], iconname]. *)
Theorem partial_updates_reuse_cached (w : World) (this : ref) (x : Widget) (s : Screen)
    (p : list jsval) (a b text percent iconname : jsval) :
  widget_heap w !! this = Some x ->
  screen_heap w !! widget_screen x = Some s ->
  params x = Some p ->
  let cfg := lcdprocConfig (client w) in
  let x0 := params_get p 0 in
  let y0 := params_get p 1 in
  StringWidget_setPos this a b w =
    Some (Return tt (sent w this x s [a; b; params_get p 2]))
  /\ HorizontalBarWidget_setPos = StringWidget_setPos
  /\ VerticalBarWidget_setPos = StringWidget_setPos
  /\ StringWidget_setText this text w =
       Some (Return tt (sent w this x s [x0; y0; quoteString text]))
  /\ HorizontalBarWidget_setValue this percent w =
       HorizontalBarWidget_set this x0 y0 percent w
  /\ HorizontalBarWidget_setValue this percent w =
       Some (Return tt (sent w this x s
         [x0; y0; JNumber (Math_round ((width (size cfg) - ToNumber x0 + 1)
                                       * width (cellsize cfg) * ToNumber percent))]))
  /\ VerticalBarWidget_setValue this percent w =
       VerticalBarWidget_set this x0 y0 percent w
  /\ VerticalBarWidget_setValue this percent w =
       Some (Return tt (sent w this x s
         [x0; y0; JNumber (Math_round (ToNumber y0 * height (cellsize cfg)
                                       * ToNumber percent))]))
  /\ IconWidget_setIcon this iconname w =
       Some (Return tt (sent w this x s [x0; y0; iconname])).
Proof.
  intros Hx Hs Hp cfg x0 y0.
  assert (Ex : cached_x x = x0) by (unfold cached_x; now rewrite Hp).
  assert (Ey : cached_y x = y0) by (unfold cached_y; now rewrite Hp).
  unfold HorizontalBarWidget_setValue, VerticalBarWidget_setValue.
  rewrite (StringWidget_setPos_run w this x s Hx Hs), Hp,
          (StringWidget_setText_run w this x Hx),
          !(setValue_run w this x Hx), (IconWidget_setIcon_run w this x Hx), Ex, Ey,
          (StringWidget_set_run w this x s Hx Hs),
          !(HorizontalBarWidget_set_run w this x s Hx Hs),
          !(VerticalBarWidget_set_run w this x s Hx Hs),
          (IconWidget_set_run w this x s Hx Hs).
  repeat split.
Qed.

Lemma partial_updates_reuse_cached_witness :
  let w1 := sent demo_world 1 (demo_widget HorizontalBarWidget "1" "hbar") demo_screen
              [JNumber 1; JNumber 1; JNumber 100] in
  StringWidget_setPos 1 (JNumber 11) (JNumber 1) w1 =
    Some (Return tt (sent w1 1 (demo_widget HorizontalBarWidget "1" "hbar") demo_screen
                       [JNumber 11; JNumber 1; JNumber 100])).
Proof.
  apply (partial_updates_reuse_cached
           (sent demo_world 1 (demo_widget HorizontalBarWidget "1" "hbar") demo_screen
              [JNumber 1; JNumber 1; JNumber 100])
           1 (set_params [JNumber 1; JNumber 1; JNumber 100]
                (demo_widget HorizontalBarWidget "1" "hbar"))
           demo_screen [JNumber 1; JNumber 1; JNumber 100]
           (JNumber 11) (JNumber 1) (JString "") (JNumber 1) (JString ""));
    reflexivity.
Defined.

(** C4 as stated fails for [setPos] on a bar.  On the 20 by 4 display with
    cells 5 wide, [set(1,1,1)] of the horizontal bar sends the length 100;
    [setPos(11,1)] then sends [11, 1, 100], while the full-set formula for
    the resulting position and the same value, [set(11,1,1)], gives 50. *)
Lemma bar_setPos_keeps_length :
  params_after (HorizontalBarWidget_set 1 (JNumber 1) (JNumber 1) (JNumber 1);;
                HorizontalBarWidget_setPos 1 (JNumber 11) (JNumber 1)) demo_world 1
    = Some [JNumber 11; JNumber 1; JNumber 100]
  /\ params_after (HorizontalBarWidget_set 1 (JNumber 11) (JNumber 1) (JNumber 1)) demo_world 1
    = Some [JNumber 11; JNumber 1; JNumber 50]
  /\ JNumber 100 <> JNumber 50.
Proof. repeat split; try (vm_compute; reflexivity). discriminate. Qed.

(** ** Objects and the serializer *)

Section Objects.
Implicit Types (o : obj) (p : string * jsval) (k : string) (v : jsval).

Lemma insert_index_perm i p l : insert_index i p l ≡ₚ (i, p) :: l.
Proof.
  induction l as [|[j q] l IH]; cbn; [reflexivity|].
  destruct (i <? j)%N; [reflexivity|]. rewrite IH. apply Permutation_swap.
Qed.

Lemma insert_index_sorted i p l :
  StronglySorted N.le (map fst l) ->
  StronglySorted N.le (map fst (insert_index i p l)).
Proof.
  induction l as [|[j q] l IH]; cbn; intros Hl.
  - repeat constructor.
  - apply StronglySorted_inv in Hl as [Hl Hj]. cbn in Hj.
    destruct (i <? j)%N eqn:E; cbn.
    + apply N.ltb_lt in E. constructor.
      * constructor; assumption.
      * constructor; [lia|]. eapply Forall_impl; [exact Hj|]. intros; cbn in *; lia.
    + apply N.ltb_ge in E. constructor; [auto|].
      rewrite (insert_index_perm i p l). cbn. constructor; assumption.
Qed.

Lemma insert_index_labelled i p l :
  array_index (fst p) = Some i ->
  Forall (fun e => array_index (fst (snd e)) = Some (fst e)) l ->
  Forall (fun e => array_index (fst (snd e)) = Some (fst e)) (insert_index i p l).
Proof.
  intros Hp Hl. rewrite (insert_index_perm i p l). now constructor.
Qed.

Lemma indexed_fold o : forall acc,
  StronglySorted N.le (map fst acc) ->
  Forall (fun e => array_index (fst (snd e)) = Some (fst e)) acc ->
  let r := fold_left index_step o acc in
  StronglySorted N.le (map fst r)
  /\ Forall (fun e => array_index (fst (snd e)) = Some (fst e)) r
  /\ map snd r ≡ₚ map snd acc ++ List.filter is_index o.
Proof.
  induction o as [|p o IH]; intros acc Hs Hl; cbn.
  - now rewrite app_nil_r.
  - unfold is_index, index_step at 2 4 6. destruct (array_index (fst p)) as [i|] eqn:E.
    + destruct (IH (insert_index i p acc)) as (H1 & H2 & H3);
        [now apply insert_index_sorted | now apply insert_index_labelled |].
      repeat split; try assumption. cbn in H3. rewrite H3.
      rewrite (insert_index_perm i p acc). cbn.
      now rewrite Permutation_middle.
    + now apply IH.
Qed.

(** Enumeration order: the array-index keys in ascending order, then the
    others as created. *)
Lemma own_entries_order o :
  own_entries o = map snd (indexed_entries o) ++ List.filter (fun p => negb (is_index p)) o
  /\ StronglySorted N.le (map fst (indexed_entries o))
  /\ Forall (fun e => array_index (fst (snd e)) = Some (fst e)) (indexed_entries o)
  /\ map snd (indexed_entries o) ≡ₚ List.filter is_index o.
Proof.
  split.
  - unfold own_entries, named_entries. f_equal. apply List.filter_ext.
    intros p. unfold is_index. now destruct (array_index (fst p)).
  - destruct (indexed_fold o [] ltac:(constructor) ltac:(constructor)) as (H1 & H2 & H3).
    split; [exact H1|split; [exact H2|exact H3]].
Qed.

Lemma filter_partition_perm (f : string * jsval -> bool) o :
  List.filter f o ++ List.filter (fun p => negb (f p)) o ≡ₚ o.
Proof.
  induction o as [|p o IH]; cbn; [reflexivity|].
  destruct (f p); cbn.
  - now rewrite IH.
  - now rewrite <- Permutation_middle, IH.
Qed.

Lemma own_entries_perm o : own_entries o ≡ₚ o.
Proof.
  destruct (own_entries_order o) as (-> & _ & _ & ->). apply filter_partition_perm.
Qed.

(** Without array-index keys, enumeration order is creation order. *)
Lemma own_entries_named o :
  (forall p, p ∈ o -> array_index (fst p) = None) -> own_entries o = o.
Proof.
  intros H. unfold own_entries, indexed_entries, named_entries.
  assert (E : forall acc, fold_left index_step o acc = acc).
  { induction o as [|p o IH]; intros acc; cbn; [reflexivity|].
    unfold index_step at 2. rewrite (H p) by constructor.
    apply IH. intros q Hq. apply H. now constructor. }
  rewrite (E []). cbn. clear E.
  induction o as [|p o IH]; cbn; [reflexivity|].
  rewrite (H p) by constructor. f_equal. apply IH.
  intros q Hq. apply H. now constructor.
Qed.

Lemma flattenObj_flat_map o d : flattenObj o d = flat_map (pair_tokens d) (own_entries o).
Proof.
  unfold flattenObj.
  assert (E : forall l acc,
             fold_left (fun out p =>
                          (out ++ [JString ((if d then "" else "-") +:+ fst p)]) ++ [snd p])
                       l acc = acc ++ flat_map (pair_tokens d) l).
  { induction l as [|p l IH]; intros acc; cbn.
    - now rewrite app_nil_r.
    - rewrite IH. now rewrite <- !app_assoc. }
  apply (E _ []).
Qed.

(** Reading after writing. *)
Lemma obj_get_set_eq o k v : obj_get (obj_set o k v) k = v.
Proof.
  induction o as [|[k' v'] o IH]; cbn.
  - now rewrite String.eqb_refl.
  - destruct (String.eqb k' k) eqn:E; cbn; now rewrite E.
Qed.

Lemma obj_get_set_ne o k k' v : k <> k' -> obj_get (obj_set o k v) k' = obj_get o k'.
Proof.
  intros Hne. induction o as [|[k0 v0] o IH]; cbn.
  - apply String.eqb_neq in Hne. now rewrite Hne.
  - destruct (String.eqb k0 k) eqn:E; cbn.
    + apply String.eqb_eq in E. subst k0.
      apply String.eqb_neq in Hne. now rewrite Hne.
    + now rewrite IH.
Qed.

Lemma obj_get_fold_other (l : obj) k : forall d,
  k ∉ map fst l ->
  obj_get (fold_left (fun d p => obj_set d (fst p) (snd p)) l d) k = obj_get d k.
Proof.
  induction l as [|[k' v'] l IH]; intros d Hk; cbn; [reflexivity|].
  cbn in Hk. apply not_elem_of_cons in Hk as [Hne Hk].
  rewrite IH by assumption. apply obj_get_set_ne. congruence.
Qed.

Lemma obj_get_fold_in (l : obj) k v : forall d,
  NoDup (map fst l) -> (k, v) ∈ l ->
  obj_get (fold_left (fun d p => obj_set d (fst p) (snd p)) l d) k = v.
Proof.
  induction l as [|[k' v'] l IH]; intros d Hnd Hin; cbn.
  - inversion Hin.
  - cbn in Hnd. apply NoDup_cons in Hnd as [Hk' Hnd].
    apply elem_of_cons in Hin as [E|Hin].
    + injection E as <- <-. rewrite obj_get_fold_other by assumption.
      apply obj_get_set_eq.
    + now apply IH.
Qed.

(** [_.assign]: the last write wins, key by key. *)
Lemma assign_get dst src :
  NoDup (map fst src) ->
  (forall k v, (k, v) ∈ src -> obj_get (assign dst src) k = v)
  /\ (forall k, k ∉ map fst src -> obj_get (assign dst src) k = obj_get dst k).
Proof.
  intros Hnd. unfold assign. split.
  - intros k v Hin. apply obj_get_fold_in.
    + now rewrite (own_entries_perm src).
    + now rewrite (own_entries_perm src).
  - intros k Hk. apply obj_get_fold_other. now rewrite (own_entries_perm src).
Qed.
End Objects.

(** C9, as the code has it.  [flattenObj({a:1,b:2})] is [["-a",1,"-b",2]]
    and [quoteString("hi there")] is ["{hi there}"].  For every object,
    [flattenObj] yields [prefix+key, value] for each own property, with the
    prefix "-" unless [donotdashkeys] is set, in the object's enumeration
    order: the keys that are array indices first, in ascending numeric
    order, then the other keys in creation order; so the order is the
    creation order exactly when that is the enumeration order, as for every
    object without array-index keys.  For every string [s],
    [quoteString(s)] is ["{" + s + "}"], whatever characters [s] holds.
    Both are functions of their arguments alone: they neither read nor
    change the store. *)
Theorem flatten_and_quote (o : obj) (donotdashkeys : bool) (s : string) :
  let prefix := if donotdashkeys then "" else "-" in
  let tokens p := [JString (prefix +:+ fst p); snd p] in
  flattenObj [("a", JNumber 1); ("b", JNumber 2)] false =
    [JString "-a"; JNumber 1; JString "-b"; JNumber 2]
  /\ quoteString (JString "hi there") = JString "{hi there}"
  /\ flattenObj o donotdashkeys = flat_map tokens (own_entries o)
  /\ own_entries o =
       map snd (indexed_entries o) ++ List.filter (fun p => negb (is_index p)) o
  /\ StronglySorted N.le (map fst (indexed_entries o))
  /\ Forall (fun e => array_index (fst (snd e)) = Some (fst e)) (indexed_entries o)
  /\ map snd (indexed_entries o) ≡ₚ List.filter is_index o
  /\ ((forall p, p ∈ o -> array_index (fst p) = None) ->
      flattenObj o donotdashkeys = flat_map tokens o)
  /\ quoteString (JString s) = JString ("{" +:+ s +:+ "}")
  /\ quoteString (JString ("a{b}" +:+ LF +:+ "c")) = JString ("{a{b}" +:+ LF +:+ "c}").
Proof.
  intros prefix tokens.
  destruct (own_entries_order o) as (H1 & H2 & H3 & H4).
  repeat split; try assumption; try reflexivity.
  - apply flattenObj_flat_map.
  - intros H. rewrite flattenObj_flat_map, own_entries_named by assumption. reflexivity.
Qed.

(** C9 as stated fails on the order: the object [{b:1, 0:2}], whose keys
    were created in the order [b], [0], is flattened to [["-0",2,"-b",1]]
    and not to [["-b",1,"-0",2]]. *)
Lemma flatten_index_keys_first :
  flattenObj [("b", JNumber 1); ("0", JNumber 2)] false =
    [JString "-0"; JNumber 2; JString "-b"; JNumber 1]
  /\ flattenObj [("b", JNumber 1); ("0", JNumber 2)] false <>
    [JString "-b"; JNumber 1; JString "-0"; JNumber 2].
Proof. split; [reflexivity|discriminate]. Qed.

(** ** Screens *)

Lemma Screen_setConfig_run w this s config :
  screen_heap w !! this = Some s ->
  config <> [] ->
  Screen_setConfig this config w =
    Some (Return tt
      {| client := client w;
         screen_heap := <[this := with_config (assign (screen_config s) config) s]>
                          (screen_heap w);
         widget_heap := widget_heap w;
         trace := trace w ++ [wire ([JString "screen_set"; JString (screenId s)]
                                    ++ flattenObj config false)] |}).
Proof.
  intros Hs Hne. unfold Screen_setConfig.
  destruct config as [|p c]; [congruence|]. cbn [isEmpty].
  unfold modify_screen, mbind, M_bind, bind, get_screen, update, Client_write, perform.
  rewrite Hs. cbn -[join flattenObj assign].
  rewrite (list_lookup_insert_eq _ _ _ (lookup_lt_Some _ _ _ Hs)). reflexivity.
Qed.

(** C7, as the code has it.  [setConfig] with an empty configuration
    returns at once: nothing is written and nothing is stored.  With a
    non-empty configuration (its keys distinct, as an object's are) it
    stores the merge, in which every supplied key has the supplied value and
    every other key keeps its value, and it writes exactly one line:
    [screen_set <id>] followed by the dash-prefixed key and the value of each
    supplied property only, in the enumeration order of the supplied object,
    which is the order the caller created the keys in unless some of them
    are array indices (those come first, ascending). *)
Theorem setConfig_merges_and_sends (w : World) (this : ref) (s : Screen) (config : obj) :
  screen_heap w !! this = Some s ->
  NoDup (map fst config) ->
  Screen_setConfig this [] w = Some (Return tt w)
  /\ (config <> [] ->
      let merged := assign (screen_config s) config in
      Screen_setConfig this config w =
        Some (Return tt
          {| client := client w;
             screen_heap := <[this := with_config merged s]> (screen_heap w);
             widget_heap := widget_heap w;
             trace := trace w ++
                      [wire ([JString "screen_set"; JString (screenId s)] ++
                             flat_map (fun p => [JString ("-" +:+ fst p); snd p])
                                      (own_entries config))] |})
      /\ (forall k v, (k, v) ∈ config -> obj_get merged k = v)
      /\ (forall k, k ∉ map fst config -> obj_get merged k = obj_get (screen_config s) k)
      /\ ((forall p, p ∈ config -> array_index (fst p) = None) ->
          own_entries config = config)).
Proof.
  intros Hs Hnd. split; [reflexivity|]. intros Hne merged.
  destruct (assign_get (screen_config s) config Hnd) as [Hin Hout].
  split; [|split; [exact Hin|split; [exact Hout|apply own_entries_named]]].
  rewrite (Screen_setConfig_run w this s config Hs Hne), flattenObj_flat_map.
  reflexivity.
Qed.

Lemma setConfig_merges_and_sends_witness :
  Screen_setConfig 0 [("priority", JString "info"); ("heartbeat", JString "off")] demo_world =
    Some (Return tt
      {| client := client demo_world;
         screen_heap := [with_config [("priority", JString "info");
                                      ("heartbeat", JString "off")] demo_screen];
         widget_heap := widget_heap demo_world;
         trace := trace demo_world ++
                  [SocketWrite ("screen_set lcdprocjs_s0 -priority info -heartbeat off"
                                +:+ LF)] |}).
Proof.
  apply (setConfig_merges_and_sends demo_world 0 demo_screen
           [("priority", JString "info"); ("heartbeat", JString "off")]).
  - reflexivity.
  - apply (bool_decide_unpack _). vm_compute. reflexivity.
  - discriminate.
Defined.

(** C7 as stated fails on the order of the pairs: for the configuration
    [{b:1, 0:2}] the line written is [screen_set lcdprocjs_s0 -0 2 -b 1],
    not [screen_set lcdprocjs_s0 -b 1 -0 2]. *)
Lemma setConfig_index_keys_first :
  (match Screen_setConfig 0 [("b", JNumber 1); ("0", JNumber 2)] demo_world with
   | Some o => last (trace (outcome_world o))
   | None => None
   end) = Some (SocketWrite ("screen_set lcdprocjs_s0 -0 2 -b 1" +:+ LF))
  /\ SocketWrite ("screen_set lcdprocjs_s0 -0 2 -b 1" +:+ LF) <>
     SocketWrite ("screen_set lcdprocjs_s0 -b 1 -0 2" +:+ LF).
Proof. split; [vm_compute; reflexivity|discriminate]. Qed.

(** ** Chunks *)

Lemma screen_events_only_refl w : screen_events_only w w.
Proof. repeat split. exists []. now rewrite app_nil_r. Qed.

Lemma screen_events_only_trans w1 w2 w3 :
  screen_events_only w1 w2 -> screen_events_only w2 w3 -> screen_events_only w1 w3.
Proof.
  intros (A1 & A2 & A3 & e1 & A4 & A5) (B1 & B2 & B3 & e2 & B4 & B5).
  repeat split; try congruence.
  exists (e1 ++ e2). split; [now rewrite B4, A4, app_assoc|now apply Forall_app].
Qed.

Lemma screen_events_only_emit w r ev :
  screen_events_only w {| client := client w; screen_heap := screen_heap w;
                          widget_heap := widget_heap w;
                          trace := trace w ++ [Emit (OnScreen r) ev] |}.
Proof.
  repeat split. eexists. split; [reflexivity|]. repeat constructor. now exists r, ev.
Qed.

Lemma screen_events_only_ready w w' :
  screen_events_only w w' -> ready_count (trace w') = ready_count (trace w).
Proof.
  intros (_ & _ & _ & evs & -> & H). unfold ready_count.
  rewrite List.filter_app, length_app.
  replace (List.filter _ evs) with (@nil effect); [cbn; lia|].
  induction H as [|e evs (r & ev & ->) _ IH]; [reflexivity|exact IH].
Qed.

Lemma on_message_events msg i w :
  exists o, on_message msg i w = Some o /\ screen_events_only w (outcome_world o).
Proof.
  unfold on_message.
  destruct (String.eqb msg "success");
    [eexists; split; [reflexivity|apply screen_events_only_refl]|].
  destruct (String.eqb (substring2 0 6 msg) "listen");
    [|destruct (String.eqb (substring2 0 6 msg) "ignore")];
    unfold mbind, M_bind, bind, get_client; cbn;
    try destruct (get_property _ _);
    eexists; (split; [reflexivity|]);
    first [apply screen_events_only_emit | apply screen_events_only_refl].
Qed.

Lemma forEach_on_message_events l : forall i w,
  exists o, forEach_from i on_message l w = Some o
            /\ screen_events_only w (outcome_world o).
Proof.
  induction l as [|msg l IH]; intros i w; cbn [forEach_from].
  - eexists; split; [reflexivity|apply screen_events_only_refl].
  - unfold mbind, M_bind, bind.
    destruct (on_message_events msg i w) as ([[] w1|e w1] & -> & H1).
    + destruct (IH (S i) w1) as (o & -> & H2). exists o. split; [reflexivity|].
      eapply screen_events_only_trans; eassumption.
    + eexists; split; [reflexivity|exact H1].
Qed.

(** A chunk that does not begin with [connect] emits screen events and does
    nothing else. *)
Lemma socket_on_data_other chunk w :
  is_connect chunk = false ->
  exists o, socket_on_data chunk w = Some o /\ screen_events_only w (outcome_world o).
Proof.
  intros H. unfold socket_on_data. unfold is_connect in H. rewrite H.
  apply forEach_on_message_events.
Qed.

Lemma socket_on_data_connect_ready chunk w :
  is_connect chunk = true ->
  exists w', socket_on_data chunk w = Some (Return tt w')
             /\ ready_count (trace w') = S (ready_count (trace w)).
Proof.
  intros H. rewrite (socket_on_data_connect chunk w H). eexists. split; [reflexivity|].
  cbn [trace]. unfold ready_count. rewrite List.filter_app, length_app. cbn. lia.
Qed.

Lemma deliver_ready_count chunks : forall i w w',
  forEach_from i (fun chunk _ => socket_on_data chunk) chunks w = Some (Return tt w') ->
  ready_count (trace w') =
    ready_count (trace w) + length (List.filter is_connect chunks).
Proof.
  induction chunks as [|c chunks IH]; intros i w w' H; cbn [forEach_from] in H.
  - injection H as <-. cbn. lia.
  - unfold mbind, M_bind, bind in H. cbn [List.filter].
    destruct (is_connect c) eqn:Ec.
    + destruct (socket_on_data_connect_ready c w Ec) as (w1 & E1 & R1).
      rewrite E1 in H. rewrite (IH _ _ _ H), R1. cbn. lia.
    + destruct (socket_on_data_other c w Ec) as ([[] w1|e w1] & E1 & R1);
        rewrite E1 in H; [|discriminate].
      rewrite (IH _ _ _ H). apply screen_events_only_ready in R1. cbn in R1. lia.
Qed.

(** C2, as the code has it.  The handler keeps no record of the handshake:
    every chunk that, trimmed, begins with [connect] is parsed into the
    capabilities (each recognised key in it overwrites its field) and emits
    [ready] once more, and a chunk that does not begin with [connect] leaves
    the capabilities as they are and emits no [ready].  So over a sequence
    of chunks handled without an exception, [ready] is emitted as many times
    as there are chunks beginning with [connect]: exactly once, with the
    capabilities written by that chunk alone, when there is exactly one. *)
Theorem ready_once_per_connect_chunk (chunks : list string) (w w' : World) :
  deliver chunks w = Some (Return tt w') ->
  ready_count (trace w') = ready_count (trace w) + length (List.filter is_connect chunks)
  /\ (forall chunk w0, is_connect chunk = true ->
        exists w1, socket_on_data chunk w0 = Some (Return tt w1)
                   /\ ready_count (trace w1) = S (ready_count (trace w0))
                   /\ lcdprocConfig (client w1) =
                        connect_fold (split_on " " (trim chunk)) 0
                                     (split_on " " (trim chunk)) (lcdprocConfig (client w0)))
  /\ (forall chunk w0, is_connect chunk = false ->
        exists o, socket_on_data chunk w0 = Some o
                  /\ lcdprocConfig (client (outcome_world o)) = lcdprocConfig (client w0)
                  /\ ready_count (trace (outcome_world o)) = ready_count (trace w0)).
Proof.
  intros H. split; [exact (deliver_ready_count chunks 0 w w' H)|split].
  - intros chunk w0 Hc. rewrite (socket_on_data_connect chunk w0 Hc).
    eexists. split; [reflexivity|]. split; [|reflexivity].
    cbn [trace]. unfold ready_count. rewrite List.filter_app, length_app. cbn. lia.
  - intros chunk w0 Hc. destruct (socket_on_data_other chunk w0 Hc) as (o & E & R).
    exists o. split; [exact E|]. split; [|now apply screen_events_only_ready].
    destruct R as (-> & _). reflexivity.
Qed.

Lemma ready_once_per_connect_chunk_witness :
  ready_count (trace after_two_connects) = 2.
Proof.
  apply (ready_once_per_connect_chunk [handshake_line; "success"; second_line]
           (Client_new []) after_two_connects).
  vm_compute. reflexivity.
Defined.

(** C2 as stated fails when a second chunk begins with [connect]: after the
    handshake line the capabilities are those of a 20 by 4 display and
    [ready] has been emitted once; a second such chunk overwrites every
    field and emits [ready] a second time. *)
Lemma second_connect_chunk_overwrites :
  (match deliver [handshake_line] (Client_new []) with
   | Some (Return _ w) => Some (lcdprocConfig (client w), ready_count (trace w))
   | _ => None
   end) = Some ({| version := JString "0.5.7"; protocol := JString "0.3";
                   size := {| width := 20; height := 4 |};
                   cellsize := {| width := 5; height := 8 |} |}, 1)
  /\ (match deliver [handshake_line; second_line] (Client_new []) with
      | Some (Return _ w) => Some (lcdprocConfig (client w), ready_count (trace w))
      | _ => None
      end) = Some ({| version := JString "0.5.8"; protocol := JString "0.4";
                      size := {| width := 16; height := 2 |};
                      cellsize := {| width := 6; height := 9 |} |}, 2).
Proof. split; vm_compute; reflexivity. Qed.

(** ** Identifiers *)

Lemma append_inv_head (a b c : string) : a +:+ b = a +:+ c -> b = c.
Proof. induction a as [|x a IH]; cbn; [auto|]. intros [= H]. auto. Qed.

Lemma screen_id_inj name n m : screen_id name n = screen_id name m -> n = m.
Proof.
  unfold screen_id. intros H. apply append_inv_head in H. cbn in H.
  injection H as H. now apply (inj pretty).
Qed.

Lemma widget_id_inj sid n m : widget_id sid n = widget_id sid m -> n = m.
Proof.
  unfold widget_id. intros H. apply append_inv_head in H. cbn in H.
  injection H as H. now apply (inj pretty).
Qed.

Lemma pretty_N_go_digits x : forall s,
  digits_only s = true -> digits_only (pretty_N_go x s) = true.
Proof.
  induction (N.lt_wf_0 x) as [x _ IH]. intros s Hs.
  destruct (N.eq_dec x 0%N) as [->|Hx]; [now rewrite pretty_N_go_0|].
  rewrite pretty_N_go_step by lia. apply IH.
  - apply N.div_lt; lia.
  - assert (Hm : (x `mod` 10 < 10)%N) by (apply N.mod_lt; lia).
    cbn [digits_only]. unfold pretty_N_char.
    destruct (x `mod` 10)%N as [|p]; [exact Hs|].
    do 4 (try destruct p as [p|p|]); try exact Hs; lia.
Qed.

Lemma pretty_digits (n : N) : digits_only (pretty n) = true.
Proof.
  unfold pretty, pretty_N. destruct (decide (n = 0%N)); [reflexivity|].
  now apply pretty_N_go_digits.
Qed.

Lemma widget_id_not_title sid n : widget_id sid n <> title_id sid.
Proof.
  unfold widget_id, title_id. intros H. apply append_inv_head in H. cbn in H.
  injection H as H. change (pretty n = "TITLE") in H.
  pose proof (pretty_digits n) as D. rewrite H in D. discriminate.
Qed.

Lemma starts_with_append (t b : string) : starts_with t (t +:+ b) = true.
Proof.
  induction t as [|c t IH]; simpl; [reflexivity|].
  now rewrite Ascii.eqb_refl.
Qed.

Lemma has_infix_start (t s : string) : starts_with t s = true -> has_infix t s = true.
Proof. intros H. destruct s; simpl; now rewrite H. Qed.

Lemma has_infix_append (a t b : string) : has_infix t (a +:+ t +:+ b) = true.
Proof.
  induction a as [|c a IH].
  - change (has_infix t (t +:+ b) = true). apply has_infix_start, starts_with_append.
  - change (has_infix t (String c (a +:+ t +:+ b)) = true).
    simpl. rewrite IH. apply orb_true_r.
Qed.

(** No member of [Object.prototype] holds [_s] or [_w], so the ids of
    screens and widgets are never answered by the prototype. *)
Lemma not_inherited (t id : string) :
  t = "_s" \/ t = "_w" -> has_infix t id = true -> id ∉ Object_prototype_keys.
Proof.
  intros Ht H Hin.
  assert (F : Forall (fun k => has_infix "_s" k = false /\ has_infix "_w" k = false)
                     Object_prototype_keys) by (repeat constructor).
  rewrite Forall_forall in F. destruct (F id Hin) as [F1 F2].
  destruct Ht as [-> | ->]; congruence.
Qed.

Lemma get_property_absent {A} (o : gmap string A) (t a b : string) :
  t = "_s" \/ t = "_w" ->
  o !! (a +:+ t +:+ b) = None -> get_property o (a +:+ t +:+ b) = Absent.
Proof.
  intros Ht H. unfold get_property. rewrite H.
  rewrite bool_decide_eq_false_2; [reflexivity|].
  eapply not_inherited; [exact Ht|apply has_infix_append].
Qed.

Lemma get_property_own {A} (o : gmap string A) (k : string) (a : A) :
  o !! k = Some a -> get_property o k = Own a.
Proof. intros H. unfold get_property. now rewrite H. Qed.

(** ** What the factory methods do *)

(** Unfolding the monad, and computing without unfolding what is better
    read folded. *)
Ltac munfold :=
  unfold modify_screen, modify_widget, modify_client, alloc_screen, alloc_widget,
    get_screen, get_widget, get_client, Client_write, perform, update, throw,
    dangling, mbind, M_bind, bind, ret.
Ltac msimpl := cbn -[join flattenObj assign pretty String.append].

Lemma insert_last {A} (l : list A) (x y : A) : <[length l := y]> (l ++ [x]) = l ++ [y].
Proof. rewrite insert_app_r_alt by lia. now rewrite Nat.sub_diag. Qed.

Lemma lookup_last {A} (l : list A) (x : A) : (l ++ [x]) !! length l = Some x.
Proof. now apply list_lookup_middle. Qed.

(** [addScreen]: the new screen is the next object of the store, its id is
    made of the counter, and it is entered in the registry. *)
Lemma Client_addScreen_run w config :
  let id := screen_id (client_name w) (screenCnt (client w)) in
  let this := length (screen_heap w) in
  Client_addScreen config w =
    Some (Return this
      {| client := {| client_config := client_config (client w);
                      lcdprocConfig := lcdprocConfig (client w);
                      screens := <[id := this]> (screens (client w));
                      screenCnt := screenCnt (client w) + 1 |};
         screen_heap := screen_heap w ++ [new_screen id config];
         widget_heap := widget_heap w;
         trace := trace w ++
                  wire [JString "screen_add"; JString id] ::
                  (if isEmpty config then []
                   else [wire ([JString "screen_set"; JString id]
                               ++ flattenObj config false)]) |}).
Proof.
  intros id this.
  unfold Client_addScreen, Client_newScreenId, Screen_new, Screen_setConfig.
  destruct config as [|p config]; cbn [isEmpty]; munfold; msimpl.
  - reflexivity.
  - rewrite lookup_last. msimpl. rewrite insert_last, lookup_last. msimpl.
    rewrite <- !app_assoc. reflexivity.
Qed.

(** The numbered factory methods: the id is made of the screen's counter,
    which is advanced. *)
Lemma Screen_add_run w this s cls type :
  screen_heap w !! this = Some s ->
  Screen_add cls type this w =
    Some (Return (length (widget_heap w))
            (widget_added w this (bump s)
               (new_widget cls this (widget_id (screenId s) (widgetCnt s)) type))).
Proof.
  intros Hs. pose proof (lookup_lt_Some _ _ _ Hs) as Hlt.
  unfold Screen_add, Screen_newWidgetId, Widget_new, Screen_setWidget, widget_added.
  munfold. rewrite Hs. msimpl. rewrite Hs. msimpl.
  rewrite (list_lookup_insert_eq _ _ _ Hlt). msimpl.
  rewrite (list_lookup_insert_eq _ _ _ Hlt). msimpl.
  rewrite list_insert_insert_eq. reflexivity.
Qed.

(** [addTitle]: the widget registered under the title id, or else a new
    one; the counter is not read. *)
Lemma Screen_addTitle_run w this s :
  screen_heap w !! this = Some s ->
  Screen_addTitle this w =
    match widgets s !! title_id (screenId s) with
    | Some x => Some (Return x w)
    | None =>
        Some (Return (length (widget_heap w))
                (widget_added w this s
                   (new_widget TitleWidget this (title_id (screenId s)) (JString "title"))))
    end.
Proof.
  intros Hs. pose proof (lookup_lt_Some _ _ _ Hs) as Hlt.
  unfold Screen_addTitle. munfold. rewrite Hs.
  change (screenId s +:+ "_wTITLE") with (title_id (screenId s)).
  destruct (widgets s !! title_id (screenId s)) as [x|] eqn:E.
  - now rewrite (get_property_own _ _ _ E).
  - unfold title_id in *.
    change (screenId s +:+ "_wTITLE") with (screenId s +:+ "_w" +:+ "TITLE") in *.
    rewrite (get_property_absent _ "_w" _ _ (or_intror eq_refl) E).
    unfold Widget_new, Screen_setWidget, widget_added. munfold. msimpl. rewrite Hs. msimpl.
    rewrite Hs. reflexivity.
Qed.

(** [delete] of a screen. *)
Lemma Screen_delete_run w this s :
  screen_heap w !! this = Some s ->
  Screen_delete this w =
    Some (Return tt
      {| client := {| client_config := client_config (client w);
                      lcdprocConfig := lcdprocConfig (client w);
                      screens := delete (screenId s) (screens (client w));
                      screenCnt := screenCnt (client w) |};
         screen_heap := screen_heap w;
         widget_heap := widget_heap w;
         trace := trace w ++ [wire [JString "screen_del"; JString (screenId s)]] |}).
Proof.
  intros Hs. unfold Screen_delete, Client_unrefScreen. munfold. now rewrite Hs.
Qed.

(** ** Every later state *)

Section Preservation.
Context {P : World -> Prop}.

Lemma preserves_ret {A} (a : A) : preserves P (ret a).
Proof. intros w o HP [= <-]. exact HP. Qed.

Lemma preserves_throw {A} e : preserves P (@throw A e).
Proof. intros w o HP [= <-]. exact HP. Qed.

Lemma preserves_dangling {A} : preserves P (@dangling A).
Proof. intros w o HP [=]. Qed.

Lemma preserves_bind {A B} (m : M A) (k : A -> M B) :
  preserves P m -> (forall a, preserves P (k a)) -> preserves P (m ≫= k).
Proof.
  intros Hm Hk w o HP H. unfold mbind, M_bind, bind in H.
  destruct (m w) as [[a w1|e w1]|] eqn:E; [| |discriminate].
  - eapply Hk; [|exact H]. exact (Hm w _ HP E).
  - injection H as <-. exact (Hm w _ HP E).
Qed.

Lemma preserves_get_client : preserves P get_client.
Proof. intros w o HP [= <-]. exact HP. Qed.

Lemma preserves_get_screen r : preserves P (get_screen r).
Proof.
  intros w o HP H. unfold get_screen in H.
  destruct (screen_heap w !! r); [|discriminate]. injection H as <-. exact HP.
Qed.

Lemma preserves_get_widget r : preserves P (get_widget r).
Proof.
  intros w o HP H. unfold get_widget in H.
  destruct (widget_heap w !! r); [|discriminate]. injection H as <-. exact HP.
Qed.

Lemma preserves_update f : (forall w, P w -> P (f w)) -> preserves P (update f).
Proof. intros Hf w o HP [= <-]. now apply Hf. Qed.

Lemma preserves_forEach {A} (f : A -> nat -> M unit) l :
  (forall x i, preserves P (f x i)) -> forall i, preserves P (forEach_from i f l).
Proof.
  intros Hf. induction l as [|x l IH]; intros i; cbn [forEach_from].
  - apply preserves_ret.
  - apply preserves_bind; [apply Hf|intros _; apply IH].
Qed.
End Preservation.

(** [inv] is kept by every method. *)
Section Later.
Variables (name : string) (gone : option N).

(** Steps that leave the client and the ids of the screens alone. *)
Lemma inv_frame w w' :
  client w' = client w ->
  (forall r, screenId <$> (screen_heap w' !! r) = screenId <$> (screen_heap w !! r)) ->
  inv name gone w -> inv name gone w'.
Proof.
  intros Hc Hh (I1 & I2 & I3). unfold inv, generated, client_name in *. rewrite Hc.
  split; [exact I1|split; [|exact I3]].
  intros r s' Hs'. specialize (Hh r). rewrite Hs' in Hh. cbn in Hh.
  destruct (screen_heap w !! r) as [s|] eqn:E; [|discriminate].
  injection Hh as ->. eapply I2, E.
Qed.

Lemma preserves_perform e : preserves (inv name gone) (perform e).
Proof. apply preserves_update. intros w. now apply inv_frame. Qed.

Lemma preserves_write args : preserves (inv name gone) (Client_write args).
Proof. apply preserves_perform. Qed.

Lemma preserves_alloc_widget x : preserves (inv name gone) (alloc_widget x).
Proof. intros w o HP [= <-]. revert HP. now apply inv_frame. Qed.

Lemma preserves_modify_widget r f : preserves (inv name gone) (modify_widget r f).
Proof.
  apply preserves_bind; [apply preserves_get_widget|intros x].
  apply preserves_update. intros w. now apply inv_frame.
Qed.

Lemma preserves_modify_screen r f :
  (forall s, screenId (f s) = screenId s) -> preserves (inv name gone) (modify_screen r f).
Proof.
  intros Hf w o HP H. unfold modify_screen, mbind, M_bind, bind, get_screen, update in H.
  destruct (screen_heap w !! r) as [s|] eqn:E; [|discriminate]. injection H as <-.
  revert HP. apply inv_frame; [reflexivity|]. intros r'. cbn.
  destruct (decide (r = r')) as [Heq|Hne]; [subst r'|].
  - rewrite (list_lookup_insert_eq _ _ _ (lookup_lt_Some _ _ _ E)), E. cbn. now rewrite Hf.
  - now rewrite list_lookup_insert_ne.
Qed.

Lemma preserves_set_lcdprocConfig f : preserves (inv name gone) (set_lcdprocConfig f).
Proof.
  apply preserves_update. intros w (I1 & I2 & I3). split; [exact I1|split; [exact I2|exact I3]].
Qed.

Lemma preserves_unrefScreen id : preserves (inv name gone) (Client_unrefScreen id).
Proof.
  apply preserves_update. intros w (I1 & I2 & I3). split; [exact I1|split; [exact I2|]].
  intros k Hk. destruct (I3 k Hk) as [Hlt Hnone]. split; [exact Hlt|]. cbn.
  destruct (decide (id = screen_id name k)) as [->|Hne].
  - apply lookup_delete_eq.
  - now rewrite lookup_delete_ne.
Qed.

Lemma preserves_addScreen config : preserves (inv name gone) (Client_addScreen config).
Proof.
  intros w o (I1 & I2 & I3) H. rewrite Client_addScreen_run in H. injection H as <-.
  unfold inv, generated, outcome_world. cbn [client screen_heap screenCnt screens].
  split; [exact I1|split].
  - intros r s Hs. apply lookup_app_Some in Hs as [Hs|[_ Hs]].
    + destruct (I2 r s Hs) as (j & Hj & ->). exists j. split; [lia|reflexivity].
    + destruct (r - length (screen_heap w)) as [|n]; [|destruct n; discriminate].
      injection Hs as <-. exists (screenCnt (client w)). split; [lia|].
      cbn. now rewrite I1.
  - intros k Hk. destruct (I3 k Hk) as [Hlt Hnone]. split; [lia|].
    rewrite lookup_insert_ne; [exact Hnone|].
    rewrite I1. intros E. apply screen_id_inj in E. lia.
Qed.
End Later.

Ltac head_of t :=
  lazymatch t with
  | ?f _ => head_of f
  | _ => t
  end.

(** Preservation of [inv], method by method. *)
Ltac preserves_inv :=
  repeat (intros; cbv zeta;
    lazymatch goal with
    | |- preserves _ (mbind _ _) => apply preserves_bind
    | |- preserves _ (ret _) => apply preserves_ret
    | |- preserves _ (throw _) => apply preserves_throw
    | |- preserves _ dangling => apply preserves_dangling
    | |- preserves _ get_client => apply preserves_get_client
    | |- preserves _ (get_screen _) => apply preserves_get_screen
    | |- preserves _ (get_widget _) => apply preserves_get_widget
    | |- preserves _ (perform _) => apply preserves_perform
    | |- preserves _ (Client_write _) => apply preserves_write
    | |- preserves _ (alloc_widget _) => apply preserves_alloc_widget
    | |- preserves _ (modify_widget _ _) => apply preserves_modify_widget
    | |- preserves _ (modify_screen _ _) => apply preserves_modify_screen; reflexivity
    | |- preserves _ (set_lcdprocConfig _) => apply preserves_set_lcdprocConfig
    | |- preserves _ (Client_unrefScreen _) => apply preserves_unrefScreen
    | |- preserves _ (Client_addScreen _) => apply preserves_addScreen
    | |- preserves _ (forEach_from _ _ _) => apply preserves_forEach
    | |- preserves _ (match ?x with _ => _ end) => destruct x
    | |- preserves _ ?m => let h := head_of m in unfold h
    end).

Lemma do_call_preserves name gone c : preserves (inv name gone) (do_call c).
Proof. destruct c; cbn [do_call]; preserves_inv. Qed.

Lemma step_preserves name gone w w' : step w w' -> inv name gone w -> inv name gone w'.
Proof. intros (c & o & H & ->) HP. exact (do_call_preserves name gone c w o HP H). Qed.

Lemma steps_preserve name gone w w' : rtc step w w' -> inv name gone w -> inv name gone w'.
Proof. induction 1; eauto using step_preserves. Qed.

Lemma inv_new config : inv (client_name (Client_new config)) None (Client_new config).
Proof. repeat split; intros; discriminate. Qed.

Lemma substring_all (s : string) : substring 0 (String.length s) s = s.
Proof. induction s as [|c s IH]; cbn; [reflexivity|now rewrite IH]. Qed.

(** The parts of a line the handler looks at. *)
Lemma listen_line (id : string) :
  String.eqb ("listen " +:+ id) "success" = false
  /\ substring2 0 6 ("listen " +:+ id) = "listen"
  /\ substring1 7 ("listen " +:+ id) = id.
Proof.
  repeat split. unfold substring1.
  change (String.length ("listen " +:+ id)) with (7 + String.length id)%nat.
  replace (7 + String.length id - 7)%nat with (String.length id) by lia.
  apply substring_all.
Qed.

Lemma ignore_line (id : string) :
  String.eqb ("ignore " +:+ id) "success" = false
  /\ substring2 0 6 ("ignore " +:+ id) = "ignore"
  /\ substring1 7 ("ignore " +:+ id) = id.
Proof.
  repeat split. unfold substring1.
  change (String.length ("ignore " +:+ id)) with (7 + String.length id)%nat.
  replace (7 + String.length id - 7)%nat with (String.length id) by lia.
  apply substring_all.
Qed.

(** A [listen] or [ignore] line for an id that is generated and not
    registered is dropped: the world is as before. *)
Lemma on_message_dropped w name k i :
  screens (client w) !! screen_id name k = None ->
  on_message ("listen " +:+ screen_id name k) i w = Some (Return tt w)
  /\ on_message ("ignore " +:+ screen_id name k) i w = Some (Return tt w).
Proof.
  intros H. unfold on_message.
  destruct (listen_line (screen_id name k)) as (-> & -> & ->).
  destruct (ignore_line (screen_id name k)) as (-> & -> & ->).
  cbn [String.eqb Ascii.eqb Bool.eqb andb].
  change (String.eqb "listen" "listen") with true.
  change (String.eqb "ignore" "listen") with false.
  change (String.eqb "ignore" "ignore") with true. cbv iota.
  unfold mbind, M_bind, bind, get_client.
  unfold screen_id in *.
  rewrite (get_property_absent _ "_s" _ _ (or_introl eq_refl) H). split; reflexivity.
Qed.

(** C8. In any state the client has reached, [delete] on a screen sends
    [screen_del <id>] and removes the id from the registry, all other
    entries staying as they are.  Whatever calls and events follow, a line
    [listen <id>] or [ignore <id>] for the deleted id is dropped by the
    handler: it returns normally and the world, its trace included, is as
    before, so that no event is emitted and nothing is thrown. *)
Theorem deleted_screen_notifications_dropped (config : obj) (w : World) (this : ref)
    (s : Screen) :
  rtc step (Client_new config) w ->
  screen_heap w !! this = Some s ->
  exists w1,
    Screen_delete this w = Some (Return tt w1)
    /\ trace w1 = trace w ++ [wire [JString "screen_del"; JString (screenId s)]]
    /\ screens (client w1) = delete (screenId s) (screens (client w))
    /\ (forall id, id <> screenId s ->
          screens (client w1) !! id = screens (client w) !! id)
    /\ screens (client w1) !! screenId s = None
    /\ (forall w2 i, rtc step w1 w2 ->
          on_message ("listen " +:+ screenId s) i w2 = Some (Return tt w2)
          /\ on_message ("ignore " +:+ screenId s) i w2 = Some (Return tt w2)).
Proof.
  intros Hreach Hs.
  pose proof (steps_preserve _ None _ _ Hreach (inv_new config)) as (I1 & I2 & I3).
  destruct (I2 this s Hs) as (k & Hk & Hid).
  rewrite (Screen_delete_run w this s Hs). eexists. split; [reflexivity|].
  cbn [trace client screens].
  split; [reflexivity|split; [reflexivity|split; [|split]]].
  - intros id Hne. now apply lookup_delete_ne.
  - apply lookup_delete_eq.
  - intros w2 i Hlater. rewrite Hid.
    apply on_message_dropped.
    eapply (steps_preserve _ (Some k) _ _ Hlater); [|reflexivity].
    split; [exact I1|split; [exact I2|]].
    intros k' [= <-]. split; [exact Hk|]. cbn. rewrite <- Hid. apply lookup_delete_eq.
Qed.

Lemma deleted_screen_notifications_dropped_witness :
  exists w1,
    Screen_delete 0 one_screen = Some (Return tt w1)
    /\ trace w1 = trace one_screen ++ [wire [JString "screen_del"; JString "lcdprocjs_s0"]]
    /\ screens (client w1) = delete "lcdprocjs_s0" (screens (client one_screen))
    /\ (forall id, id <> "lcdprocjs_s0" ->
          screens (client w1) !! id = screens (client one_screen) !! id)
    /\ screens (client w1) !! "lcdprocjs_s0" = None
    /\ (forall w2 i, rtc step w1 w2 ->
          on_message ("listen " +:+ "lcdprocjs_s0") i w2 = Some (Return tt w2)
          /\ on_message ("ignore " +:+ "lcdprocjs_s0") i w2 = Some (Return tt w2)).
Proof.
  apply (deleted_screen_notifications_dropped [] one_screen 0
           {| screenId := "lcdprocjs_s0"; screen_config := [];
              widgets := ∅; widgetCnt := 0 |}).
  - apply rtc_once. exists (CallAddScreen []), (Return tt one_screen).
    split; reflexivity.
  - reflexivity.
Defined.

(** The same at the level of chunks: after the deletion, the chunk
    [listen lcdprocjs_s0] leaves the world as it is, while before it the
    screen emits [shown]. *)
Example listen_after_delete :
  (Screen_delete 0;; socket_on_data "listen lcdprocjs_s0") one_screen =
    Screen_delete 0 one_screen
  /\ (match socket_on_data "listen lcdprocjs_s0" one_screen with
      | Some o => last (trace (outcome_world o))
      | None => None
      end) = Some (Emit (OnScreen 0) "shown").
Proof. split; vm_compute; reflexivity. Qed.

(** ** Sequences of factory calls *)

Lemma do_factory_numbered f s :
  is_numbered f = true -> do_factory f s = Screen_add (factory_class f) (factory_type f) s.
Proof. destruct f; try discriminate; reflexivity. Qed.

(** One factory call on the screen [s] at [this]: the handle returned, the
    world and the screen afterwards. *)
Lemma do_factory_run f w this s :
  screen_heap w !! this = Some s ->
  exists x w' s',
    do_factory f this w = Some (Return x w')
    /\ screen_heap w' = <[this := s']> (screen_heap w)
    /\ client w' = client w
    /\ screenId s' = screenId s
    /\ screen_config s' = screen_config s
    /\ (if is_numbered f then
          widgetCnt s' = (widgetCnt s + 1)%N
          /\ x = length (widget_heap w)
          /\ widget_heap w' = widget_heap w ++
               [new_widget (factory_class f) this
                  (widget_id (screenId s) (widgetCnt s)) (factory_type f)]
          /\ widgets s' = <[widget_id (screenId s) (widgetCnt s) := x]> (widgets s)
        else
          widgetCnt s' = widgetCnt s
          /\ widgets s' !! title_id (screenId s) = Some x
          /\ match widgets s !! title_id (screenId s) with
             | Some x0 => x = x0 /\ w' = w /\ s' = s
             | None =>
                 x = length (widget_heap w)
                 /\ widget_heap w' = widget_heap w ++
                      [new_widget TitleWidget this (title_id (screenId s)) (JString "title")]
                 /\ widgets s' = <[title_id (screenId s) := x]> (widgets s)
             end).
Proof.
  intros Hs. destruct (is_numbered f) eqn:Ef.
  - rewrite (do_factory_numbered f this Ef), (Screen_add_run w this s _ _ Hs).
    eexists _, _, _. split; [reflexivity|]. cbn. repeat split.
  - destruct f; try discriminate. cbn [do_factory].
    rewrite (Screen_addTitle_run w this s Hs).
    destruct (widgets s !! title_id (screenId s)) as [x0|] eqn:E.
    + exists x0, w, s. rewrite list_insert_id by exact Hs. repeat split; assumption.
    + eexists _, _, _. split; [reflexivity|]. cbn. repeat split.
      apply lookup_insert_eq.
Qed.

Lemma counted_S sid from n :
  counted sid from (S n) = Some (widget_id sid from) :: counted sid (from + 1) n.
Proof.
  unfold counted. cbn [seq fmap list_fmap]. rewrite N.add_0_r. f_equal.
  rewrite <- fmap_S_seq, <- list_fmap_compose. apply list_fmap_ext.
  intros _ k _. cbn. do 2 f_equal. lia.
Qed.

Lemma factories_run this fs : forall w s,
  screen_heap w !! this = Some s ->
  exists xs w' s',
    do_adds (AddTo this <$> fs) w = Some (Return xs w')
    /\ screen_heap w' !! this = Some s'
    /\ screenId s' = screenId s
    /\ widgetCnt s' = (widgetCnt s + N.of_nat (length (List.filter is_numbered fs)))%N
    /\ (exists new, widget_heap w' = widget_heap w ++ new)
    /\ numbered_ids w' fs xs =
         counted (screenId s) (widgetCnt s) (length (List.filter is_numbered fs))
    /\ (forall i, fs !! i = Some FTitle ->
          is_Some (xs !! i) /\ xs !! i = widgets s' !! title_id (screenId s))
    /\ (forall i f x, fs !! i = Some f -> is_numbered f = true -> xs !! i = Some x ->
          exists wd, widget_heap w' !! x = Some wd /\ widgets s' !! widgetId wd = Some x)
    /\ (forall id x, widgets s !! id = Some x ->
          id = title_id (screenId s)
          \/ (exists c, (c < widgetCnt s)%N /\ id = widget_id (screenId s) c) ->
          widgets s' !! id = Some x).
Proof.
  induction fs as [|f fs IH]; intros w s Hs.
  - exists [], w, s. cbn. rewrite N.add_0_r.
    repeat split; try reflexivity; try assumption; try (intros; discriminate).
    + now exists []; rewrite app_nil_r.
    + auto.
  - destruct (do_factory_run f w this s Hs) as (x & w1 & s1 & Hrun & Hh & _ & Hid & _ & Hf).
    assert (Hs1 : screen_heap w1 !! this = Some s1).
    { rewrite Hh. apply list_lookup_insert_eq. eapply lookup_lt_Some, Hs. }
    destruct (IH w1 s1 Hs1)
      as (xs & w' & s' & Hrun' & Hs' & Hid' & Hcnt' & (new & Hnew) & Hids & Htit & Hnum & Hper).
    exists (x :: xs), w', s'.
    assert (Hstep : forall id y, widgets s !! id = Some y ->
              id = title_id (screenId s)
              \/ (exists c, (c < widgetCnt s)%N /\ id = widget_id (screenId s) c) ->
              widgets s1 !! id = Some y
              /\ (id = title_id (screenId s1)
                  \/ exists c, (c < widgetCnt s1)%N /\ id = widget_id (screenId s1) c)).
    { intros id y Hy Hform. rewrite Hid. destruct (is_numbered f).
      - destruct Hf as (Hc & _ & _ & Hw). split.
        + rewrite Hw, lookup_insert_ne; [exact Hy|].
          destruct Hform as [->|(c & Hlt & ->)].
          * apply widget_id_not_title.
          * intros E. apply widget_id_inj in E. lia.
        + destruct Hform as [->|(c & Hlt & ->)]; [now left|right].
          exists c. split; [lia|reflexivity].
      - destruct Hf as (Hc & _ & Hf). rewrite Hc. split; [|exact Hform].
        destruct (widgets s !! title_id (screenId s)) as [x0|] eqn:E.
        + destruct Hf as (_ & _ & ->). exact Hy.
        + destruct Hf as (_ & _ & ->). rewrite lookup_insert_ne; [exact Hy|].
          intros <-. congruence. }
    split; [|split; [exact Hs'|split; [congruence|split; [|split; [|split; [|split; [|split]]]]]]].
    + cbn [fmap list_fmap do_adds do_add]. unfold mbind, M_bind, bind.
      change (list_fmap factory add (AddTo this) fs) with (AddTo this <$> fs).
      now rewrite Hrun, Hrun'.
    + rewrite Hcnt'. cbn [List.filter]. destruct (is_numbered f); cbn [length].
      * destruct Hf as (-> & _). lia.
      * destruct Hf as (-> & _). lia.
    + destruct (is_numbered f).
      * destruct Hf as (_ & _ & Hw1 & _). eexists.
        rewrite Hnew, Hw1, <- app_assoc. reflexivity.
      * destruct Hf as (_ & _ & Hf).
        destruct (widgets s !! title_id (screenId s)).
        -- destruct Hf as (_ & Hw1 & _). subst w1. now exists new.
        -- destruct Hf as (_ & Hw1 & _). eexists.
           rewrite Hnew, Hw1, <- app_assoc. reflexivity.
    + cbn [numbered_ids List.filter]. rewrite Hids, Hid. destruct (is_numbered f).
      * destruct Hf as (Hc & -> & Hw1 & _). cbn [length]. rewrite counted_S, Hc.
        cbn [app]. f_equal. rewrite Hnew, Hw1, <- app_assoc. cbn [app].
        now rewrite list_lookup_middle.
      * destruct Hf as (-> & _). reflexivity.
    + intros [|i] Hi; cbn in Hi |- *.
      * injection Hi as ->. cbn in Hf. destruct Hf as (_ & Hx & _).
        split; [eauto|]. symmetry. rewrite <- Hid in Hx |- *.
        apply Hper; [exact Hx|now left].
      * rewrite <- Hid. now apply Htit.
    + intros [|i] f' y Hi Hn Hy; cbn in Hi, Hy.
      * injection Hi as ->. injection Hy as ->. rewrite Hn in Hf.
        destruct Hf as (Hc & -> & Hw1 & Hw).
        eexists. split.
        -- rewrite Hnew, Hw1, <- app_assoc. cbn [app]. now apply list_lookup_middle.
        -- cbn [widgetId new_widget]. apply Hper.
           ++ rewrite Hw. apply lookup_insert_eq.
           ++ right. exists (widgetCnt s). split; [lia|now rewrite Hid].
      * eapply Hnum; eassumption.
    + intros id y Hy Hform. destruct (Hstep id y Hy Hform) as [Hy1 Hform1].
      now apply Hper.
Qed.

(** C10. On a screen [s] at [this], in any world, every sequence [fs] of
    factory calls runs, and the numbered calls among them (all but
    [addTitle]) get, in call order, the ids [<screenId>_w<N>] for [N] from
    the counter's value on, one by one: an [addTitle] in between takes no
    number.  So a sequence [fs'] that differs from [fs] only by [addTitle]
    calls gives the numbered widgets the very same ids.  The handle that
    [addTitle] returns is the entry of the screen's [widgets] map for
    [<screenId>_wTITLE], the map that also holds every numbered widget under
    its id. *)
Theorem title_keeps_counter (w : World) (this : ref) (s : Screen) (fs : list factory) :
  screen_heap w !! this = Some s ->
  exists xs w' s',
    do_adds (AddTo this <$> fs) w = Some (Return xs w')
    /\ screen_heap w' !! this = Some s'
    /\ numbered_ids w' fs xs =
         (fun k => Some (screenId s +:+ "_w" +:+ pretty (widgetCnt s + N.of_nat k)%N))
           <$> seq 0 (length (List.filter is_numbered fs))
    /\ widgetCnt s' = (widgetCnt s + N.of_nat (length (List.filter is_numbered fs)))%N
    /\ (forall fs', List.filter is_numbered fs' = List.filter is_numbered fs ->
          exists xs' w'',
            do_adds (AddTo this <$> fs') w = Some (Return xs' w'')
            /\ numbered_ids w'' fs' xs' = numbered_ids w' fs xs)
    /\ (forall i, fs !! i = Some FTitle ->
          is_Some (xs !! i)
          /\ xs !! i = widgets s' !! (screenId s +:+ "_wTITLE"))
    /\ (forall i f x, fs !! i = Some f -> is_numbered f = true -> xs !! i = Some x ->
          exists wd, widget_heap w' !! x = Some wd /\ widgets s' !! widgetId wd = Some x).
Proof.
  intros Hs.
  destruct (factories_run this fs w s Hs)
    as (xs & w' & s' & Hrun & Hs' & _ & Hcnt & _ & Hids & Htit & Hnum & _).
  exists xs, w', s'. repeat (split; [assumption|]). split; [|split; assumption].
  intros fs' Hfs'.
  destruct (factories_run this fs' w s Hs)
    as (xs' & w'' & _ & Hrun' & _ & _ & _ & _ & Hids' & _).
  exists xs', w''. split; [exact Hrun'|]. now rewrite Hids', Hids, Hfs'.
Qed.

Lemma title_keeps_counter_witness :
  exists xs w',
    do_adds (AddTo 0 <$> [FString; FTitle; FIcon; FTitle; FHorizontalBar]) one_screen =
      Some (Return xs w')
    /\ numbered_ids w' [FString; FTitle; FIcon; FTitle; FHorizontalBar] xs =
         [Some "lcdprocjs_s0_w0"; Some "lcdprocjs_s0_w1"; Some "lcdprocjs_s0_w2"].
Proof.
  destruct (title_keeps_counter one_screen 0
              {| screenId := "lcdprocjs_s0"; screen_config := [];
                 widgets := ∅; widgetCnt := 0 |}
              [FString; FTitle; FIcon; FTitle; FHorizontalBar] eq_refl)
    as (xs & w' & s' & Hrun & _ & Hids & _).
  exists xs, w'. split; [exact Hrun|exact Hids].
Defined.

(** The ids in a run: with and without the title, the numbered widgets are
    [w0] and [w1]. *)
Example ids_with_and_without_title :
  (match do_adds (AddTo 0 <$> [FString; FTitle; FIcon]) one_screen with
   | Some (Return xs w') => (fun x => widgetId <$> (widget_heap w' !! x)) <$> xs
   | _ => []
   end) = [Some "lcdprocjs_s0_w0"; Some "lcdprocjs_s0_wTITLE"; Some "lcdprocjs_s0_w1"]
  /\ (match do_adds (AddTo 0 <$> [FString; FIcon]) one_screen with
      | Some (Return xs w') => (fun x => widgetId <$> (widget_heap w' !! x)) <$> xs
      | _ => []
      end) = [Some "lcdprocjs_s0_w0"; Some "lcdprocjs_s0_w1"].
Proof. split; vm_compute; reflexivity. Qed.

(** ** The ids in a run of factory calls *)

Section Ids.
Variable name : string.

Lemma numbered_none w r :
  (forall x wd, widget_heap w !! x = Some wd -> widget_screen wd < r) -> numbered w r = [].
Proof.
  unfold numbered. intros H. induction (widget_heap w) as [|wd l IH]; cbn; [reflexivity|].
  assert (Hlt : widget_screen wd < r) by (apply (H 0); reflexivity).
  apply Nat.lt_neq, Nat.eqb_neq in Hlt. rewrite Hlt. cbn.
  apply IH. intros x wd' Hx. apply (H (S x)). exact Hx.
Qed.

Lemma numbered_snoc w w' r wd :
  widget_heap w' = widget_heap w ++ [wd] ->
  numbered w' r =
    numbered w r ++ (if Nat.eqb (widget_screen wd) r && negb (is_title wd) then [wd] else []).
Proof. intros H. unfold numbered. rewrite H, List.filter_app. reflexivity. Qed.

Lemma numbered_same w w' r : widget_heap w' = widget_heap w -> numbered w' r = numbered w r.
Proof. intros H. unfold numbered. now rewrite H. Qed.

Lemma ids_inv_new config :
  client_name (Client_new config) = name -> ids_inv name (Client_new config).
Proof.
  intros H. split; try (intros; discriminate); try reflexivity. exact H.
Qed.

Lemma ids_inv_addScreen w config x w' :
  ids_inv name w -> Client_addScreen config w = Some (Return x w') -> ids_inv name w'.
Proof.
  intros [J1 J2 J3 J4 J5 J6 J7] H. rewrite Client_addScreen_run in H.
  injection H as <- <-.
  assert (Hnew : forall r s,
            (screen_heap w ++ [new_screen (screen_id (client_name w) (screenCnt (client w)))
                                 config]) !! r = Some s ->
            screen_heap w !! r = Some s
            \/ (r = length (screen_heap w)
                /\ s = new_screen (screen_id (client_name w) (screenCnt (client w))) config)).
  { intros r s Hs. apply lookup_app_Some in Hs as [Hs|[Hle Hs]]; [now left|right].
    destruct (r - length (screen_heap w)) as [|n] eqn:E; [|destruct n; discriminate].
    injection Hs as <-. split; [lia|reflexivity]. }
  split; cbn [client screen_heap widget_heap screenCnt].
  - exact J1.
  - rewrite length_app. cbn. lia.
  - intros r s Hs. destruct (Hnew r s Hs) as [Ho|[-> ->]]; [now apply J3|].
    cbn. now rewrite J1, J2.
  - intros r s Hs. rewrite (numbered_same w _ r) by reflexivity.
    destruct (Hnew r s Hs) as [Ho|[-> ->]]; [now apply J4|].
    rewrite (numbered_none w _ J7). reflexivity.
  - intros r s Hs. rewrite (numbered_same w _ r) by reflexivity.
    destruct (Hnew r s Hs) as [Ho|[-> ->]]; [now apply J5|].
    rewrite (numbered_none w _ J7). reflexivity.
  - intros r s y Hs Hy. destruct (Hnew r s Hs) as [Ho|[-> ->]]; [now apply (J6 r s)|].
    cbn in Hy. rewrite lookup_empty in Hy. discriminate.
  - intros y wd Hy. rewrite length_app. cbn. specialize (J7 y wd Hy). lia.
Qed.

Lemma do_factory_valid f this w o :
  do_factory f this w = Some o -> exists s, screen_heap w !! this = Some s.
Proof.
  destruct (screen_heap w !! this) as [s|] eqn:E; [eauto|]. intros H. exfalso.
  destruct f; cbn in H;
    unfold Screen_addWidget, Screen_addString, Screen_addHorizontalBar,
      Screen_addVerticalBar, Screen_addIcon, Screen_addBigNumber, Screen_add,
      Screen_addTitle, Screen_newWidgetId, mbind, M_bind, bind, get_screen in H;
    rewrite E in H; discriminate.
Qed.

Lemma numbered_class f this id type :
  is_numbered f = true -> is_title (new_widget (factory_class f) this id type) = false.
Proof. destruct f; try discriminate; reflexivity. Qed.

Lemma seq_fmap_snoc {A} (g : nat -> A) (n : nat) :
  g <$> seq 0 (S n) = (g <$> seq 0 n) ++ [g n].
Proof. rewrite seq_S, fmap_app. reflexivity. Qed.

Lemma ids_inv_factory w f this x w' :
  ids_inv name w -> do_factory f this w = Some (Return x w') -> ids_inv name w'.
Proof.
  intros J H. destruct (do_factory_valid f this w _ H) as [s Hs].
  destruct (do_factory_run f w this s Hs) as (x0 & w0 & s' & Hrun & Hh & Hc & Hid & _ & Hf).
  rewrite Hrun in H. injection H as <- <-.
  pose proof (lookup_lt_Some _ _ _ Hs) as Hlt.
  (* the title is there already: nothing happens *)
  destruct (is_numbered f) eqn:Ef; [|destruct Hf as (Hcnt & Hx & Hf);
    destruct (widgets s !! title_id (screenId s)) as [x1|] eqn:Et;
    [destruct Hf as (_ & -> & _); exact J|]].
  - (* a numbered widget *)
    destruct Hf as (Hcnt & -> & Hw & Hreg). destruct J as [J1 J2 J3 J4 J5 J6 J7].
    set (nw := new_widget (factory_class f) this (widget_id (screenId s) (widgetCnt s))
                 (factory_type f)) in *.
    assert (Hnum : forall r, numbered w0 r =
                     numbered w r ++ (if Nat.eqb this r then [nw] else [])).
    { intros r. rewrite (numbered_snoc w w0 r nw Hw).
      unfold nw at 1 2. rewrite numbered_class by exact Ef. cbn [new_widget widget_screen].
      now rewrite andb_true_r. }
    split.
    + unfold client_name. now rewrite Hc.
    + now rewrite Hc, Hh, length_insert.
    + intros r s1 Hs1. rewrite Hh in Hs1.
      apply list_lookup_insert_Some in Hs1 as [(<- & <- & _)|[Hne Hs1]]; [|now apply J3].
      rewrite Hid. now apply J3.
    + intros r s1 Hs1. rewrite Hh in Hs1. rewrite Hnum.
      apply list_lookup_insert_Some in Hs1 as [(<- & <- & _)|[Hne Hs1]].
      * rewrite Nat.eqb_refl, length_app, Hcnt, (J4 this s Hs). cbn. lia.
      * apply Nat.eqb_neq in Hne. rewrite Hne, app_nil_r. now apply J4.
    + intros r s1 Hs1. rewrite Hh in Hs1. rewrite Hnum.
      apply list_lookup_insert_Some in Hs1 as [(<- & <- & _)|[Hne Hs1]].
      * rewrite Nat.eqb_refl, length_app, fmap_app. cbn [length].
        rewrite Nat.add_1_r, seq_fmap_snoc, Hid, <- (J5 this s Hs).
        f_equal. cbn. now rewrite (J4 this s Hs).
      * apply Nat.eqb_neq in Hne. rewrite Hne, app_nil_r. now apply J5.
    + intros r s1 y Hs1 Hy. rewrite Hh in Hs1.
      assert (Hold : exists s2, screen_heap w !! r = Some s2
                                /\ screenId s2 = screenId s1
                                /\ widgets s2 !! title_id (screenId s2) = Some y).
      { apply list_lookup_insert_Some in Hs1 as [(<- & <- & _)|[Hne Hs1]]; [|eauto].
        exists s. split; [exact Hs|split; [now rewrite Hid|]].
        rewrite Hid, Hreg, lookup_insert_ne in Hy; [exact Hy|apply widget_id_not_title]. }
      destruct Hold as (s2 & Hs2 & Hid2 & Hy2).
      destruct (J6 r s2 y Hs2 Hy2) as (wd & Hwd & Hwid & Hcls & Hscr).
      exists wd. rewrite Hw, <- Hid2. split; [|auto].
      apply lookup_app_l_Some. exact Hwd.
    + intros y wd Hy. rewrite Hh, length_insert. rewrite Hw in Hy.
      apply lookup_app_Some in Hy as [Hy|[_ Hy]]; [eapply J7, Hy|].
      destruct (y - length (widget_heap w)) as [|n]; [|destruct n; discriminate].
      injection Hy as <-. exact Hlt.
  - (* the title widget is constructed *)
    destruct Hf as (-> & Hw & Hreg). destruct J as [J1 J2 J3 J4 J5 J6 J7].
    set (tw := new_widget TitleWidget this (title_id (screenId s)) (JString "title")) in *.
    assert (Hnum : forall r, numbered w0 r = numbered w r).
    { intros r. rewrite (numbered_snoc w w0 r tw Hw). cbn. now rewrite andb_false_r, app_nil_r. }
    split.
    + unfold client_name. now rewrite Hc.
    + now rewrite Hc, Hh, length_insert.
    + intros r s1 Hs1. rewrite Hh in Hs1.
      apply list_lookup_insert_Some in Hs1 as [(<- & <- & _)|[Hne Hs1]]; [|now apply J3].
      rewrite Hid. now apply J3.
    + intros r s1 Hs1. rewrite Hh in Hs1. rewrite Hnum.
      apply list_lookup_insert_Some in Hs1 as [(<- & <- & _)|[Hne Hs1]]; [|now apply J4].
      rewrite Hcnt. now apply J4.
    + intros r s1 Hs1. rewrite Hh in Hs1. rewrite Hnum.
      apply list_lookup_insert_Some in Hs1 as [(<- & <- & _)|[Hne Hs1]]; [|now apply J5].
      rewrite Hid. now apply J5.
    + intros r s1 y Hs1 Hy. rewrite Hh in Hs1. rewrite Hw.
      apply list_lookup_insert_Some in Hs1 as [(<- & <- & _)|[Hne Hs1]].
      * rewrite Hid, Hreg, lookup_insert_eq in Hy. injection Hy as <-.
        exists tw. rewrite Hid. split; [now apply list_lookup_middle|repeat split].
      * destruct (J6 r s1 y Hs1 Hy) as (wd & Hwd & Hrest).
        exists wd. split; [now apply lookup_app_l_Some|exact Hrest].
    + intros y wd Hy. rewrite Hh, length_insert. rewrite Hw in Hy.
      apply lookup_app_Some in Hy as [Hy|[_ Hy]]; [eapply J7, Hy|].
      destruct (y - length (widget_heap w)) as [|n]; [|destruct n; discriminate].
      injection Hy as <-. exact Hlt.
Qed.

Lemma ids_inv_adds adds : forall w xs w',
  ids_inv name w -> do_adds adds w = Some (Return xs w') -> ids_inv name w'.
Proof.
  induction adds as [|a adds IH]; intros w xs w' J H; cbn [do_adds] in H.
  - injection H as <- <-. exact J.
  - unfold mbind, M_bind, bind in H.
    destruct (do_add a w) as [[x w1|e w1]|] eqn:E; try discriminate.
    destruct (do_adds adds w1) as [[xs1 w2|e w2]|] eqn:E'; try discriminate.
    injection H as <- <-. apply (IH w1 xs1 w2); [|exact E'].
    destruct a as [config|r f]; cbn [do_add] in E.
    + eapply ids_inv_addScreen; eassumption.
    + eapply ids_inv_factory; eassumption.
Qed.
End Ids.

(** Once a screen has its title registered, no factory call changes the
    entry. *)
Lemma title_persists_add a w y w1 r s x :
  do_add a w = Some (Return y w1) ->
  screen_heap w !! r = Some s ->
  widgets s !! title_id (screenId s) = Some x ->
  exists s1, screen_heap w1 !! r = Some s1 /\ screenId s1 = screenId s
             /\ widgets s1 !! title_id (screenId s1) = Some x.
Proof.
  intros H Hs Hx. destruct a as [config|r' f]; cbn [do_add] in H.
  - rewrite Client_addScreen_run in H. injection H as <- <-. exists s.
    split; [now apply lookup_app_l_Some|split; [reflexivity|exact Hx]].
  - destruct (do_factory_valid f r' w _ H) as [s0 Hs0].
    destruct (do_factory_run f w r' s0 Hs0)
      as (x0 & w0 & s' & Hrun & Hh & _ & Hid & _ & Hf).
    rewrite Hrun in H. injection H as <- <-. rewrite Hh.
    destruct (decide (r' = r)) as [->|Hne].
    + assert (s0 = s) as -> by congruence. exists s'.
      split; [apply list_lookup_insert_eq; eapply lookup_lt_Some, Hs|split; [exact Hid|]].
      rewrite Hid. destruct (is_numbered f).
      * destruct Hf as (_ & _ & _ & ->).
        rewrite lookup_insert_ne; [exact Hx|apply widget_id_not_title].
      * destruct Hf as (_ & _ & Hf). rewrite Hx in Hf. now destruct Hf as (_ & _ & ->).
    + exists s. split; [now rewrite list_lookup_insert_ne|split; [reflexivity|exact Hx]].
Qed.

Lemma title_persists adds : forall w ys w' r s x,
  do_adds adds w = Some (Return ys w') ->
  screen_heap w !! r = Some s ->
  widgets s !! title_id (screenId s) = Some x ->
  exists s', screen_heap w' !! r = Some s' /\ screenId s' = screenId s
             /\ widgets s' !! title_id (screenId s') = Some x.
Proof.
  induction adds as [|a adds IH]; intros w ys w' r s x H Hs Hx; cbn [do_adds] in H.
  - injection H as <- <-. eauto.
  - unfold mbind, M_bind, bind in H.
    destruct (do_add a w) as [[y w1|e w1]|] eqn:E; try discriminate.
    destruct (do_adds adds w1) as [[ys1 w2|e w2]|] eqn:E'; try discriminate.
    injection H as <- <-.
    destruct (title_persists_add a w y w1 r s x E Hs Hx) as (s1 & Hs1 & Hid1 & Hx1).
    destruct (IH w1 ys1 w2 r s1 x E' Hs1 Hx1) as (s2 & Hs2 & Hid2 & Hx2).
    exists s2. split; [exact Hs2|split; [congruence|exact Hx2]].
Qed.

(** Every [addTitle] of a run returned what the screen's registry holds
    under the title id at the end. *)
Lemma title_results adds : forall w ys w' i r,
  do_adds adds w = Some (Return ys w') ->
  adds !! i = Some (AddTo r FTitle) ->
  exists s' y, screen_heap w' !! r = Some s' /\ ys !! i = Some y
               /\ widgets s' !! title_id (screenId s') = Some y.
Proof.
  induction adds as [|a adds IH]; intros w ys w' i r H Hi; [discriminate|].
  cbn [do_adds] in H. unfold mbind, M_bind, bind in H.
  destruct (do_add a w) as [[y w1|e w1]|] eqn:E; try discriminate.
  destruct (do_adds adds w1) as [[ys1 w2|e w2]|] eqn:E'; try discriminate.
  injection H as <- <-. destruct i as [|i]; cbn in Hi |- *.
  - injection Hi as ->. cbn [do_add do_factory] in E.
    destruct (do_factory_valid FTitle r w _ E) as [s Hs].
    destruct (do_factory_run FTitle w r s Hs)
      as (x0 & w0 & s1 & Hrun & Hh & _ & Hid & _ & _ & Hx & _).
    cbn [do_factory] in Hrun. rewrite Hrun in E. injection E as -> ->.
    assert (Hs1 : screen_heap w1 !! r = Some s1).
    { rewrite Hh. apply list_lookup_insert_eq. eapply lookup_lt_Some, Hs. }
    rewrite <- Hid in Hx.
    destruct (title_persists adds w1 ys1 w2 r s1 y E' Hs1 Hx) as (s2 & Hs2 & _ & Hx2).
    eauto.
  - eapply IH; eassumption.
Qed.

Lemma fmap_by_index {A B} (g : A -> B) (h : nat -> B) (l : list A) : forall k,
  (forall i a, l !! i = Some a -> g a = h (k + i)) ->
  g <$> l = h <$> seq k (length l).
Proof.
  induction l as [|a l IH]; intros k H; cbn; [reflexivity|]. f_equal.
  - rewrite (H 0 a eq_refl). f_equal. lia.
  - apply IH. intros i b Hb. rewrite (H (S i) b Hb). f_equal. lia.
Qed.

(** C6. After any sequence of [addScreen] and widget-factory calls on a new
    client: the ids of the screens, in the order of their construction, are
    [<clientName>_s0], [<clientName>_s1], ... and pairwise distinct; on
    every screen the ids of the numbered widgets, in the order of their
    construction, are [<screenId>_w0], [<screenId>_w1], ... and pairwise
    distinct; all [addTitle] calls on one screen returned one and the same
    handle, which is a title widget with the id [<screenId>_wTITLE]; and
    [addTitle] called twice in a row gives the same handle twice, the second
    call leaving the world, store and trace, as it is. *)
Theorem generated_ids_unique (config : obj) (adds : list add) (xs : list ref) (w : World) :
  do_adds adds (Client_new config) = Some (Return xs w) ->
  let name := client_name (Client_new config) in
  screenId <$> screen_heap w =
    (fun n => name +:+ "_s" +:+ pretty (N.of_nat n)) <$> seq 0 (length (screen_heap w))
  /\ NoDup (screenId <$> screen_heap w)
  /\ (forall r s, screen_heap w !! r = Some s ->
        widgetId <$> numbered w r =
          (fun n => screenId s +:+ "_w" +:+ pretty (N.of_nat n))
            <$> seq 0 (length (numbered w r))
        /\ NoDup (widgetId <$> numbered w r))
  /\ (forall i j r, adds !! i = Some (AddTo r FTitle) -> adds !! j = Some (AddTo r FTitle) ->
        is_Some (xs !! i) /\ xs !! i = xs !! j)
  /\ (forall i r x, adds !! i = Some (AddTo r FTitle) -> xs !! i = Some x ->
        exists wd s, widget_heap w !! x = Some wd /\ screen_heap w !! r = Some s
                     /\ widgetId wd = screenId s +:+ "_wTITLE"
                     /\ widget_class wd = TitleWidget /\ widget_screen wd = r)
  /\ (forall r x w1, Screen_addTitle r w = Some (Return x w1) ->
        Screen_addTitle r w1 = Some (Return x w1)).
Proof.
  intros H name.
  pose proof (ids_inv_adds name adds _ _ _ (ids_inv_new name config eq_refl) H)
    as [J1 J2 J3 J4 J5 J6 J7].
  assert (E1 : screenId <$> screen_heap w =
               (fun n => screen_id name (N.of_nat n)) <$> seq 0 (length (screen_heap w))).
  { apply fmap_by_index. intros i s Hs. now apply J3. }
  split; [exact E1|split; [|split; [|split; [|split]]]].
  - rewrite E1. apply NoDup_fmap_2; [|apply NoDup_seq].
    intros n m E. apply screen_id_inj in E. lia.
  - intros r s Hs. split; [exact (J5 r s Hs)|].
    rewrite (J5 r s Hs). apply NoDup_fmap_2; [|apply NoDup_seq].
    intros n m E. apply widget_id_inj in E. lia.
  - intros i j r Hi Hj.
    destruct (title_results adds _ _ _ i r H Hi) as (s1 & y1 & Hs1 & Hy1 & Hr1).
    destruct (title_results adds _ _ _ j r H Hj) as (s2 & y2 & Hs2 & Hy2 & Hr2).
    split; [eauto|]. rewrite Hy1, Hy2. congruence.
  - intros i r x Hi Hx.
    destruct (title_results adds _ _ _ i r H Hi) as (s1 & y1 & Hs1 & Hy1 & Hr1).
    assert (y1 = x) as -> by congruence.
    destruct (J6 r s1 x Hs1 Hr1) as (wd & Hwd & Hrest). exists wd, s1. auto.
  - intros r x w1 Hadd.
    destruct (do_factory_valid FTitle r w _ Hadd) as [s Hs].
    destruct (do_factory_run FTitle w r s Hs)
      as (x0 & w0 & s1 & Hrun & Hh & _ & Hid & _ & _ & Hx & _).
    cbn [do_factory] in Hrun. rewrite Hrun in Hadd. injection Hadd as <- <-.
    assert (Hs1 : screen_heap w0 !! r = Some s1).
    { rewrite Hh. apply list_lookup_insert_eq. eapply lookup_lt_Some, Hs. }
    rewrite (Screen_addTitle_run w0 r s1 Hs1), Hid, Hx. reflexivity.
Qed.

Lemma generated_ids_unique_witness :
  screenId <$> screen_heap (snd example_run) = ["lcdprocjs_s0"; "lcdprocjs_s1"]
  /\ NoDup (screenId <$> screen_heap (snd example_run))
  /\ fst example_run !! 2 = fst example_run !! 5.
Proof.
  destruct (generated_ids_unique [] example_adds (fst example_run) (snd example_run))
    as (H1 & H2 & _ & H4 & _).
  - vm_compute. reflexivity.
  - split; [exact H1|split; [exact H2|]].
    apply (H4 2 5 0); reflexivity.
Defined.

(** The ids and handles of that run. *)
Example example_run_ids :
  widgetId <$> widget_heap (snd example_run) =
    ["lcdprocjs_s0_w0"; "lcdprocjs_s0_wTITLE"; "lcdprocjs_s1_w0"; "lcdprocjs_s0_w1"]
  /\ fst example_run = [0; 0; 1; 1; 2; 1; 3].
Proof. split; reflexivity. Qed.

(** * Further properties *)

(** ** Strings, and the text on the wire *)

Lemma append_String c (a b : string) : String c a +:+ b = String c (a +:+ b).
Proof. reflexivity. Qed.

Lemma append_empty (b : string) : "" +:+ b = b.
Proof. reflexivity. Qed.

Lemma append_assoc (a b c : string) : (a +:+ b) +:+ c = a +:+ b +:+ c.
Proof. induction a as [|x a IH]; [reflexivity|]. now rewrite !append_String, IH. Qed.

Lemma append_nil_r (a : string) : a +:+ "" = a.
Proof. induction a as [|x a IH]; [reflexivity|]. now rewrite append_String, IH. Qed.

Lemma join_cons sep (x y : jsval) (r : list jsval) :
  join sep (x :: y :: r) = join_item x +:+ sep +:+ join sep (y :: r).
Proof. reflexivity. Qed.

Lemma join_one sep (x : jsval) : join sep [x] = join_item x.
Proof. reflexivity. Qed.

(** Joining more tokens: each adds a blank and its text. *)
Lemma join_app sep (l : list jsval) (x : jsval) :
  l <> [] -> join sep (l ++ [x]) = join sep l +:+ sep +:+ join_item x.
Proof.
  induction l as [|a l IH]; [congruence|]. intros _. destruct l as [|b l].
  - reflexivity.
  - change ((a :: b :: l) ++ [x]) with (a :: b :: (l ++ [x])).
    rewrite !join_cons. change (b :: l ++ [x]) with ((b :: l) ++ [x]).
    rewrite IH by discriminate. now rewrite !append_assoc.
Qed.



Lemma join_tokens (p : list jsval) : forall l,
  l <> [] -> join " " (l ++ p) = join " " l +:+ tokens_text p.
Proof.
  induction p as [|v p IH]; intros l Hl.
  - cbn [tokens_text]. now rewrite app_nil_r, append_nil_r.
  - change (l ++ v :: p) with (l ++ [v] ++ p). rewrite app_assoc, IH.
    + rewrite join_app by exact Hl. cbn [tokens_text]. now rewrite !append_assoc.
    + destruct l; discriminate.
Qed.

(** The line of a [widget_set] command. *)
Lemma widget_set_line (w : World) (this : ref) (x : Widget) (s : Screen) (p : list jsval) :
  trace (sent w this x s p) =
    trace w ++ [SocketWrite ("widget_set " +:+ screenId s +:+ " " +:+ widgetId x
                             +:+ tokens_text p +:+ LF)].
Proof.
  cbn [sent trace]. unfold wire. rewrite join_tokens by discriminate.
  rewrite !join_cons, join_one. cbn [join_item ToString]. now rewrite !append_assoc.
Qed.

(** ** The worlds of the examples *)

Ltac run_step c :=
  eapply rtc_l; [exists c; eexists; split; [vm_compute; reflexivity|reflexivity]|].

Lemma add_delete_reached : rtc step (Client_new []) add_delete.
Proof.
  eapply rtc_l; [exists (CallAddScreen []), (Return tt one_screen); split; reflexivity|].
  apply rtc_once. exists (CallDeleteScreen 0), (Return tt add_delete). split; reflexivity.
Defined.

Lemma add_delete_add_reached : rtc step (Client_new []) add_delete_add.
Proof.
  eapply rtc_r; [exact add_delete_reached|]. exists (CallAddScreen []), (Return tt add_delete_add). split; reflexivity.
Qed.

Lemma titled_world_reached : rtc step (Client_new []) titled_world.
Proof.
  run_step (CallAddScreen []). run_step (CallAddTitle 0). run_step (CallAddString 0).
  run_step (CallAddBigNumber 0). run_step (CallSetTitle 0 (JString "Clock")).
  apply rtc_refl.
Qed.

(** ** The client's configuration and the opening of a session *)



(** X2. The opening of a session, in any state of the client: when the
    socket is connected the client sends [hello]; when the answer, a chunk
    that begins with [connect], arrives, it sends [client_set -name
    {<name>}] with the configured name and then emits [ready].  On a new
    client, [connect], the socket's [connect] event and the answer leave
    exactly these four effects, in this order. *)
Theorem session_opening (config : obj) (chunk : string) (w : World) :
  is_connect chunk = true ->
  socket_on_connect w =
    Some (Return tt {| client := client w; screen_heap := screen_heap w;
                       widget_heap := widget_heap w;
                       trace := trace w ++ [SocketWrite ("hello" +:+ LF)] |})
  /\ (exists w', socket_on_data chunk w = Some (Return tt w')
        /\ trace w' = trace w ++
             [SocketWrite ("client_set -name {" +:+ client_name w +:+ "}" +:+ LF);
              Emit OnClient "ready"])
  /\ (exists w', (Client_connect;; socket_on_connect;; socket_on_data chunk)
                   (Client_new config) = Some (Return tt w')
        /\ trace w' =
             [SocketConnect (obj_get (client_config (client (Client_new config))) "port")
                            (obj_get (client_config (client (Client_new config))) "host");
              SocketWrite ("hello" +:+ LF);
              SocketWrite ("client_set -name {" +:+ client_name (Client_new config) +:+ "}"
                           +:+ LF);
              Emit OnClient "ready"]).
Proof.
  intros Hc.
  assert (Hline : forall v : World,
            wire [JString "client_set"; JString "-name";
                  quoteString (obj_get (client_config (client v)) "name")] =
            SocketWrite ("client_set -name {" +:+ client_name v +:+ "}" +:+ LF)).
  { intros v. unfold wire, client_name, quoteString. rewrite !join_cons, join_one.
    cbn [join_item ToString]. now rewrite !append_assoc. }
  split; [reflexivity|split].
  - rewrite (socket_on_data_connect chunk w Hc). eexists. split; [reflexivity|].
    cbn [trace]. now rewrite Hline.
  - unfold mbind, M_bind, bind. unfold Client_connect at 1.
    unfold mbind, M_bind, bind, get_client, perform, update.
    unfold socket_on_connect, Client_write, perform, update.
    rewrite socket_on_data_connect by exact Hc. eexists. split; [reflexivity|].
    cbn [trace client client_config app]. rewrite (Hline (Client_new config)).
    reflexivity.
Qed.

Lemma session_opening_witness :
  exists w', (Client_connect;; socket_on_connect;; socket_on_data handshake_line)
               (Client_new [("name", JString "clock")]) = Some (Return tt w')
    /\ trace w' =
         [SocketConnect (JNumber 13666) (JString "localhost");
          SocketWrite ("hello" +:+ LF);
          SocketWrite ("client_set -name {clock}" +:+ LF);
          Emit OnClient "ready"].
Proof.
  destruct (session_opening [("name", JString "clock")] handshake_line (Client_new [])
              eq_refl) as (_ & _ & w' & H & T).
  exists w'. split; [exact H|exact T].
Defined.

(** ** Chunks as the socket delivers them *)

Lemma trimStart_space (b : string) : all_space b = true -> trimStart b = "".
Proof.
  induction b as [|c b IH]; [reflexivity|]. cbn [all_space trimStart].
  intros [Hc Hb]%andb_true_iff. now rewrite Hc, IH.
Qed.

Lemma trimStart_app_space (a s : string) :
  all_space a = true -> trimStart (a +:+ s) = trimStart s.
Proof.
  induction a as [|c a IH]; [reflexivity|]. cbn [all_space].
  intros [Hc Ha]%andb_true_iff. rewrite append_String. cbn [trimStart].
  now rewrite Hc, IH.
Qed.

Lemma trimEnd_space (b : string) : all_space b = true -> trimEnd b = "".
Proof.
  induction b as [|c b IH]; [reflexivity|]. cbn [all_space trimEnd].
  intros [Hc Hb]%andb_true_iff. now rewrite IH, Hc.
Qed.

Lemma trimEnd_app_space (s b : string) :
  all_space b = true -> trimEnd (s +:+ b) = trimEnd s.
Proof.
  intros Hb. induction s as [|c s IH].
  - rewrite append_empty. now apply trimEnd_space.
  - rewrite append_String. cbn [trimEnd]. now rewrite IH.
Qed.

Lemma trim_app_space (a s b : string) :
  all_space a = true -> all_space b = true -> trim (a +:+ s +:+ b) = trim s.
Proof.
  intros Ha Hb. unfold trim. rewrite trimStart_app_space by exact Ha. clear a Ha.
  induction s as [|c s IH].
  - rewrite append_empty, trimStart_space by exact Hb. reflexivity.
  - rewrite append_String. cbn [trimStart]. destruct (is_space c); [exact IH|].
    rewrite <- append_String. now apply trimEnd_app_space.
Qed.

(** X3. The data handler looks at the chunk without the white space around
    it: white space (blanks, tabs, line ends) before and after a chunk
    changes nothing of what the handler does. *)
Theorem data_handler_trims (a chunk b : string) (w : World) :
  all_space a = true -> all_space b = true ->
  socket_on_data (a +:+ chunk +:+ b) w = socket_on_data chunk w.
Proof.
  intros Ha Hb. unfold socket_on_data. now rewrite (trim_app_space a chunk b Ha Hb).
Qed.

Lemma data_handler_trims_witness :
  socket_on_data ("  " +:+ "listen lcdprocjs_s0" +:+ String "013" LF) one_screen =
  socket_on_data "listen lcdprocjs_s0" one_screen.
Proof. apply data_handler_trims; reflexivity. Defined.

(** ** The parameters of a [connect] line *)

Ltac switch_field key :=
  let a := fresh "a" in let l := fresh "l" in let IH := fresh "IH" in
  let i := fresh "i" in let c := fresh "c" in let E := fresh "E" in
  intros l; induction l as [|a l IH]; intros i c; [reflexivity|];
  cbn [connect_fold last_index_from]; rewrite IH;
  destruct (last_index_from key (S i) l); [reflexivity|];
  destruct (String.eqb_spec a key) as [->|E]; [reflexivity|];
  unfold connect_switch;
  repeat match goal with
         | |- context [String.eqb a ?k] =>
             destruct (String.eqb_spec a k); [first [reflexivity|congruence]|]
         end;
  reflexivity.

Section ConnectFold.
Variable params : list string.

Lemma version_fold : forall l i c,
  version (connect_fold params i l c) =
    match last_index_from "LCDproc" i l with
    | Some j => array_get params (j + 1)
    | None => version c
    end.
Proof. switch_field "LCDproc". Qed.

Lemma protocol_fold : forall l i c,
  protocol (connect_fold params i l c) =
    match last_index_from "protocol" i l with
    | Some j => array_get params (j + 1)
    | None => protocol c
    end.
Proof. switch_field "protocol". Qed.

Lemma width_fold : forall l i c,
  width (size (connect_fold params i l c)) =
    match last_index_from "wid" i l with
    | Some j => ToNumber (array_get params (j + 1))
    | None => width (size c)
    end.
Proof. switch_field "wid". Qed.

Lemma height_fold : forall l i c,
  height (size (connect_fold params i l c)) =
    match last_index_from "hgt" i l with
    | Some j => ToNumber (array_get params (j + 1))
    | None => height (size c)
    end.
Proof. switch_field "hgt". Qed.

Lemma cellwidth_fold : forall l i c,
  width (cellsize (connect_fold params i l c)) =
    match last_index_from "cellwid" i l with
    | Some j => ToNumber (array_get params (j + 1))
    | None => width (cellsize c)
    end.
Proof. switch_field "cellwid". Qed.

Lemma cellheight_fold : forall l i c,
  height (cellsize (connect_fold params i l c)) =
    match last_index_from "cellhgt" i l with
    | Some j => ToNumber (array_get params (j + 1))
    | None => height (cellsize c)
    end.
Proof. switch_field "cellhgt". Qed.
End ConnectFold.

(** X4. How a [connect] line is read.  The line is cut at the blanks, and
    each of the six capabilities is taken from the token that follows the
    last occurrence of its key ([LCDproc], [protocol], [wid], [hgt],
    [cellwid], [cellhgt]), wherever the key stands in the line and in
    whatever order the keys come: the version and the protocol version as
    the strings they are, the four sizes converted to numbers.  A key that
    is the last token gives [undefined], as a number NaN; a capability whose
    key does not occur keeps the value it had. *)
Theorem connect_line_parsed (chunk : string) (w : World) :
  is_connect chunk = true ->
  let params := split_on " " (trim chunk) in
  let old := lcdprocConfig (client w) in
  exists w',
    socket_on_data chunk w = Some (Return tt w')
    /\ version (lcdprocConfig (client w')) = default (version old) (after_last "LCDproc" params)
    /\ protocol (lcdprocConfig (client w')) =
         default (protocol old) (after_last "protocol" params)
    /\ width (size (lcdprocConfig (client w'))) =
         default (width (size old)) (ToNumber <$> after_last "wid" params)
    /\ height (size (lcdprocConfig (client w'))) =
         default (height (size old)) (ToNumber <$> after_last "hgt" params)
    /\ width (cellsize (lcdprocConfig (client w'))) =
         default (width (cellsize old)) (ToNumber <$> after_last "cellwid" params)
    /\ height (cellsize (lcdprocConfig (client w'))) =
         default (height (cellsize old)) (ToNumber <$> after_last "cellhgt" params).
Proof.
  intros Hc params old. rewrite (socket_on_data_connect chunk w Hc). eexists.
  split; [reflexivity|]. cbn [client lcdprocConfig]. fold params. fold old.
  rewrite version_fold, protocol_fold, width_fold, height_fold, cellwidth_fold,
    cellheight_fold.
  unfold after_last.
  repeat split; match goal with |- context [last_index_from ?k 0 params] =>
                  destruct (last_index_from k 0 params); reflexivity end.
Qed.

Lemma connect_line_parsed_witness :
  exists w',
    socket_on_data "connect hgt 2 wid 16 protocol 0.3 wid 20 cellwid" demo_world =
      Some (Return tt w')
    /\ lcdprocConfig (client w') =
         {| version := JString "0.5.7"; protocol := JString "0.3";
            size := {| width := 20; height := 2 |};
            cellsize := {| width := nan; height := 8 |} |}.
Proof.
  destruct (connect_line_parsed "connect hgt 2 wid 16 protocol 0.3 wid 20 cellwid"
              demo_world eq_refl) as (w' & H & H1 & H2 & H3 & H4 & H5 & H6).
  exists w'. split; [exact H|].
  destruct (lcdprocConfig (client w')) as [v p [sw sh] [cw ch]].
  cbn in H1, H2, H3, H4, H5, H6. now subst.
Defined.

(** ** The messages of a chunk *)

(** Splitting what was joined. *)
Lemma split_on_no_sep (sep : ascii) (l : string) :
  has_char sep l = false -> split_on sep l = [l].
Proof.
  induction l as [|c l IH]; [reflexivity|]. cbn [has_char split_on].
  intros [Hc Hl]%orb_false_iff. now rewrite Hc, IH.
Qed.

Lemma split_on_app (sep : ascii) (l rest : string) :
  has_char sep l = false ->
  split_on sep (l +:+ String sep rest) = l :: split_on sep rest.
Proof.
  induction l as [|c l IH]; intros H.
  - rewrite append_empty. cbn [split_on]. now rewrite Ascii.eqb_refl.
  - cbn [has_char] in H. apply orb_false_iff in H as [Hc Hl].
    rewrite append_String. cbn [split_on]. now rewrite Hc, IH.
Qed.

Lemma join_lines_cons (l l' : string) (ls : list string) :
  join_lines (l :: l' :: ls) = l +:+ String "010" (join_lines (l' :: ls)).
Proof. reflexivity. Qed.

Lemma split_join_lines (ls : list string) :
  ls <> [] -> Forall (fun l => has_char "010" l = false) ls ->
  split_on "010" (join_lines ls) = ls.
Proof.
  induction ls as [|l ls IH]; [congruence|]. intros _ H.
  apply Forall_cons in H as [Hl Hls]. destruct ls as [|l' ls].
  - now apply split_on_no_sep.
  - rewrite join_lines_cons, split_on_app by exact Hl. f_equal. now apply IH.
Qed.

Lemma prefix_starts_with (t s : string) : String.prefix t s = starts_with t s.
Proof.
  revert s. induction t as [|a t IH]; intros [|b s]; try reflexivity.
  cbn [String.prefix starts_with]. destruct (ascii_dec a b) as [->|Hne].
  - now rewrite Ascii.eqb_refl, IH.
  - apply Ascii.eqb_neq in Hne. now rewrite Hne.
Qed.

Lemma indexOf_is_0_starts_with (t s : string) : indexOf_is_0 t s = starts_with t s.
Proof.
  unfold indexOf_is_0. destruct s as [|b s].
  - now destruct t.
  - cbn [index]. rewrite prefix_starts_with.
    destruct (starts_with t (String b s)); [reflexivity|].
    now destruct (index 0 t s).
Qed.

Lemma starts_with_app_sep (t l rest : string) (c : ascii) :
  has_char c t = false -> starts_with t l = false ->
  starts_with t (l +:+ String c rest) = false.
Proof.
  revert l. induction t as [|a t IH]; intros l Hc Hl; [discriminate|].
  cbn [has_char] in Hc. apply orb_false_iff in Hc as [Hac Hc].
  destruct l as [|b l].
  - rewrite append_empty. cbn [starts_with]. now rewrite Hac.
  - rewrite append_String. cbn [starts_with] in Hl |- *.
    destruct (Ascii.eqb a b); [|reflexivity]. cbn in Hl |- *. now apply IH.
Qed.

Lemma trimStart_plain (l r : string) : starts_plain l = true -> trimStart (l +:+ r) = l +:+ r.
Proof.
  destruct l as [|c l]; [discriminate|]. cbn [starts_plain]. intros H.
  rewrite append_String. cbn [trimStart]. now apply negb_true_iff in H as ->.
Qed.

Lemma trimEnd_plain (l : string) : ends_plain l = true -> trimEnd l = l /\ l <> "".
Proof.
  induction l as [|c l IH]; [discriminate|]. intros H. split; [|discriminate].
  destruct l as [|d l].
  - cbn [ends_plain] in H. cbn [trimEnd]. now apply negb_true_iff in H as ->.
  - change (ends_plain (String d l) = true) in H. destruct (IH H) as [E _].
    change (trimEnd (String c (String d l)))
      with (match trimEnd (String d l) with
            | "" => if is_space c then "" else String c ""
            | r' => String c r'
            end).
    now rewrite E.
Qed.

Lemma trimEnd_app_plain (a l : string) : ends_plain l = true -> trimEnd (a +:+ l) = a +:+ l.
Proof.
  intros H. destruct (trimEnd_plain l H) as [E Hne]. induction a as [|c a IH].
  - now rewrite append_empty.
  - rewrite append_String.
    change (trimEnd (String c (a +:+ l)))
      with (match trimEnd (a +:+ l) with
            | "" => if is_space c then "" else String c ""
            | r' => String c r'
            end).
    rewrite IH. destruct (a +:+ l) eqn:Ea; [|reflexivity].
    destruct a; [rewrite append_empty in Ea; congruence|discriminate].
Qed.

Lemma message_line_parts (l : string) :
  message_line l = true ->
  starts_plain l = true /\ ends_plain l = true /\ has_char "010" l = false
  /\ starts_with "connect" l = false.
Proof.
  unfold message_line. rewrite indexOf_is_0_starts_with.
  intros [[[H1 H2]%andb_true_iff H3%negb_true_iff]%andb_true_iff H4%negb_true_iff]%andb_true_iff.
  auto.
Qed.

(** A chunk of messages, as the handler reads it. *)
Lemma join_lines_read (ls : list string) :
  ls <> [] -> Forall (fun l => message_line l = true) ls ->
  trim (join_lines ls) = join_lines ls
  /\ indexOf_is_0 "connect" (join_lines ls) = false
  /\ split_on "010" (join_lines ls) = ls.
Proof.
  intros Hne H. split; [|split].
  - unfold trim.
    assert (Hs : trimStart (join_lines ls) = join_lines ls).
    { destruct ls as [|l [|l' ls]]; [congruence| |].
      - apply Forall_cons in H as [(H1 & _)%message_line_parts _].
        change (join_lines [l]) with l. rewrite <- (append_nil_r l).
        now apply trimStart_plain.
      - apply Forall_cons in H as [(H1 & _)%message_line_parts _].
        rewrite join_lines_cons. now apply trimStart_plain. }
    rewrite Hs. clear Hs. induction ls as [|l ls IH]; [congruence|].
    apply Forall_cons in H as [Hl H]. destruct ls as [|l' ls].
    + apply message_line_parts in Hl as (_ & H2 & _). now apply trimEnd_plain.
    + rewrite join_lines_cons.
      assert (E : trimEnd (join_lines (l' :: ls)) = join_lines (l' :: ls))
        by (apply IH; [discriminate|exact H]).
      assert (Hn : join_lines (l' :: ls) <> "").
      { apply Forall_cons in H as [(H1 & _)%message_line_parts _].
        destruct l' as [|c l']; [discriminate|]. destruct ls; discriminate. }
      clear IH H Hl Hne. generalize dependent (join_lines (l' :: ls)). intros r E Hn.
      induction l as [|c l IHl].
      * rewrite append_empty.
        change (trimEnd (String "010" r))
          with (match trimEnd r with
                | "" => if is_space "010" then "" else String "010" ""
                | r' => String "010" r'
                end).
        rewrite E. now destruct r.
      * rewrite append_String.
        change (trimEnd (String c (l +:+ String "010" r)))
          with (match trimEnd (l +:+ String "010" r) with
                | "" => if is_space c then "" else String c ""
                | r' => String c r'
                end).
        rewrite IHl. destruct l; [rewrite append_empty|rewrite append_String]; reflexivity.
  - rewrite indexOf_is_0_starts_with.
    destruct ls as [|l [|l' ls]]; [congruence| |];
      apply Forall_cons in H as [(_ & _ & _ & H4)%message_line_parts _]; [exact H4|].
    rewrite join_lines_cons. now apply starts_with_app_sep.
  - apply split_join_lines; [exact Hne|].
    eapply Forall_impl; [exact H|]. intros l Hl. now apply message_line_parts in Hl.
Qed.

Lemma socket_on_data_lines (ls : list string) (w : World) :
  ls <> [] -> Forall (fun l => message_line l = true) ls ->
  socket_on_data (join_lines ls) w = forEach on_message ls w.
Proof.
  intros Hne H. destruct (join_lines_read ls Hne H) as (E1 & E2 & E3).
  unfold socket_on_data. now rewrite E1, E2, E3.
Qed.

Lemma socket_on_data_line (l : string) (w : World) :
  message_line l = true -> socket_on_data l w = forEach on_message [l] w.
Proof.
  intros H. apply (socket_on_data_lines [l] w); [discriminate|]. now constructor.
Qed.

(** X5. It makes no difference whether messages of the server arrive
    together in one chunk or each in a chunk of its own: for messages that
    are lines without white space around them and do not begin with
    [connect], the handler does to the chunk that holds them all, one per
    line, what it does to the messages handled one after the other; an
    exception at one message ends both runs there.  A line feed after the
    last message changes nothing. *)
Theorem messages_in_one_chunk_or_many (ls : list string) (w : World) :
  Forall (fun l => message_line l = true) ls ->
  socket_on_data (join_lines ls) w = deliver ls w
  /\ socket_on_data (join_lines ls +:+ LF) w = deliver ls w.
Proof.
  intros H.
  assert (E : socket_on_data (join_lines ls) w = deliver ls w).
  { destruct ls as [|l0 ls0]; [reflexivity|].
    rewrite socket_on_data_lines by (discriminate || exact H).
    unfold deliver, forEach. generalize 0 at 1 as i. generalize 0 as j.
    revert w. induction (l0 :: ls0) as [|l ls IH]; intros w j i; [reflexivity|].
    apply Forall_cons in H as [Hl H]. cbn [forEach_from].
    unfold mbind, M_bind, bind. rewrite (socket_on_data_line l w Hl).
    unfold forEach. cbn [forEach_from]. unfold mbind, M_bind, bind, ret.
    change (on_message l 0 w) with (on_message l i w).
    destruct (on_message l i w) as [[[] w1|e w1]|]; [|reflexivity|reflexivity].
    now apply IH. }
  split; [exact E|]. rewrite <- E.
  apply (data_handler_trims "" (join_lines ls) LF w); reflexivity.
Qed.

Lemma messages_in_one_chunk_or_many_witness :
  socket_on_data (join_lines ["listen lcdprocjs_s0"; "success"; "ignore lcdprocjs_s0"] +:+ LF)
                 one_screen =
  deliver ["listen lcdprocjs_s0"; "success"; "ignore lcdprocjs_s0"] one_screen.
Proof.
  apply messages_in_one_chunk_or_many. repeat constructor.
Defined.

(** The parts of a line the handler looks at, whatever its seventh
    character is. *)
Lemma listen_line_any (c : ascii) (id : string) :
  String.eqb ("listen" +:+ String c id) "success" = false
  /\ substring2 0 6 ("listen" +:+ String c id) = "listen"
  /\ substring1 7 ("listen" +:+ String c id) = id.
Proof.
  repeat split. unfold substring1.
  change (String.length ("listen" +:+ String c id)) with (7 + String.length id)%nat.
  replace (7 + String.length id - 7)%nat with (String.length id) by lia.
  apply substring_all.
Qed.

Lemma ignore_line_any (c : ascii) (id : string) :
  String.eqb ("ignore" +:+ String c id) "success" = false
  /\ substring2 0 6 ("ignore" +:+ String c id) = "ignore"
  /\ substring1 7 ("ignore" +:+ String c id) = id.
Proof.
  repeat split. unfold substring1.
  change (String.length ("ignore" +:+ String c id)) with (7 + String.length id)%nat.
  replace (7 + String.length id - 7)%nat with (String.length id) by lia.
  apply substring_all.
Qed.

(** X6. Which lines of a chunk the handler reads.  A line [success] and
    every line whose first six characters are neither [listen] nor [ignore]
    (the server's error replies, key and menu events) are passed over
    without any effect.  Of a [listen] or [ignore] line the handler reads
    the first six characters and the text from the eighth character on: the
    seventh character is not looked at, so that [listen_<id>] is handled as
    [listen <id>] is. *)
Theorem lines_the_handler_reads (l id : string) (c : ascii) (i : nat) (w : World) :
  on_message "success" i w = Some (Return tt w)
  /\ (substring2 0 6 l <> "listen" -> substring2 0 6 l <> "ignore" ->
      on_message l i w = Some (Return tt w))
  /\ on_message ("listen" +:+ String c id) i w = on_message ("listen " +:+ id) i w
  /\ on_message ("ignore" +:+ String c id) i w = on_message ("ignore " +:+ id) i w.
Proof.
  split; [reflexivity|]. split; [|split].
  - intros H1 H2. unfold on_message.
    destruct (String.eqb l "success"); [reflexivity|].
    apply String.eqb_neq in H1, H2. now rewrite H1, H2.
  - unfold on_message.
    destruct (listen_line_any c id) as (-> & -> & ->).
    destruct (listen_line id) as (-> & -> & ->). reflexivity.
  - unfold on_message.
    destruct (ignore_line_any c id) as (-> & -> & ->).
    destruct (ignore_line id) as (-> & -> & ->). reflexivity.
Qed.

(** ** The store in every state *)

Lemma screen_kept_refl s : screen_kept s s.
Proof. split; [|split]; reflexivity. Qed.

Lemma widget_kept_refl x : widget_kept x x.
Proof. repeat split. Qed.

Lemma Forall2_refl {A} (R : A -> A -> Prop) (l : list A) :
  (forall a, R a a) -> Forall2 R l l.
Proof. intros H. induction l; constructor; auto. Qed.

Lemma Forall2_insert_r {A} (R : A -> A -> Prop) (l : list A) (i : nat) (a b : A) :
  (forall a, R a a) -> l !! i = Some a -> R a b -> Forall2 R l (<[i := b]> l).
Proof.
  intros Hr Ha Hab. rewrite <- (list_insert_id l i a Ha) at 1.
  apply Forall2_insert; [now apply Forall2_refl|exact Hab].
Qed.

Lemma kept_refl w : kept w w.
Proof.
  split; try reflexivity.
  - apply Forall2_refl, screen_kept_refl.
  - apply Forall2_refl, widget_kept_refl.
Qed.

Lemma numbered_kept (l l' : list Widget) (r : nat) :
  Forall2 widget_kept l l' ->
  widgetId <$> List.filter (fun x => Nat.eqb (widget_screen x) r && negb (is_title x)) l' =
  widgetId <$> List.filter (fun x => Nat.eqb (widget_screen x) r && negb (is_title x)) l.
Proof.
  induction 1 as [|x x' l l' (Hc & Hs & Hi) _ IH]; [reflexivity|].
  cbn [List.filter]. unfold is_title at 1 3. rewrite Hc, Hs.
  destruct (_ && _); cbn; [now rewrite Hi, IH|exact IH].
Qed.

Lemma store_inv_kept name w w' : kept w w' -> store_inv name w -> store_inv name w'.
Proof.
  intros [K1 K2 K3 K4 K5] [[J1 J2 J3 J4 J5 J6 J7] [R1 R2]].
  assert (Hs : forall r s', screen_heap w' !! r = Some s' ->
            exists s, screen_heap w !! r = Some s /\ screen_kept s s').
  { intros r s' H. destruct (Forall2_lookup_r _ _ _ _ _ K4 H) as (s & ? & ?). eauto. }
  assert (Hx : forall x wd, widget_heap w !! x = Some wd ->
            exists wd', widget_heap w' !! x = Some wd' /\ widget_kept wd wd').
  { intros x wd H. destruct (Forall2_lookup_l _ _ _ _ _ K5 H) as (wd' & ? & ?). eauto. }
  assert (Hn : forall r, widgetId <$> numbered w' r = widgetId <$> numbered w r).
  { intros r. apply numbered_kept, K5. }
  assert (Hl : forall r, length (numbered w' r) = length (numbered w r)).
  { intros r. rewrite <- (length_fmap widgetId), Hn. apply length_fmap. }
  split; split.
  - congruence.
  - rewrite K2, J2. f_equal. apply (Forall2_length _ _ _ K4).
  - intros r s' H. destruct (Hs r s' H) as (s & H0 & E & _). rewrite E. now apply J3.
  - intros r s' H. destruct (Hs r s' H) as (s & H0 & _ & E & _). rewrite E, Hl. now apply J4.
  - intros r s' H. destruct (Hs r s' H) as (s & H0 & E & _). rewrite Hn, Hl, E. now apply J5.
  - intros r s' x H Ht. destruct (Hs r s' H) as (s & H0 & E & _ & Hsub).
    rewrite E in Ht |- *. eapply lookup_weaken in Ht; [|exact Hsub].
    destruct (J6 r s x H0 Ht) as (wd & Hwd & Hid & Hcl & Hsc).
    destruct (Hx x wd Hwd) as (wd' & Hwd' & Ec & Es & Ei).
    exists wd'. split; [exact Hwd'|]. split; [congruence|]. split; congruence.
  - intros x wd' H. destruct (Forall2_lookup_r _ _ _ _ _ K5 H) as (wd & H0 & _ & Es & _).
    rewrite Es, <- (Forall2_length _ _ _ K4). eapply J7, H0.
  - intros id r H. eapply lookup_weaken in H; [|exact K3].
    destruct (R1 id r H) as (s & H0 & E).
    destruct (Forall2_lookup_l _ _ _ _ _ K4 H0) as (s' & H1 & E' & _).
    exists s'. split; [exact H1|congruence].
  - intros r s' id x H Hw. destruct (Hs r s' H) as (s & H0 & _ & _ & Hsub).
    eapply lookup_weaken in Hw; [|exact Hsub].
    destruct (R2 r s id x H0 Hw) as (wd & Hwd & Hid & Hsc).
    destruct (Hx x wd Hwd) as (wd' & Hwd' & _ & Es & Ei).
    exists wd'. split; [exact Hwd'|]. split; congruence.
Qed.

(** [store_inv] is kept by every method. *)
Section Store.
Variable name : string.

Lemma store_update f : (forall w, kept w (f w)) -> preserves (store_inv name) (update f).
Proof. intros Hf. apply preserves_update. intros w. apply store_inv_kept, Hf. Qed.

Lemma store_perform e : preserves (store_inv name) (perform e).
Proof. apply store_update. intros w. destruct (kept_refl w). now split. Qed.

Lemma store_write args : preserves (store_inv name) (Client_write args).
Proof. apply store_perform. Qed.

Lemma store_set_lcdprocConfig f : preserves (store_inv name) (set_lcdprocConfig f).
Proof. apply store_update. intros w. destruct (kept_refl w). now split. Qed.

Lemma store_unrefScreen id : preserves (store_inv name) (Client_unrefScreen id).
Proof.
  apply store_update. intros w. destruct (kept_refl w). split; try assumption.
  apply delete_subseteq.
Qed.

Lemma store_modify_screen r f :
  (forall s, screen_kept s (f s)) -> preserves (store_inv name) (modify_screen r f).
Proof.
  intros Hf w o HP H. unfold modify_screen, mbind, M_bind, bind, get_screen, update in H.
  destruct (screen_heap w !! r) as [s|] eqn:E; [|discriminate]. injection H as <-.
  revert HP. apply store_inv_kept. destruct (kept_refl w). split; try assumption.
  cbn. eapply Forall2_insert_r; [apply screen_kept_refl|exact E|apply Hf].
Qed.

Lemma store_modify_widget r f :
  (forall x, widget_kept x (f x)) -> preserves (store_inv name) (modify_widget r f).
Proof.
  intros Hf w o HP H. unfold modify_widget, mbind, M_bind, bind, get_widget, update in H.
  destruct (widget_heap w !! r) as [x|] eqn:E; [|discriminate]. injection H as <-.
  revert HP. apply store_inv_kept. destruct (kept_refl w). split; try assumption.
  cbn. eapply Forall2_insert_r; [apply widget_kept_refl|exact E|apply Hf].
Qed.

Lemma reg_inv_addScreen w config x w' :
  reg_inv w -> Client_addScreen config w = Some (Return x w') -> reg_inv w'.
Proof.
  intros [R1 R2] H. rewrite Client_addScreen_run in H. injection H as <- <-.
  split; cbn [client screens screen_heap widget_heap].
  - intros id r H. apply lookup_insert_Some in H as [[<- <-]|[Hne H]].
    + eexists. split; [apply lookup_last|reflexivity].
    + destruct (R1 id r H) as (s & Hs & E). exists s. split; [|exact E].
      now apply lookup_app_l_Some.
  - intros r s id y Hs Hy. apply lookup_app_Some in Hs as [Hs|[_ Hs]].
    + eapply R2; eassumption.
    + destruct (r - length (screen_heap w)) as [|n]; [|destruct n; discriminate].
      injection Hs as <-. cbn in Hy. rewrite lookup_empty in Hy. discriminate.
Qed.

Lemma store_addScreen config : preserves (store_inv name) (Client_addScreen config).
Proof.
  intros w o [J R] H. pose proof H as H'. rewrite Client_addScreen_run in H'.
  injection H' as <-. rewrite Client_addScreen_run in H. cbn [outcome_world].
  rewrite <- Client_addScreen_run in H. split.
  - eapply ids_inv_addScreen; eassumption.
  - eapply reg_inv_addScreen; eassumption.
Qed.

Lemma reg_inv_factory w f this x w' :
  reg_inv w -> do_factory f this w = Some (Return x w') -> reg_inv w'.
Proof.
  intros [R1 R2] H. destruct (do_factory_valid f this w _ H) as [s Hs].
  destruct (do_factory_run f w this s Hs) as (x0 & w0 & s' & Hrun & Hh & Hc & Hid & _ & Hf).
  rewrite Hrun in H. injection H as <- <-.
  assert (Hnew : exists id,
            (w0 = w /\ s' = s)
            \/ (exists wd, widget_heap w0 = widget_heap w ++ [wd] /\ widgetId wd = id
                           /\ widget_screen wd = this
                           /\ widgets s' = <[id := length (widget_heap w)]> (widgets s))).
  { destruct (is_numbered f).
    - destruct Hf as (_ & -> & Hw & Hreg). eexists. right. eexists.
      split; [exact Hw|]. split; [reflexivity|]. split; [reflexivity|exact Hreg].
    - destruct Hf as (_ & _ & Hf). destruct (widgets s !! title_id (screenId s)).
      + destruct Hf as (_ & -> & ->). exists "". now left.
      + destruct Hf as (-> & Hw & Hreg). eexists. right. eexists.
        split; [exact Hw|]. split; [reflexivity|]. split; [reflexivity|exact Hreg]. }
  destruct Hnew as (id & [[-> ->]|(wd & Hw & Hwid & Hwsc & Hreg)]); [now split|].
  split.
  - rewrite Hc. intros id0 r H. destruct (R1 id0 r H) as (s0 & Hs0 & E). rewrite Hh.
    destruct (decide (this = r)) as [<-|Hne].
    + exists s'. split; [apply list_lookup_insert_eq; eapply lookup_lt_Some, Hs|].
      congruence.
    + exists s0. split; [now rewrite list_lookup_insert_ne|exact E].
  - intros r s0 id0 y Hs0 Hy. rewrite Hh in Hs0. rewrite Hw.
    apply list_lookup_insert_Some in Hs0 as [(<- & <- & _)|[Hne Hs0]].
    + rewrite Hreg in Hy. apply lookup_insert_Some in Hy as [[<- <-]|[Hne Hy]].
      * exists wd. split; [apply lookup_last|]. split; [exact Hwid|exact Hwsc].
      * destruct (R2 this s id0 y Hs Hy) as (wd0 & Hwd0 & Hrest).
        exists wd0. split; [now apply lookup_app_l_Some|exact Hrest].
    + destruct (R2 r s0 id0 y Hs0 Hy) as (wd0 & Hwd0 & Hrest).
      exists wd0. split; [now apply lookup_app_l_Some|exact Hrest].
Qed.

Lemma store_factory f this : preserves (store_inv name) (do_factory f this).
Proof.
  intros w o [J R] H. destruct (do_factory_valid f this w _ H) as [s Hs].
  destruct (do_factory_run f w this s Hs) as (x0 & w0 & s' & Hrun & _).
  rewrite Hrun in H. injection H as <-. cbn [outcome_world]. split.
  - eapply ids_inv_factory; eassumption.
  - eapply reg_inv_factory; eassumption.
Qed.
End Store.

Ltac preserves_store :=
  repeat (intros; cbv zeta;
    lazymatch goal with
    | |- preserves _ (mbind _ _) => apply preserves_bind
    | |- preserves _ (ret _) => apply preserves_ret
    | |- preserves _ (throw _) => apply preserves_throw
    | |- preserves _ dangling => apply preserves_dangling
    | |- preserves _ get_client => apply preserves_get_client
    | |- preserves _ (get_screen _) => apply preserves_get_screen
    | |- preserves _ (get_widget _) => apply preserves_get_widget
    | |- preserves _ (perform _) => apply store_perform
    | |- preserves _ (Client_write _) => apply store_write
    | |- preserves _ (modify_widget _ _) =>
        apply store_modify_widget; intros; repeat split
    | |- preserves _ (modify_screen _ _) =>
        apply store_modify_screen; intros; repeat split;
        first [reflexivity | apply delete_subseteq]
    | |- preserves _ (set_lcdprocConfig _) => apply store_set_lcdprocConfig
    | |- preserves _ (Client_unrefScreen _) => apply store_unrefScreen
    | |- preserves _ (Client_addScreen _) => apply store_addScreen
    | |- preserves _ (Screen_addWidget ?s ?t) => apply (store_factory _ (FWidget t) s)
    | |- preserves _ (Screen_addString ?s) => apply (store_factory _ FString s)
    | |- preserves _ (Screen_addHorizontalBar ?s) => apply (store_factory _ FHorizontalBar s)
    | |- preserves _ (Screen_addVerticalBar ?s) => apply (store_factory _ FVerticalBar s)
    | |- preserves _ (Screen_addIcon ?s) => apply (store_factory _ FIcon s)
    | |- preserves _ (Screen_addBigNumber ?s) => apply (store_factory _ FBigNumber s)
    | |- preserves _ (Screen_addTitle ?s) => apply (store_factory _ FTitle s)
    | |- preserves _ (forEach_from _ _ _) => apply preserves_forEach
    | |- preserves _ (match ?x with _ => _ end) => destruct x
    | |- preserves _ ?m => let h := head_of m in unfold h
    end).

Lemma do_call_store name c : preserves (store_inv name) (do_call c).
Proof. destruct c; cbn [do_call]; preserves_store. Qed.

Lemma steps_store name w w' : rtc step w w' -> store_inv name w -> store_inv name w'.
Proof.
  induction 1 as [|w w1 w2 (c & o & H & ->) _ IH]; [auto|].
  intros HP. apply IH. exact (do_call_store name c w o HP H).
Qed.

Lemma store_inv_new config :
  store_inv (client_name (Client_new config)) (Client_new config).
Proof.
  split; [now apply ids_inv_new|]. split; intros; discriminate.
Qed.

(** X7. In every state the client goes through, whatever was called,
    deleted or received: the screens ever constructed have, in the order of
    their construction, the ids [<name>_s0], [<name>_s1], ..., one for each
    value the client's counter has had, so that no two of them share an id
    and the id of a deleted screen is never given to a later one; the same
    holds on every screen of the widgets constructed by the numbered factory
    methods and the screen's counter, deleted widgets included. *)
Theorem ids_never_reused (config : obj) (w : World) :
  rtc step (Client_new config) w ->
  let name := client_name (Client_new config) in
  screenCnt (client w) = N.of_nat (length (screen_heap w))
  /\ screenId <$> screen_heap w =
       (fun n => name +:+ "_s" +:+ pretty (N.of_nat n)) <$> seq 0 (length (screen_heap w))
  /\ NoDup (screenId <$> screen_heap w)
  /\ (forall r s, screen_heap w !! r = Some s ->
        widgetCnt s = N.of_nat (length (numbered w r))
        /\ widgetId <$> numbered w r =
             (fun n => screenId s +:+ "_w" +:+ pretty (N.of_nat n))
               <$> seq 0 (length (numbered w r))
        /\ NoDup (widgetId <$> numbered w r)).
Proof.
  intros Hreach name.
  pose proof (steps_store name _ _ Hreach (store_inv_new config))
    as [[J1 J2 J3 J4 J5 J6 J7] _].
  assert (E1 : screenId <$> screen_heap w =
               (fun n => screen_id name (N.of_nat n)) <$> seq 0 (length (screen_heap w))).
  { apply fmap_by_index. intros i s Hs. now apply J3. }
  split; [exact J2|]. split; [exact E1|]. split.
  - rewrite E1. apply NoDup_fmap_2; [|apply NoDup_seq].
    intros n m E. apply screen_id_inj in E. lia.
  - intros r s Hs. split; [exact (J4 r s Hs)|]. split; [exact (J5 r s Hs)|].
    rewrite (J5 r s Hs). apply NoDup_fmap_2; [|apply NoDup_seq].
    intros n m E. apply widget_id_inj in E. lia.
Qed.

Lemma ids_never_reused_witness :
  screenCnt (client add_delete_add) = 2%N
  /\ screenId <$> screen_heap add_delete_add = ["lcdprocjs_s0"; "lcdprocjs_s1"]
  /\ NoDup (screenId <$> screen_heap add_delete_add)
  /\ screens (client add_delete_add) !! "lcdprocjs_s0" = None.
Proof.
  destruct (ids_never_reused [] add_delete_add add_delete_add_reached) as (H1 & H2 & H3 & _).
  split; [exact H1|split; [exact H2|split; [exact H3|reflexivity]]].
Defined.

(** X8. In every state the client goes through, the registries hold live
    objects under their own ids: what [client.screens] holds under an id is
    a screen with that id; what a screen's [widgets] holds under an id is a
    widget with that id that belongs to this screen; and the screen a widget
    belongs to is in the store, deleted or not. *)
Theorem registries_consistent (config : obj) (w : World) :
  rtc step (Client_new config) w ->
  (forall id r, screens (client w) !! id = Some r ->
     exists s, screen_heap w !! r = Some s /\ screenId s = id)
  /\ (forall r s id x, screen_heap w !! r = Some s -> widgets s !! id = Some x ->
        exists wd, widget_heap w !! x = Some wd /\ widgetId wd = id
                   /\ widget_screen wd = r)
  /\ (forall x wd, widget_heap w !! x = Some wd ->
        exists s, screen_heap w !! widget_screen wd = Some s).
Proof.
  intros Hreach.
  pose proof (steps_store _ _ _ Hreach (store_inv_new config)) as [J [R1 R2]].
  split; [exact R1|]. split; [exact R2|].
  intros x wd Hx. apply lookup_lt_is_Some_2. exact (inv_owner _ _ J x wd Hx).
Qed.

Lemma registries_consistent_witness :
  exists s, screen_heap titled_world !! 0 = Some s /\ screenId s = "lcdprocjs_s0".
Proof.
  destruct (registries_consistent [] titled_world titled_world_reached) as (H & _).
  exact (H "lcdprocjs_s0" 0 eq_refl).
Defined.

(** ** Notifications *)

Lemma on_message_registered w id r i :
  screens (client w) !! id = Some r ->
  on_message ("listen " +:+ id) i w = Some (Return tt (emitted w (OnScreen r) "shown"))
  /\ on_message ("ignore " +:+ id) i w = Some (Return tt (emitted w (OnScreen r) "hidden")).
Proof.
  intros H. unfold on_message.
  destruct (listen_line id) as (-> & -> & ->).
  destruct (ignore_line id) as (-> & -> & ->).
  change (String.eqb "listen" "listen") with true.
  change (String.eqb "ignore" "listen") with false.
  change (String.eqb "ignore" "ignore") with true. cbv iota.
  unfold mbind, M_bind, bind, get_client.
  rewrite (get_property_own _ _ _ H). split; reflexivity.
Qed.

(** The registry of screens is touched by [addScreen] and by [delete] of a
    screen only. *)
Section Registry.
Variable m : gmap string nat.
Let P (w : World) : Prop := screens (client w) = m.

Lemma registry_update f :
  (forall w, screens (client (f w)) = screens (client w)) -> preserves P (update f).
Proof. intros Hf. apply preserves_update. intros w Hw. unfold P. now rewrite Hf. Qed.

Lemma registry_alloc_widget x : preserves P (alloc_widget x).
Proof. intros w o HP [= <-]. exact HP. Qed.
End Registry.

Ltac preserves_registry :=
  repeat (intros; cbv zeta;
    lazymatch goal with
    | |- preserves _ (mbind _ _) => apply preserves_bind
    | |- preserves _ (ret _) => apply preserves_ret
    | |- preserves _ (throw _) => apply preserves_throw
    | |- preserves _ dangling => apply preserves_dangling
    | |- preserves _ get_client => apply preserves_get_client
    | |- preserves _ (get_screen _) => apply preserves_get_screen
    | |- preserves _ (get_widget _) => apply preserves_get_widget
    | |- preserves _ (update _) => apply registry_update; reflexivity
    | |- preserves _ (alloc_widget _) => apply registry_alloc_widget
    | |- preserves _ (forEach_from _ _ _) => apply preserves_forEach
    | |- preserves _ (match ?x with _ => _ end) => destruct x
    | |- preserves _ ?m => let h := head_of m in unfold h
    end).

Lemma registry_kept c m :
  (forall config, c <> CallAddScreen config) -> (forall r, c <> CallDeleteScreen r) ->
  preserves (fun w => screens (client w) = m) (do_call c).
Proof.
  intros H1 H2.
  destruct c; try (exfalso; eapply H1; reflexivity); try (exfalso; eapply H2; reflexivity);
    cbn [do_call]; preserves_registry.
Qed.

Lemma registered_step name r w w' :
  step_keeping r w w' ->
  store_inv name w /\ screens (client w) !! screen_id name (N.of_nat r) = Some r ->
  store_inv name w' /\ screens (client w') !! screen_id name (N.of_nat r) = Some r.
Proof.
  intros (c & o & Hc & H & ->) [HI Hr]. split; [exact (do_call_store name c w o HI H)|].
  destruct HI as [[J1 J2 J3 J4 J5 J6 J7] [R1 R2]].
  destruct (R1 _ _ Hr) as (s & Hs & _). pose proof (lookup_lt_Some _ _ _ Hs) as Hlt.
  destruct c;
    try (match type of H with
         | do_call ?c _ = _ =>
             rewrite (registry_kept c (screens (client w)) ltac:(discriminate)
                        ltac:(discriminate) w o eq_refl H)
         end; exact Hr).
  - (* addScreen *)
    cbn [do_call] in H. unfold void, mbind, M_bind, bind in H.
    rewrite Client_addScreen_run in H. injection H as <-.
    cbn [outcome_world client screens]. rewrite lookup_insert_ne; [exact Hr|].
    rewrite J1, J2. intros E. apply screen_id_inj in E. lia.
  - (* delete of another screen *)
    cbn [do_call] in H. destruct (screen_heap w !! s0) as [s'|] eqn:Es'.
    + rewrite (Screen_delete_run w s0 s' Es') in H. injection H as <-.
      cbn [outcome_world client screens]. rewrite lookup_delete_ne; [exact Hr|].
      rewrite (J3 s0 s' Es'). intros E. apply screen_id_inj in E.
      apply Hc. f_equal. lia.
    + unfold Screen_delete, mbind, M_bind, bind, get_screen in H. rewrite Es' in H.
      discriminate.
Qed.

Lemma registered_steps name r w w' :
  rtc (step_keeping r) w w' ->
  store_inv name w /\ screens (client w) !! screen_id name (N.of_nat r) = Some r ->
  store_inv name w' /\ screens (client w') !! screen_id name (N.of_nat r) = Some r.
Proof. induction 1; eauto using registered_step. Qed.

(** X9. From [addScreen] on and as long as [delete] is not called on it, a
    screen is in the registry under its id, whatever else is called or
    received: a line [listen <id>] makes this very screen emit [shown], a
    line [ignore <id>] makes it emit [hidden], and the handler does nothing
    else. *)
Theorem screen_notified_until_deleted (config cfg : obj) (w w1 w2 : World) (r : ref) :
  rtc step (Client_new config) w ->
  Client_addScreen cfg w = Some (Return r w1) ->
  rtc (step_keeping r) w1 w2 ->
  exists s,
    screen_heap w2 !! r = Some s
    /\ screenId s = client_name (Client_new config) +:+ "_s" +:+ pretty (N.of_nat r)
    /\ screens (client w2) !! screenId s = Some r
    /\ (forall i,
          on_message ("listen " +:+ screenId s) i w2 =
            Some (Return tt (emitted w2 (OnScreen r) "shown"))
          /\ on_message ("ignore " +:+ screenId s) i w2 =
            Some (Return tt (emitted w2 (OnScreen r) "hidden"))).
Proof.
  intros Hreach Hadd Hlater.
  set (name := client_name (Client_new config)).
  pose proof (steps_store name _ _ Hreach (store_inv_new config)) as HI.
  assert (HI1 : store_inv name w1)
    by exact (store_addScreen name cfg w _ HI Hadd).
  assert (Hr1 : screens (client w1) !! screen_id name (N.of_nat r) = Some r).
  { destruct HI as [[J1 J2 _ _ _ _ _] _]. rewrite Client_addScreen_run in Hadd.
    injection Hadd as <- <-. cbn [client screens]. rewrite J1, J2. apply lookup_insert_eq. }
  destruct (registered_steps name r w1 w2 Hlater (conj HI1 Hr1)) as [[J R] Hr2].
  destruct (reg_screens _ R _ _ Hr2) as (s & Hs & Hid).
  exists s. rewrite Hid. split; [exact Hs|]. split; [reflexivity|]. split; [exact Hr2|].
  intros i. now apply on_message_registered.
Qed.

Lemma screen_notified_until_deleted_witness :
  exists s,
    screen_heap add_delete_add_later !! 1 = Some s
    /\ screenId s = "lcdprocjs_s1"
    /\ screens (client add_delete_add_later) !! screenId s = Some 1
    /\ (forall i,
          on_message ("listen " +:+ screenId s) i add_delete_add_later =
            Some (Return tt (emitted add_delete_add_later (OnScreen 1) "shown"))
          /\ on_message ("ignore " +:+ screenId s) i add_delete_add_later =
            Some (Return tt (emitted add_delete_add_later (OnScreen 1) "hidden"))).
Proof.
  apply (screen_notified_until_deleted [] [] add_delete add_delete_add
           add_delete_add_later 1).
  - exact add_delete_reached.
  - reflexivity.
  - eapply rtc_l; [exists (CallDeleteScreen 0); eexists;
                   split; [discriminate|split; [vm_compute; reflexivity|reflexivity]]|].
    apply rtc_once. exists (EventData "success"), (Return tt add_delete_add_later).
    split; [discriminate|split; reflexivity].
Defined.

Lemma on_message_inherited w k i :
  get_property (screens (client w)) k = Inherited ->
  on_message ("listen " +:+ k) i w = Some (Throw TypeError w)
  /\ on_message ("ignore " +:+ k) i w = Some (Throw TypeError w).
Proof.
  intros H. unfold on_message.
  destruct (listen_line k) as (-> & -> & ->).
  destruct (ignore_line k) as (-> & -> & ->).
  change (String.eqb "listen" "listen") with true.
  change (String.eqb "ignore" "listen") with false.
  change (String.eqb "ignore" "ignore") with true. cbv iota.
  unfold mbind, M_bind, bind, get_client. rewrite H. split; reflexivity.
Qed.

(** The registry of screens has no entry under a name of a member of
    [Object.prototype]. *)
Lemma registry_inherited name w k :
  store_inv name w -> k ∈ Object_prototype_keys ->
  get_property (screens (client w)) k = Inherited.
Proof.
  intros [J [R1 _]] Hk. unfold get_property.
  destruct (screens (client w) !! k) as [r|] eqn:E.
  - exfalso. destruct (R1 k r E) as (s & Hs & Hid).
    rewrite (inv_screenId _ _ J r s Hs) in Hid. subst k. revert Hk.
    apply (not_inherited "_s"); [now left|]. unfold screen_id. apply has_infix_append.
  - now rewrite bool_decide_eq_true_2.
Qed.

(** X10. In every state the client goes through, a line [listen <k>] or
    [ignore <k>] in which [<k>] is the name of a member of
    [Object.prototype] ([toString], [constructor], [__proto__], ...) makes
    the data handler throw a [TypeError]: the registry answers such a name
    with something that is not [undefined] and has no [emit].  Nothing is
    emitted, and the lines that follow in the chunk are not looked at. *)
Theorem prototype_names_throw (config : obj) (w : World) (k : string) (rest : list string) :
  rtc step (Client_new config) w ->
  k ∈ Object_prototype_keys ->
  socket_on_data ("listen " +:+ k) w = Some (Throw TypeError w)
  /\ socket_on_data ("ignore " +:+ k) w = Some (Throw TypeError w)
  /\ forEach on_message (("listen " +:+ k) :: rest) w = Some (Throw TypeError w)
  /\ forEach on_message (("ignore " +:+ k) :: rest) w = Some (Throw TypeError w).
Proof.
  intros Hreach Hk.
  pose proof (steps_store _ _ _ Hreach (store_inv_new config)) as HI.
  pose proof (registry_inherited _ w k HI Hk) as Hp.
  assert (Hl : message_line ("listen " +:+ k) = true
               /\ message_line ("ignore " +:+ k) = true).
  { clear -Hk. unfold Object_prototype_keys in Hk.
    repeat (apply elem_of_cons in Hk as [->|Hk]; [split; reflexivity|]).
    now apply elem_of_nil in Hk. }
  destruct Hl as [Hl Hi].
  assert (Hrun : forall l i ls, on_message l i w = Some (Throw TypeError w) ->
            forEach_from i on_message (l :: ls) w = Some (Throw TypeError w)).
  { intros l i ls E. cbn [forEach_from]. unfold mbind, M_bind, bind. now rewrite E. }
  destruct (on_message_inherited w k 0 Hp) as [E1 E2].
  rewrite (socket_on_data_line _ w Hl), (socket_on_data_line _ w Hi).
  unfold forEach. repeat split; now apply Hrun.
Qed.

Lemma prototype_names_throw_witness :
  socket_on_data ("listen " +:+ "toString") one_screen = Some (Throw TypeError one_screen)
  /\ socket_on_data ("ignore " +:+ "toString") one_screen = Some (Throw TypeError one_screen)
  /\ forEach on_message [ "listen " +:+ "toString"; "listen lcdprocjs_s0" ] one_screen =
       Some (Throw TypeError one_screen)
  /\ forEach on_message [ "ignore " +:+ "toString"; "listen lcdprocjs_s0" ] one_screen =
       Some (Throw TypeError one_screen).
Proof.
  apply (prototype_names_throw [] one_screen "toString" ["listen lcdprocjs_s0"]).
  - apply rtc_once. exists (CallAddScreen []), (Return tt one_screen). split; reflexivity.
  - apply (bool_decide_unpack _). vm_compute. reflexivity.
Defined.

(** ** What [addScreen] and the factory methods send *)

(** X11. [addScreen] constructs the screen under the next id, sends
    [screen_add <id>] and then, only when a configuration with at least one
    key is given, [screen_set <id>] with the keys and values; it enters the
    screen in the registry under its id and returns it.  The new screen has
    no widgets, its counter is 0, and its stored configuration holds for
    every supplied key the supplied value and [undefined] for any other. *)
Theorem addScreen_sends_and_registers (w : World) (config : obj) :
  NoDup (map fst config) ->
  let id := client_name w +:+ "_s" +:+ pretty (screenCnt (client w)) in
  let r := length (screen_heap w) in
  exists w' s,
    Client_addScreen config w = Some (Return r w')
    /\ screen_heap w' = screen_heap w ++ [s]
    /\ screenId s = id /\ widgets s = ∅ /\ widgetCnt s = 0%N
    /\ (forall k v, (k, v) ∈ config -> obj_get (screen_config s) k = v)
    /\ (forall k, k ∉ map fst config -> obj_get (screen_config s) k = JUndefined)
    /\ screens (client w') = <[id := r]> (screens (client w))
    /\ screenCnt (client w') = (screenCnt (client w) + 1)%N
    /\ widget_heap w' = widget_heap w
    /\ trace w' = trace w ++
         SocketWrite ("screen_add " +:+ id +:+ LF) ::
         match config with
         | [] => []
         | _ => [SocketWrite ("screen_set " +:+ id +:+ tokens_text (flattenObj config false)
                              +:+ LF)]
         end.
Proof.
  intros Hnd id r. rewrite Client_addScreen_run. eexists _, _. split; [reflexivity|].
  cbn [screen_heap client screens screenCnt widget_heap trace new_screen screenId widgets
       widgetCnt screen_config].
  destruct (assign_get [] config Hnd) as [Hin Hout].
  do 4 (split; [reflexivity|]). split; [exact Hin|]. split; [exact Hout|].
  do 3 (split; [reflexivity|]). f_equal. unfold wire, screen_id. fold id. f_equal.
  destruct config as [|p config]; cbn [isEmpty]; [reflexivity|]. f_equal.
  rewrite join_tokens by discriminate. rewrite join_cons, join_one.
  cbn [join_item ToString]. now rewrite !append_assoc.
Qed.

Lemma addScreen_sends_and_registers_witness :
  exists w', Client_addScreen [("priority", JString "info"); ("heartbeat", JString "off")]
               one_screen = Some (Return 1 w')
    /\ trace w' = trace one_screen ++
         [SocketWrite ("screen_add lcdprocjs_s1" +:+ LF);
          SocketWrite ("screen_set lcdprocjs_s1 -priority info -heartbeat off" +:+ LF)].
Proof.
  destruct (addScreen_sends_and_registers one_screen
              [("priority", JString "info"); ("heartbeat", JString "off")])
    as (w' & s & H & _ & _ & _ & _ & _ & _ & _ & _ & _ & T).
  - apply (bool_decide_unpack _). vm_compute. reflexivity.
  - exists w'. split; [exact H|exact T].
Defined.

(** X12. Each factory method of a screen constructs a widget of its class
    without parameters, under the id made of the screen's counter, which it
    advances; it sends [widget_add <screen> <id> <type>], the type being
    [string], [hbar], [vbar], [icon] or [num], or with [addWidget] the type
    given; it enters the widget in the screen's registry under the id and
    returns it.  Nothing else of the store changes. *)
Theorem factories_send_widget_add (w : World) (this : ref) (s : Screen) (type : jsval) :
  screen_heap w !! this = Some s ->
  let id := screenId s +:+ "_w" +:+ pretty (widgetCnt s) in
  let x := length (widget_heap w) in
  let added (cls : WidgetClass) (ty : jsval) (m : M ref) :=
    exists w' s',
      m w = Some (Return x w')
      /\ widget_heap w' =
           widget_heap w ++ [{| widget_class := cls; widget_screen := this; widgetId := id;
                                widgetType := ty; params := None |}]
      /\ trace w' = trace w ++
           [SocketWrite ("widget_add " +:+ screenId s +:+ " " +:+ id +:+ " "
                         +:+ join_item ty +:+ LF)]
      /\ screen_heap w' = <[this := s']> (screen_heap w)
      /\ widgets s' = <[id := x]> (widgets s)
      /\ widgetCnt s' = (widgetCnt s + 1)%N
      /\ screenId s' = screenId s /\ screen_config s' = screen_config s
      /\ client w' = client w in
  added StringWidget (JString "string") (Screen_addString this)
  /\ added HorizontalBarWidget (JString "hbar") (Screen_addHorizontalBar this)
  /\ added VerticalBarWidget (JString "vbar") (Screen_addVerticalBar this)
  /\ added IconWidget (JString "icon") (Screen_addIcon this)
  /\ added BigNumberWidget (JString "num") (Screen_addBigNumber this)
  /\ added GenericWidget type (Screen_addWidget this type).
Proof.
  intros Hs id x added.
  assert (H : forall cls ty, added cls ty (Screen_add cls ty this)).
  { intros cls ty. unfold added. rewrite (Screen_add_run w this s cls ty Hs).
    eexists _, _. split; [reflexivity|].
    cbn [widget_added widget_heap trace screen_heap client new_widget widgetId widgetType].
    split; [reflexivity|]. split; [|repeat split].
    f_equal. f_equal. unfold wire. rewrite !join_cons, join_one.
    cbn [join_item ToString bump screenId]. unfold widget_id. fold id.
    now rewrite !append_assoc. }
  repeat split; apply H.
Qed.

Lemma factories_send_widget_add_witness :
  exists w', Screen_addHorizontalBar 0 one_screen = Some (Return 0 w')
    /\ trace w' = trace one_screen ++
         [SocketWrite ("widget_add lcdprocjs_s0 lcdprocjs_s0_w0 hbar" +:+ LF)].
Proof.
  destruct (factories_send_widget_add one_screen 0 (the_screen one_screen 0) JNull eq_refl)
    as (_ & (w' & s' & H & _ & T & _) & _).
  exists w'. split; [exact H|exact T].
Defined.

(** ** Sending parameters, in general *)

Section SetParamsAny.
Variables (w : World) (this : ref) (x : Widget) (s : Screen).
Hypothesis Hx : widget_heap w !! this = Some x.
Hypothesis Hs : screen_heap w !! widget_screen x = Some s.

Lemma Array_apply_plain (args : list jsval) :
  (forall n, args <> [JNumber n]) -> Array_apply args = ret args.
Proof.
  intros H. destruct args as [|v [|v' args]]; try reflexivity.
  destruct v; try reflexivity. now destruct (H n).
Qed.



Lemma TitleWidget_setTitle_run (text : jsval) :
  TitleWidget_setTitle this text w = Some (Return tt (sent w this x s [quoteString text])).
Proof. apply (Widget_setParams_run w this x s Hx Hs). reflexivity. Qed.

Lemma BigNumberWidget_set_run (a number : jsval) :
  BigNumberWidget_set this a number w = Some (Return tt (sent w this x s [a; number])).
Proof. apply (Widget_setParams_run w this x s Hx Hs). reflexivity. Qed.

Lemma Widget_delete_run :
  Widget_delete this w =
    Some (Return tt
      {| client := client w;
         screen_heap := <[widget_screen x := without_widget (widgetId x) s]> (screen_heap w);
         widget_heap := widget_heap w;
         trace := trace w ++ [wire [JString "widget_del"; JString (screenId s);
                                    JString (widgetId x)]] |}).
Proof.
  unfold Widget_delete, Screen_unrefWidget. munfold. rewrite Hx. msimpl. rewrite Hs. msimpl.
  rewrite Hs. reflexivity.
Qed.
End SetParamsAny.



(** X14. The setters of the title, icon and big-number widgets: [setTitle]
    sends the text between braces as the only parameter, whatever the text
    is (a number too: the parameter is a string, so it is never taken for an
    array length); [IconWidget.set] sends the position and the icon name as
    it is, without braces; [BigNumberWidget.set] sends its two arguments.
    The line is [widget_set <screen> <widget>] and, after a blank each, the
    text of each parameter. *)
Theorem title_icon_number_setters (w : World) (this : ref) (x : Widget) (s : Screen)
    (text a b iconname number : jsval) :
  widget_heap w !! this = Some x ->
  screen_heap w !! widget_screen x = Some s ->
  let line p := SocketWrite ("widget_set " +:+ screenId s +:+ " " +:+ widgetId x +:+ p +:+ LF) in
  (exists w', TitleWidget_setTitle this text w = Some (Return tt w')
     /\ w' = sent w this x s [JString ("{" +:+ ToString text +:+ "}")]
     /\ trace w' = trace w ++ [line (" {" +:+ ToString text +:+ "}")])
  /\ (exists w', IconWidget_set this a b iconname w = Some (Return tt w')
        /\ w' = sent w this x s [a; b; iconname]
        /\ trace w' = trace w ++
             [line (" " +:+ join_item a +:+ " " +:+ join_item b +:+ " " +:+ join_item iconname)])
  /\ (exists w', BigNumberWidget_set this a number w = Some (Return tt w')
        /\ w' = sent w this x s [a; number]
        /\ trace w' = trace w ++ [line (" " +:+ join_item a +:+ " " +:+ join_item number)]).
Proof.
  intros Hx Hs line. split; [|split]; eexists; (split; [|split; [reflexivity|]]).
  - apply (TitleWidget_setTitle_run w this x s Hx Hs).
  - rewrite widget_set_line. cbn [tokens_text join_item quoteString ToString].
    now rewrite append_nil_r.
  - apply (IconWidget_set_run w this x s Hx Hs).
  - rewrite widget_set_line. cbn [tokens_text]. now rewrite append_nil_r.
  - apply (BigNumberWidget_set_run w this x s Hx Hs).
  - rewrite widget_set_line. cbn [tokens_text]. now rewrite append_nil_r.
Qed.

Lemma title_icon_number_setters_witness :
  (exists w', TitleWidget_setTitle 0 (JNumber 5) titled_world = Some (Return tt w')
     /\ trace w' = trace titled_world ++
          [SocketWrite ("widget_set lcdprocjs_s0 lcdprocjs_s0_wTITLE {5}" +:+ LF)])
  /\ (exists w', BigNumberWidget_set 2 (JNumber 1) (JNumber 7) titled_world = Some (Return tt w')
        /\ trace w' = trace titled_world ++
             [SocketWrite ("widget_set lcdprocjs_s0 lcdprocjs_s0_w1 1 7" +:+ LF)]).
Proof.
  split.
  - destruct (title_icon_number_setters titled_world 0 (the_widget titled_world 0)
                (the_screen titled_world 0) (JNumber 5) JNull JNull JNull JNull
                eq_refl eq_refl)
      as ((w' & H1 & _ & H2) & _).
    exists w'. split; [exact H1|exact H2].
  - destruct (title_icon_number_setters titled_world 2 (the_widget titled_world 2)
                (the_screen titled_world 0) JNull (JNumber 1) JNull JNull (JNumber 7)
                eq_refl eq_refl)
      as (_ & _ & (w' & H1 & _ & H2)).
    exists w'. split; [exact H1|exact H2].
Defined.

(** X15. A widget that has not been set has no position cached, and its
    partial updates fall back on the position 1, 1: [setValue(percent)] of
    a bar is [set(1, 1, percent)] of the bar's class, with the length the
    formula gives for that position, and [setIcon(iconname)] is
    [set(1, 1, iconname)]. *)
Theorem fallback_position (w : World) (this : ref) (x : Widget) (s : Screen)
    (percent iconname : jsval) :
  widget_heap w !! this = Some x ->
  screen_heap w !! widget_screen x = Some s ->
  params x = None ->
  let cfg := lcdprocConfig (client w) in
  HorizontalBarWidget_setValue this percent w =
    HorizontalBarWidget_set this (JNumber 1) (JNumber 1) percent w
  /\ HorizontalBarWidget_setValue this percent w =
       Some (Return tt (sent w this x s
         [JNumber 1; JNumber 1;
          JNumber (Math_round ((width (size cfg) - 1 + 1) * width (cellsize cfg)
                               * ToNumber percent))]))
  /\ VerticalBarWidget_setValue this percent w =
       VerticalBarWidget_set this (JNumber 1) (JNumber 1) percent w
  /\ VerticalBarWidget_setValue this percent w =
       Some (Return tt (sent w this x s
         [JNumber 1; JNumber 1;
          JNumber (Math_round (1 * height (cellsize cfg) * ToNumber percent))]))
  /\ IconWidget_setIcon this iconname w =
       IconWidget_set this (JNumber 1) (JNumber 1) iconname w
  /\ IconWidget_setIcon this iconname w =
       Some (Return tt (sent w this x s [JNumber 1; JNumber 1; iconname])).
Proof.
  intros Hx Hs Hp cfg.
  assert (Ex : cached_x x = JNumber 1) by (unfold cached_x; now rewrite Hp).
  assert (Ey : cached_y x = JNumber 1) by (unfold cached_y; now rewrite Hp).
  unfold HorizontalBarWidget_setValue, VerticalBarWidget_setValue.
  rewrite !(setValue_run w this x Hx), (IconWidget_setIcon_run w this x Hx), Ex, Ey,
          !(HorizontalBarWidget_set_run w this x s Hx Hs),
          !(VerticalBarWidget_set_run w this x s Hx Hs),
          (IconWidget_set_run w this x s Hx Hs).
  repeat split.
Qed.

Lemma fallback_position_witness :
  HorizontalBarWidget_setValue 1 (JNumber 0.5) demo_world =
    Some (Return tt (sent demo_world 1 (the_widget demo_world 1) (the_screen demo_world 0)
                       [JNumber 1; JNumber 1; JNumber 50]))
  /\ IconWidget_setIcon 3 (JString "HEART_OPEN") demo_world =
       Some (Return tt (sent demo_world 3 (the_widget demo_world 3) (the_screen demo_world 0)
                          [JNumber 1; JNumber 1; JString "HEART_OPEN"])).
Proof.
  split.
  - apply (fallback_position demo_world 1 (the_widget demo_world 1)
             (the_screen demo_world 0) (JNumber 0.5) JNull eq_refl eq_refl eq_refl).
  - apply (fallback_position demo_world 3 (the_widget demo_world 3)
             (the_screen demo_world 0) JNull (JString "HEART_OPEN") eq_refl eq_refl eq_refl).
Defined.

(** ** Bars of length zero *)

Lemma mul_zero_r (a z : float) :
  is_finite_number a = true -> is_zero_number z = true -> is_zero_number (a * z) = true.
Proof.
  unfold is_finite_number, is_zero_number. rewrite mul_spec.
  destruct (Prim2SF a), (Prim2SF z); try discriminate; reflexivity.
Qed.

Lemma mul_zero_l (z a : float) :
  is_zero_number z = true -> is_finite_number a = true -> is_zero_number (z * a) = true.
Proof.
  unfold is_finite_number, is_zero_number. rewrite mul_spec.
  destruct (Prim2SF a), (Prim2SF z); try discriminate; reflexivity.
Qed.

Lemma zero_number_cases (z : float) :
  is_zero_number z = true -> z = zero \/ z = neg_zero.
Proof.
  unfold is_zero_number. intros H. rewrite <- (SF2Prim_Prim2SF z).
  destruct (Prim2SF z) as [[]| | |]; try discriminate; [right|left]; reflexivity.
Qed.

(** A zero is rounded to itself and is written [0]. *)
Lemma Math_round_zero (z : float) :
  is_zero_number z = true ->
  is_zero_number (Math_round z) = true /\ join_item (JNumber (Math_round z)) = "0".
Proof.
  intros H. destruct (zero_number_cases z H) as [-> | ->]; split; reflexivity.
Qed.

Lemma product_zero (a b c : float) :
  (is_zero_number b = true /\ is_finite_number a = true /\ is_finite_number c = true)
  \/ (is_zero_number c = true /\ is_finite_number (a * b) = true) ->
  is_zero_number (a * b * c) = true.
Proof.
  intros [(Hb & Ha & Hc)|(Hc & Hab)].
  - apply mul_zero_l; [now apply mul_zero_r|exact Hc].
  - now apply mul_zero_r.
Qed.

(** X16. When a bar has length zero.  As long as the handshake has not taken
    place the cell size is 0, and a bar that is set then is sent with the
    length 0 whatever the value is, the value and the term of the position
    ([size.width - x + 1] of a horizontal bar, [y] of a vertical one) being
    finite numbers; and at any time the value 0 gives the length 0, the
    product of the other two factors being finite.  The length is the last
    parameter of the line, written [0]. *)
Theorem bars_of_length_zero (w : World) (this : ref) (bar : Widget) (s : Screen)
    (x y percent : jsval) :
  widget_heap w !! this = Some bar ->
  screen_heap w !! widget_screen bar = Some s ->
  let cfg := lcdprocConfig (client w) in
  let columns := (width (size cfg) - ToNumber x + 1)%float in
  let sent_with (m : M unit) :=
    exists z, is_zero_number z = true
      /\ m w = Some (Return tt (sent w this bar s [x; y; JNumber z]))
      /\ trace (sent w this bar s [x; y; JNumber z]) =
           trace w ++ [SocketWrite ("widget_set " +:+ screenId s +:+ " " +:+ widgetId bar
                                    +:+ " " +:+ join_item x +:+ " " +:+ join_item y
                                    +:+ " 0" +:+ LF)] in
  ((is_zero_number (width (cellsize cfg)) = true /\ is_finite_number columns = true
    /\ is_finite_number (ToNumber percent) = true)
   \/ (is_zero_number (ToNumber percent) = true
       /\ is_finite_number (columns * width (cellsize cfg)) = true) ->
   sent_with (HorizontalBarWidget_set this x y percent))
  /\ ((is_zero_number (height (cellsize cfg)) = true /\ is_finite_number (ToNumber y) = true
       /\ is_finite_number (ToNumber percent) = true)
      \/ (is_zero_number (ToNumber percent) = true
          /\ is_finite_number (ToNumber y * height (cellsize cfg)) = true) ->
      sent_with (VerticalBarWidget_set this x y percent)).
Proof.
  intros Hx Hs cfg columns sent_with.
  assert (Hline : forall z, is_zero_number z = true ->
            trace (sent w this bar s [x; y; JNumber (Math_round z)]) =
              trace w ++ [SocketWrite ("widget_set " +:+ screenId s +:+ " " +:+ widgetId bar
                                       +:+ " " +:+ join_item x +:+ " " +:+ join_item y
                                       +:+ " 0" +:+ LF)]).
  { intros z Hz. rewrite widget_set_line. cbn [tokens_text].
    destruct (Math_round_zero z Hz) as [_ ->]. now rewrite !append_assoc. }
  split; intros H; apply product_zero in H;
    match type of H with
    | is_zero_number ?p = true =>
        exists (Math_round p); (split; [exact (proj1 (Math_round_zero p H))|]);
        (split; [|exact (Hline p H)])
    end.
  - apply (HorizontalBarWidget_set_run w this bar s Hx Hs).
  - apply (VerticalBarWidget_set_run w this bar s Hx Hs).
Qed.

Lemma bars_of_length_zero_witness :
  (exists z, HorizontalBarWidget_set 0 (JNumber 1) (JNumber 1) (JNumber 0.5) early_bars =
               Some (Return tt (sent early_bars 0 (the_widget early_bars 0)
                                  (the_screen early_bars 0)
                                  [JNumber 1; JNumber 1; JNumber z]))
     /\ trace (sent early_bars 0 (the_widget early_bars 0) (the_screen early_bars 0)
                 [JNumber 1; JNumber 1; JNumber z]) =
          trace early_bars ++
          [SocketWrite ("widget_set lcdprocjs_s0 lcdprocjs_s0_w0 1 1 0" +:+ LF)])
  /\ (exists z, VerticalBarWidget_set 2 (JNumber 1) (JNumber 4) (JNumber 0) demo_world =
                  Some (Return tt (sent demo_world 2 (the_widget demo_world 2)
                                     (the_screen demo_world 0)
                                     [JNumber 1; JNumber 4; JNumber z]))).
Proof.
  split.
  - destruct (bars_of_length_zero early_bars 0 (the_widget early_bars 0)
                (the_screen early_bars 0) (JNumber 1) (JNumber 1) (JNumber 0.5)
                eq_refl eq_refl) as [H _].
    destruct H as (z & _ & H1 & H2); [left; repeat split|].
    exists z. split; [exact H1|exact H2].
  - destruct (bars_of_length_zero demo_world 2 (the_widget demo_world 2)
                (the_screen demo_world 0) (JNumber 1) (JNumber 4) (JNumber 0)
                eq_refl eq_refl) as [_ H].
    destruct H as (z & _ & H1 & _); [right; repeat split|].
    exists z. exact H1.
Defined.

(** ** After [delete] *)

(** X17. A title widget that is deleted is constructed anew by the next
    [addTitle]: [delete] sends [widget_del] and takes the entry out of the
    screen's registry, the object itself staying as it is; [addTitle] then
    finds no entry, constructs a new title widget with no parameters cached,
    sends [widget_add <screen> <screen>_wTITLE title] again and returns the
    new object, which is not the one deleted. *)
Theorem title_recreated_after_delete (config : obj) (w : World) (this x : ref) (s : Screen) :
  rtc step (Client_new config) w ->
  screen_heap w !! this = Some s ->
  widgets s !! (screenId s +:+ "_wTITLE") = Some x ->
  exists wd w1 w2,
    widget_heap w !! x = Some wd
    /\ widgetId wd = screenId s +:+ "_wTITLE"
    /\ Widget_delete x w = Some (Return tt w1)
    /\ trace w1 = trace w ++ [wire [JString "widget_del"; JString (screenId s);
                                    JString (screenId s +:+ "_wTITLE")]]
    /\ widget_heap w1 = widget_heap w
    /\ Screen_addTitle this w1 = Some (Return (length (widget_heap w)) w2)
    /\ x <> length (widget_heap w)
    /\ widget_heap w2 =
         widget_heap w ++
         [{| widget_class := TitleWidget; widget_screen := this;
             widgetId := screenId s +:+ "_wTITLE"; widgetType := JString "title";
             params := None |}]
    /\ trace w2 = trace w1 ++ [wire [JString "widget_add"; JString (screenId s);
                                     JString (screenId s +:+ "_wTITLE"); JString "title"]].
Proof.
  intros Hreach Hs Hreg.
  pose proof (steps_store _ _ _ Hreach (store_inv_new config)) as [_ [_ R2]].
  destruct (R2 this s _ x Hs Hreg) as (wd & Hwd & Hid & Hscr).
  pose proof (lookup_lt_Some _ _ _ Hs) as Hlt.
  assert (Hs' : screen_heap w !! widget_screen wd = Some s) by now rewrite Hscr.
  eexists wd, _, _. split; [exact Hwd|]. split; [exact Hid|].
  split; [apply (Widget_delete_run w x wd s Hwd Hs')|].
  rewrite Hid, Hscr. cbn [trace widget_heap].
  split; [reflexivity|]. split; [reflexivity|].
  split.
  - erewrite Screen_addTitle_run; [|cbn [screen_heap]; now apply list_lookup_insert_eq].
    cbn [without_widget widgets screenId]. unfold title_id.
    rewrite lookup_delete_eq. reflexivity.
  - split; [apply lookup_lt_Some in Hwd; lia|]. split; reflexivity.
Qed.

Lemma title_recreated_after_delete_witness :
  exists w1 w2,
    Widget_delete 0 titled_world = Some (Return tt w1)
    /\ Screen_addTitle 0 w1 = Some (Return 3 w2)
    /\ trace w2 = trace titled_world ++
         [SocketWrite ("widget_del lcdprocjs_s0 lcdprocjs_s0_wTITLE" +:+ LF);
          SocketWrite ("widget_add lcdprocjs_s0 lcdprocjs_s0_wTITLE title" +:+ LF)].
Proof.
  destruct (title_recreated_after_delete [] titled_world 0 0 (the_screen titled_world 0)
              titled_world_reached eq_refl eq_refl)
    as (wd & w1 & w2 & _ & _ & H1 & T1 & _ & H2 & _ & _ & T2).
  exists w1, w2. split; [exact H1|split; [exact H2|]].
  rewrite T2, T1, <- app_assoc. reflexivity.
Defined.

(** X18. [delete] does not invalidate a handle.  [delete] of a screen sends
    [screen_del] and drops the registry entry, and that is all: the screen
    object, its registry of widgets and the widgets stay as they are, and a
    later call through the handle of the screen or of one of its widgets
    goes out on the wire as before ([setConfig] sends [screen_set],
    [setParams] sends [widget_set], a factory method constructs and sends
    [widget_add]).  Likewise a widget that was deleted still sends
    [widget_set] when it is set. *)
Theorem deleted_handles_still_send (w : World) (this x : ref) (s : Screen) (wd : Widget)
    (config : obj) (args : list jsval) :
  screen_heap w !! this = Some s ->
  widget_heap w !! x = Some wd ->
  widget_screen wd = this ->
  config <> [] ->
  (forall n, args <> [JNumber n]) ->
  (exists w1,
     Screen_delete this w = Some (Return tt w1)
     /\ screen_heap w1 = screen_heap w /\ widget_heap w1 = widget_heap w
     /\ (exists w2, Screen_setConfig this config w1 = Some (Return tt w2)
           /\ trace w2 = trace w1 ++ [wire ([JString "screen_set"; JString (screenId s)]
                                            ++ flattenObj config false)])
     /\ Widget_setParams x args w1 = Some (Return tt (sent w1 x wd s args))
     /\ (exists w2, Screen_addString this w1 = Some (Return (length (widget_heap w)) w2)
           /\ trace w2 = trace w1 ++
                [wire [JString "widget_add"; JString (screenId s);
                       JString (screenId s +:+ "_w" +:+ pretty (widgetCnt s));
                       JString "string"]]))
  /\ (exists w1 s1,
        Widget_delete x w = Some (Return tt w1)
        /\ widget_heap w1 = widget_heap w
        /\ screen_heap w1 !! this = Some s1 /\ screenId s1 = screenId s
        /\ Widget_setParams x args w1 = Some (Return tt (sent w1 x wd s1 args))).
Proof.
  intros Hs Hx Hscr Hcfg Hargs. subst this. split.
  - rewrite (Screen_delete_run w _ s Hs).
    match goal with |- context [Some (Return tt ?v)] => set (w1 := v) end.
    assert (Hs1 : screen_heap w1 !! widget_screen wd = Some s) by exact Hs.
    assert (Hx1 : widget_heap w1 !! x = Some wd) by exact Hx.
    exists w1. split; [reflexivity|]. split; [reflexivity|]. split; [reflexivity|].
    split; [|split].
    + rewrite (Screen_setConfig_run w1 _ s config Hs1 Hcfg). eexists.
      split; reflexivity.
    + apply Widget_setParams_run; [exact Hx1|exact Hs1|now apply Array_apply_plain].
    + unfold Screen_addString. rewrite (Screen_add_run w1 _ s _ _ Hs1). eexists.
      split; reflexivity.
  - rewrite (Widget_delete_run w x wd s Hx Hs).
    match goal with |- context [Some (Return tt ?v)] => set (w1 := v) end.
    assert (Hs1 : screen_heap w1 !! widget_screen wd =
                  Some (without_widget (widgetId wd) s)).
    { apply list_lookup_insert_eq. eapply lookup_lt_Some, Hs. }
    assert (Hx1 : widget_heap w1 !! x = Some wd) by exact Hx.
    exists w1, (without_widget (widgetId wd) s). split; [reflexivity|].
    split; [reflexivity|]. split; [exact Hs1|]. split; [reflexivity|].
    apply Widget_setParams_run; [exact Hx1|exact Hs1|now apply Array_apply_plain].
Qed.

Lemma deleted_handles_still_send_witness :
  exists w1,
    Screen_delete 0 titled_world = Some (Return tt w1)
    /\ Widget_setParams 1 [JNumber 1; JNumber 2; JString "{x}"] w1 =
         Some (Return tt (sent w1 1 (the_widget titled_world 1) (the_screen titled_world 0)
                            [JNumber 1; JNumber 2; JString "{x}"])).
Proof.
  destruct (deleted_handles_still_send titled_world 0 1 (the_screen titled_world 0)
              (the_widget titled_world 1) [("priority", JString "info")]
              [JNumber 1; JNumber 2; JString "{x}"] eq_refl eq_refl eq_refl)
    as ((w1 & H1 & _ & _ & _ & H2 & _) & _).
  - discriminate.
  - intros n. discriminate.
  - exists w1. split; [exact H1|exact H2].
Defined.

(** ** Handles stay good *)

Section OnlyThrows.
Context (E : exn -> Prop).

Lemma only_throws_ret {A} (a : A) : only_throws E (ret a).
Proof. intros w e w' [=]. Qed.

Lemma only_throws_throw {A} e : E e -> only_throws E (@throw A e).
Proof. intros He w e' w' [= <- _]. exact He. Qed.

Lemma only_throws_dangling {A} : only_throws E (@dangling A).
Proof. intros w e w' [=]. Qed.

Lemma only_throws_bind {A B} (m : M A) (k : A -> M B) :
  only_throws E m -> (forall a, only_throws E (k a)) -> only_throws E (m ≫= k).
Proof.
  intros Hm Hk w e w' H. unfold mbind, M_bind, bind in H.
  destruct (m w) as [[a w1|e1 w1]|] eqn:Em; [| |discriminate].
  - eapply Hk, H.
  - injection H as -> _. eapply Hm, Em.
Qed.

Lemma only_throws_get_client : only_throws E get_client.
Proof. intros w e w' [=]. Qed.

Lemma only_throws_get_screen r : only_throws E (get_screen r).
Proof. intros w e w' H. unfold get_screen in H. now destruct (screen_heap w !! r). Qed.

Lemma only_throws_get_widget r : only_throws E (get_widget r).
Proof. intros w e w' H. unfold get_widget in H. now destruct (widget_heap w !! r). Qed.

Lemma only_throws_update f : only_throws E (update f).
Proof. intros w e w' [=]. Qed.

Lemma only_throws_alloc_screen s : only_throws E (alloc_screen s).
Proof. intros w e w' [=]. Qed.

Lemma only_throws_alloc_widget x : only_throws E (alloc_widget x).
Proof. intros w e w' [=]. Qed.

Lemma only_throws_forEach {A} (f : A -> nat -> M unit) l :
  (forall x i, only_throws E (f x i)) -> forall i, only_throws E (forEach_from i f l).
Proof.
  intros Hf. induction l as [|x l IH]; intros i; cbn [forEach_from].
  - apply only_throws_ret.
  - apply only_throws_bind; [apply Hf|intros _; apply IH].
Qed.
End OnlyThrows.

Ltac only_throws :=
  repeat (intros; cbv beta iota zeta;
    lazymatch goal with
    | |- only_throws _ (mbind _ _) => apply only_throws_bind
    | |- only_throws _ (ret _) => apply only_throws_ret
    | |- only_throws _ (throw _) => apply only_throws_throw; reflexivity
    | |- only_throws _ dangling => apply only_throws_dangling
    | |- only_throws _ get_client => apply only_throws_get_client
    | |- only_throws _ (get_screen _) => apply only_throws_get_screen
    | |- only_throws _ (get_widget _) => apply only_throws_get_widget
    | |- only_throws _ (update _) => apply only_throws_update
    | |- only_throws _ (alloc_screen _) => apply only_throws_alloc_screen
    | |- only_throws _ (alloc_widget _) => apply only_throws_alloc_widget
    | |- only_throws _ (forEach_from _ _ _) => apply only_throws_forEach
    | |- only_throws _ (match ?x with _ => _ end) => destruct x
    | |- only_throws _ ?m => let h := head_of m in unfold h
    end).

(** The store only grows. *)
Section Grows.
Variables n m : nat.
Let P (w : World) : Prop := n <= length (screen_heap w) /\ m <= length (widget_heap w).



End Grows.









(** ** What a chunk of notifications does *)

Lemma on_message_notification msg i w :
  exists o evs,
    on_message msg i w = Some o
    /\ client (outcome_world o) = client w
    /\ screen_heap (outcome_world o) = screen_heap w
    /\ widget_heap (outcome_world o) = widget_heap w
    /\ trace (outcome_world o) = trace w ++ evs
    /\ Forall (notification w) evs /\ length evs <= 1.
Proof.
  assert (Hnone : exists o evs,
            Some (Return tt w) = Some o
            /\ client (outcome_world o) = client w
            /\ screen_heap (outcome_world o) = screen_heap w
            /\ widget_heap (outcome_world o) = widget_heap w
            /\ trace (outcome_world o) = trace w ++ evs
            /\ Forall (notification w) evs /\ length evs <= 1).
  { exists (Return tt w), []. cbn. rewrite app_nil_r. repeat split; auto. }
  assert (Hlook : forall ev, ev = "shown" \/ ev = "hidden" ->
            exists o evs,
              match get_property (screens (client w)) (substring1 7 msg) with
              | Own r => perform (Emit (OnScreen r) ev)
              | Inherited => throw TypeError
              | Absent => ret tt
              end w = Some o
              /\ client (outcome_world o) = client w
              /\ screen_heap (outcome_world o) = screen_heap w
              /\ widget_heap (outcome_world o) = widget_heap w
              /\ trace (outcome_world o) = trace w ++ evs
              /\ Forall (notification w) evs /\ length evs <= 1).
  { intros ev Hev. unfold get_property.
    destruct (screens (client w) !! substring1 7 msg) as [r|] eqn:E.
    - exists (Return tt (emitted w (OnScreen r) ev)), [Emit (OnScreen r) ev].
      repeat split; auto. constructor; [|constructor].
      exists (substring1 7 msg), r. split; [exact E|]. destruct Hev as [-> | ->]; auto.
    - destruct (bool_decide _); [|exact Hnone].
      exists (Throw TypeError w), []. cbn. rewrite app_nil_r. repeat split; auto. }
  unfold on_message. destruct (String.eqb msg "success"); [exact Hnone|].
  destruct (String.eqb (substring2 0 6 msg) "listen"); [apply Hlook; now left|].
  destruct (String.eqb (substring2 0 6 msg) "ignore"); [apply Hlook; now right|].
  exact Hnone.
Qed.

Lemma forEach_notifications l : forall i w,
  exists o evs,
    forEach_from i on_message l w = Some o
    /\ client (outcome_world o) = client w
    /\ screen_heap (outcome_world o) = screen_heap w
    /\ widget_heap (outcome_world o) = widget_heap w
    /\ trace (outcome_world o) = trace w ++ evs
    /\ Forall (notification w) evs /\ length evs <= length l.
Proof.
  induction l as [|msg l IH]; intros i w; cbn [forEach_from].
  - exists (Return tt w), []. cbn. rewrite app_nil_r. repeat split; auto.
  - unfold mbind, M_bind, bind.
    destruct (on_message_notification msg i w)
      as ([[] w1|e w1] & evs & -> & Hc & Hs & Hw & Ht & Hn & Hl); cbn in Hc, Hs, Hw, Ht.
    + destruct (IH (S i) w1) as (o & evs' & -> & Hc' & Hs' & Hw' & Ht' & Hn' & Hl').
      exists o, (evs ++ evs'). split; [reflexivity|].
      split; [congruence|]. split; [congruence|]. split; [congruence|].
      split; [now rewrite Ht', Ht, app_assoc|]. split.
      * apply Forall_app. split; [exact Hn|]. eapply Forall_impl; [exact Hn'|].
        intros ev (id & r & Hr & Hev). exists id, r. split; [congruence|exact Hev].
      * rewrite length_app. cbn [length]. lia.
    + exists (Throw e w1), evs. repeat split; auto. cbn [length]. lia.
Qed.

(** X20. A chunk that does not begin with [connect] never makes the client
    send anything, and changes nothing of the client, its screens and its
    widgets: whether the handler returns or throws, all it has done is to
    make registered screens emit [shown] or [hidden], at most once for each
    line of the chunk. *)
Theorem notifications_only (chunk : string) (w : World) :
  is_connect chunk = false ->
  exists o evs,
    socket_on_data chunk w = Some o
    /\ client (outcome_world o) = client w
    /\ screen_heap (outcome_world o) = screen_heap w
    /\ widget_heap (outcome_world o) = widget_heap w
    /\ trace (outcome_world o) = trace w ++ evs
    /\ Forall (notification w) evs
    /\ length evs <= length (split_on "010" (trim chunk)).
Proof.
  intros H. unfold socket_on_data. unfold is_connect in H. rewrite H.
  apply forEach_notifications.
Qed.

Lemma notifications_only_witness :
  exists o evs,
    socket_on_data (join_lines ["listen lcdprocjs_s0"; "huh? what"; "ignore nothing"])
                   one_screen = Some o
    /\ trace (outcome_world o) = trace one_screen ++ evs
    /\ length evs <= 3.
Proof.
  destruct (notifications_only
              (join_lines ["listen lcdprocjs_s0"; "huh? what"; "ignore nothing"])
              one_screen eq_refl) as (o & evs & H & _ & _ & _ & T & _ & L).
  exists o, evs. split; [exact H|split; [exact T|exact L]].
Defined.

(** ** All that the client does to the outside *)

Lemma starts_with_app (t s : string) : starts_with t (t +:+ s) = true.
Proof.
  induction t as [|c t IH]; [reflexivity|]. rewrite append_String. cbn [starts_with].
  now rewrite Ascii.eqb_refl, IH.
Qed.

Lemma ends_with_LF_app (s : string) : ends_with_LF (s +:+ LF) = true.
Proof.
  induction s as [|c s IH]; [reflexivity|]. rewrite append_String.
  cbn [ends_with_LF]. destruct (s +:+ LF) eqn:E; [|exact IH].
  destruct s; discriminate.
Qed.

Lemma command_line_args (cmd rest : string) :
  In cmd commands -> command_line (cmd +:+ " " +:+ rest +:+ LF) = true.
Proof.
  intros H. unfold command_line. rewrite <- !append_assoc, ends_with_LF_app, andb_true_r.
  apply existsb_exists. exists cmd. split; [exact H|].
  rewrite !append_assoc, <- (append_assoc cmd " "), starts_with_app. reflexivity.
Qed.

Lemma write_tokens (args : list arg) : forall acc,
  fold_left (fun out a => match a with
                          | Array l => out ++ l
                          | Scalar v => out ++ [v]
                          end) args acc = acc ++ concat (map arg_tokens args).
Proof.
  induction args as [|a args IH]; intros acc; cbn [fold_left map concat].
  - now rewrite app_nil_r.
  - rewrite IH. destruct a; cbn [arg_tokens]; now rewrite <- app_assoc.
Qed.

Section Expected.
Let P (w : World) : Prop := forallb expected (trace w) = true.

Lemma expected_update f : (forall w, trace (f w) = trace w) -> preserves P (update f).
Proof. intros Hf. apply preserves_update. intros w Hw. unfold P. now rewrite Hf. Qed.

Lemma expected_alloc_screen s : preserves P (alloc_screen s).
Proof. intros w o HP [= <-]. exact HP. Qed.

Lemma expected_alloc_widget x : preserves P (alloc_widget x).
Proof. intros w o HP [= <-]. exact HP. Qed.

Lemma expected_perform e : expected e = true -> preserves P (perform e).
Proof.
  intros He. apply preserves_update. intros w Hw. unfold P. cbn [trace].
  rewrite forallb_app, Hw. cbn [forallb]. now rewrite He.
Qed.

Lemma expected_write (cmd : string) (a : jsval) (rest : list arg) :
  In cmd commands -> preserves P (Client_write (Scalar cmd :: Scalar a :: rest)).
Proof.
  intros H. unfold Client_write. cbv zeta. apply expected_perform. cbn [expected].
  rewrite write_tokens. cbn [map concat arg_tokens app].
  rewrite join_cons. cbn [join_item ToString]. rewrite !append_assoc.
  rewrite <- (append_assoc " "). now apply command_line_args.
Qed.
End Expected.

Ltac preserves_expected :=
  repeat (intros; cbv zeta;
    lazymatch goal with
    | |- preserves _ (mbind _ _) => apply preserves_bind
    | |- preserves _ (ret _) => apply preserves_ret
    | |- preserves _ (throw _) => apply preserves_throw
    | |- preserves _ dangling => apply preserves_dangling
    | |- preserves _ get_client => apply preserves_get_client
    | |- preserves _ (get_screen _) => apply preserves_get_screen
    | |- preserves _ (get_widget _) => apply preserves_get_widget
    | |- preserves _ (update _) => apply expected_update; reflexivity
    | |- preserves _ (alloc_screen _) => apply expected_alloc_screen
    | |- preserves _ (alloc_widget _) => apply expected_alloc_widget
    | |- preserves _ (perform _) => apply expected_perform; reflexivity
    | |- preserves _ (Client_write [_]) => apply expected_perform; reflexivity
    | |- preserves _ (Client_write _) => apply expected_write; cbn; tauto
    | |- preserves _ (forEach_from _ _ _) => apply preserves_forEach
    | |- preserves _ (match ?x with _ => _ end) => destruct x
    | |- preserves _ ?m => let h := head_of m in unfold h
    end).

Lemma do_call_expected c :
  preserves (fun w => forallb expected (trace w) = true) (do_call c).
Proof. destruct c; cbn [do_call]; preserves_expected. Qed.

(** X21. Whatever is called and whatever arrives, with whatever arguments, in
    every state the client goes through all it has done to the outside is:
    opening, ending and destroying the socket; writes that begin with one
    of the eight command words [hello], [client_set], [screen_add],
    [screen_set], [screen_del], [widget_add], [widget_set], [widget_del],
    followed by a blank or by nothing more, and that end with a line feed;
    emitting [ready]; and making screens emit [shown] and [hidden]. *)
Theorem nothing_but_the_protocol (config : obj) (w : World) :
  rtc step (Client_new config) w -> forallb expected (trace w) = true.
Proof.
  intros H.
  assert (G : forall w0, forallb expected (trace w0) = true ->
                         rtc step w0 w -> forallb expected (trace w) = true).
  { clear H. intros w0 H0 H. induction H as [|w0 w1 w2 (c & o & H & ->) _ IH]; [exact H0|].
    apply IH. exact (do_call_expected c w0 o H0 H). }
  exact (G (Client_new config) eq_refl H).
Qed.

Lemma nothing_but_the_protocol_witness :
  forallb expected (trace titled_world) = true.
Proof. exact (nothing_but_the_protocol [] titled_world titled_world_reached). Defined.
